(** * cervix-classif: prediction averaging, stacking and the bounding-box helpers

    A shallow embedding of [src/average_submissions.py], [src/stacking.py] and
    the image-dictionary and [predict] parts of [src/bounding_box.py].

    Conventions.
    - A Python exception is a value of [exn]; a computation that may raise
      returns a [result].
    - Python's [float] is an instance of the class [Number]. The functions are
      written once, over any instance; [binary64] (the kernel's IEEE 754
      doubles) is the instance the program runs on, [rationals] (canonical
      rationals) is an instance in which the field laws hold.
    - Collaborators that are not part of these three files (the file system,
      Keras, scikit-learn, [utils], [data_provider], [xception_fine_tune]) are
      fields of a record that the functions take as an argument. *)

From Stdlib Require Import String Ascii List ZArith QArith Qcanon Bool Lia.
From Stdlib Require Import Field Floats Uint63.
Import ListNotations.

Set Warnings "-inexact-float".
Set Implicit Arguments.

Close Scope Qc_scope.
Close Scope Q_scope.
Open Scope string_scope.
Open Scope nat_scope.

(** ** Python values shared by the three files *)

Module Py.

(** The exception classes the modelled code can raise itself, and [Raised] for
    an exception class of a collaborator, by its name. *)
Inductive exn : Type :=
| TypeError
| ValueError
| KeyError
| AttributeError
| Raised (cls : string).

Inductive result (A : Type) : Type :=
| Ok (a : A)
| Err (e : exn).

Arguments Ok {A} a.
Arguments Err {A} e.

Definition bind {A B : Type} (c : result A) (k : A -> result B) : result B :=
  match c with
  | Ok a => k a
  | Err e => Err e
  end.

Declare Scope result_scope.
Delimit Scope result_scope with result.
Open Scope result_scope.

Notation "x <- c ;; k" := (bind c (fun x => k))
  (at level 61, c at next level, right associativity) : result_scope.

Definition is_ok {A : Type} (c : result A) : bool :=
  match c with
  | Ok _ => true
  | Err _ => false
  end.

(** Two runs end alike: with the same exception, or with values related by [R]. *)
Definition same_outcome {A B : Type} (R : A -> B -> Prop) (x : result A) (y : result B) : Prop :=
  match x, y with
  | Ok a, Ok b => R a b
  | Err e, Err e' => e = e'
  | _, _ => False
  end.

(** [for x in xs: ...] with a body that may raise: the first exception ends
    the loop. *)
Fixpoint mapM {A B : Type} (f : A -> result B) (xs : list A) : result (list B) :=
  match xs with
  | [] => Ok []
  | x :: xs' =>
      y <- f x ;;
      ys <- mapM f xs' ;;
      Ok (y :: ys)
  end.

Fixpoint foldM {A S : Type} (f : S -> A -> result S) (xs : list A) (s : S) : result S :=
  match xs with
  | [] => Ok s
  | x :: xs' => s' <- f s x ;; foldM f xs' s'
  end.

(** A run with effects: the events so far, in order, and a value or the
    exception that ended the run. *)
Definition run (E A : Type) : Type := (list E * result A)%type.

Definition lift {E A : Type} (c : result A) : run E A := ([], c).

Definition emit {E : Type} (ev : E) : run E unit := ([ev], Ok tt).

Definition then_ {E A B : Type} (c : run E A) (k : A -> run E B) : run E B :=
  match c with
  | (evs, Ok a) => let (evs', r) := k a in ((evs ++ evs')%list, r)
  | (evs, Err x) => (evs, Err x)
  end.

Notation "x <~ c ;; k" := (then_ c (fun x => k))
  (at level 61, c at next level, right associativity) : result_scope.

(** *** Strings *)

Definition code (c : ascii) : nat := nat_of_ascii c.

(** [str.isspace] on the code points below 128. *)
Definition is_space (c : ascii) : bool :=
  let n := code c in
  ((9 <=? n) && (n <=? 13) || (28 <=? n) && (n <=? 32))%nat.

Definition is_digit (c : ascii) : bool :=
  let n := code c in ((48 <=? n) && (n <=? 57))%nat.

Definition is_empty (s : string) : bool :=
  match s with
  | EmptyString => true
  | String _ _ => false
  end.

(** [s.rstrip()] *)
Fixpoint rstrip (s : string) : string :=
  match s with
  | EmptyString => EmptyString
  | String c s' =>
      let r := rstrip s' in
      if is_space c && is_empty r then EmptyString else String c r
  end.

(** [s.split(sep)] for a one-character separator, as its first field and the
    fields after it: the result of [split] is never empty. *)
Fixpoint split_fields (sep : ascii) (s : string) : string * list string :=
  match s with
  | EmptyString => (EmptyString, [])
  | String c s' =>
      let (h, t) := split_fields sep s' in
      if Ascii.eqb c sep then (EmptyString, h :: t) else (String c h, t)
  end.

Definition split (sep : ascii) (s : string) : list string :=
  let (h, t) := split_fields sep s in h :: t.

Definition starts_with (c : ascii) (s : string) : bool :=
  match s with
  | String c' _ => Ascii.eqb c c'
  | EmptyString => false
  end.

Fixpoint ends_with (c : ascii) (s : string) : bool :=
  match s with
  | EmptyString => false
  | String c' EmptyString => Ascii.eqb c c'
  | String _ s' => ends_with c s'
  end.

(** [os.path.join(a, b)] of [posixpath]. *)
Definition join (a b : string) : string :=
  if starts_with "/" b then b
  else if is_empty a || ends_with "/" a then a ++ b
  else a ++ "/" ++ b.

(** Index of the last occurrence of [c], counted from [i]. *)
Fixpoint rfind_from (c : ascii) (s : string) (i : nat) : option nat :=
  match s with
  | EmptyString => None
  | String c' s' =>
      match rfind_from c s' (S i) with
      | Some j => Some j
      | None => if Ascii.eqb c c' then Some i else None
      end
  end.

Definition rfind (c : ascii) (s : string) : option nat := rfind_from c s 0.

Fixpoint all_chars (p : ascii -> bool) (s : string) : bool :=
  match s with
  | EmptyString => true
  | String c s' => p c && all_chars p s'
  end.

(** A string of ASCII characters. The characters of a string stand for code
    points below 256, and [is_space] and [is_digit] are Python's classes of
    white space and of decimal digits on ASCII strings. *)
Definition is_ascii (s : string) : bool := all_chars (fun c => (code c <? 128)%nat) s.

(** [os.path.splitext(p)[0]]: the extension starts at the last dot of the last
    path component, unless only dots stand before it in that component. *)
Definition splitext_root (p : string) : string :=
  match rfind "." p with
  | None => p
  | Some dot =>
      let name_start :=
        match rfind "/" p with
        | Some sep => S sep
        | None => 0
        end in
      if (dot <? name_start)%nat then p
      else if all_chars (Ascii.eqb ".") (substring name_start (dot - name_start) p)
           then p
           else substring 0 dot p
  end.

Fixpoint take_digits (s : string) : string :=
  match s with
  | EmptyString => EmptyString
  | String c s' => if is_digit c then String c (take_digits s') else EmptyString
  end.

(** [re.compile(r'\d+').search(s)] on an ASCII string [s]: the leftmost
    longest run of digits, [None] when [s] has no digit. (In a string with
    other characters [\d] also matches the decimal digits of other scripts.) *)
Fixpoint search_digits (s : string) : option string :=
  match s with
  | EmptyString => None
  | String c s' => if is_digit c then Some (take_digits s) else search_digits s'
  end.

(** *** [collections.OrderedDict] with string keys

    Items in insertion order; assigning to a key that is present keeps its
    position and replaces its value. *)
Definition odict (V : Type) : Type := list (string * V).

Definition keys {V : Type} (d : odict V) : list string := map fst d.

Fixpoint od_mem {V : Type} (k : string) (d : odict V) : bool :=
  match d with
  | [] => false
  | (k', _) :: d' => String.eqb k k' || od_mem k d'
  end.

Fixpoint od_get {V : Type} (k : string) (d : odict V) : result V :=
  match d with
  | [] => Err KeyError
  | (k', v) :: d' => if String.eqb k k' then Ok v else od_get k d'
  end.

Fixpoint od_set {V : Type} (k : string) (v : V) (d : odict V) : odict V :=
  match d with
  | [] => [(k, v)]
  | (k', v') :: d' =>
      if String.eqb k k' then (k', v) :: d' else (k', v') :: od_set k v d'
  end.

(** [del d[k]] *)
Fixpoint od_del {V : Type} (k : string) (d : odict V) : result (odict V) :=
  match d with
  | [] => Err KeyError
  | (k', v') :: d' =>
      if String.eqb k k' then Ok d'
      else r <- od_del k d' ;; Ok ((k', v') :: r)
  end.

(** [directory or default]: [None] and the empty string are falsy. *)
Definition or_default (directory : option string) (default : string) : string :=
  match directory with
  | Some d => if is_empty d then default else d
  | None => default
  end.

End Py.

Import Py.

Open Scope result_scope.

(** ** Python floats *)

Module Numbers.

(** What the program does with floats: [0.0], [1.0], [+], [*], [/] and
    [float(s)], which raises [ValueError] ([None] here) on a malformed string. *)
Class Number (F : Type) : Type := {
  fzero : F;
  fone : F;
  fadd : F -> F -> F;
  fmul : F -> F -> F;
  fdiv : F -> F -> F;
  float_of_string : string -> option F
}.

(** The laws of exact arithmetic, which doubles satisfy only up to rounding:
    the remaining field operations and the field axioms. *)
Class Exact (F : Type) {N : Number F} : Type := {
  fsub : F -> F -> F;
  fopp : F -> F;
  finv : F -> F;
  exact_field : field_theory fzero fone fadd fmul fsub fopp fdiv finv eq
}.

Arguments Exact F {N}.

(** The loop [res = 0.; for (i = 0; i < n; i++) res += a[i]]. *)
Definition sum_in_order {F : Type} {N : Number F} (xs : list F) : F :=
  fold_left fadd xs fzero.

Section PairwiseSum.

Context {F : Type} {N : Number F}.

(** The eight accumulators [r[0]] to [r[7]] of numpy's [pairwise_sum]. *)
Definition lanes : Type := (F * F * F * F * F * F * F * F)%type.

(** [for (i = 8; i < n - (n % 8); i += 8) r[j] += a[i + j]]: the blocks of
    eight entries are added to the accumulators; what is left, fewer than
    eight entries, is returned with them. *)
Fixpoint add_blocks (r : lanes) (xs : list F) : lanes * list F :=
  match xs with
  | a0 :: a1 :: a2 :: a3 :: a4 :: a5 :: a6 :: a7 :: rest =>
      let '(r0, r1, r2, r3, r4, r5, r6, r7) := r in
      add_blocks (fadd r0 a0, fadd r1 a1, fadd r2 a2, fadd r3 a3,
                  fadd r4 a4, fadd r5 a5, fadd r6 a6, fadd r7 a7) rest
  | _ => (r, xs)
  end.

(** [((r[0] + r[1]) + (r[2] + r[3])) + ((r[4] + r[5]) + (r[6] + r[7]))] *)
Definition add_lanes (r : lanes) : F :=
  let '(r0, r1, r2, r3, r4, r5, r6, r7) := r in
  fadd (fadd (fadd r0 r1) (fadd r2 r3)) (fadd (fadd r4 r5) (fadd r6 r7)).

(** [pairwise_sum] on at most 128 entries: a plain loop below eight entries;
    otherwise eight accumulators that start with the first eight entries,
    their sum, and the entries that are left added to it one by one. *)
Definition block_sum (xs : list F) : F :=
  match xs with
  | a0 :: a1 :: a2 :: a3 :: a4 :: a5 :: a6 :: a7 :: rest =>
      let (r, left_over) := add_blocks (a0, a1, a2, a3, a4, a5, a6, a7) rest in
      fold_left fadd left_over (add_lanes r)
  | _ => sum_in_order xs
  end.

(** [pairwise_sum(a, n)]: above 128 entries the vector is cut at
    [n / 2] rounded down to a multiple of eight, and the sums of the two
    parts are added. Each cut shortens the vector, so [fuel] at least the
    length is never used up. *)
Fixpoint pairwise_sum (fuel : nat) (xs : list F) : F :=
  match fuel with
  | O => block_sum xs
  | S fuel' =>
      if length xs <=? 128 then block_sum xs
      else
        let n2 := length xs / 2 in
        let n2 := n2 - n2 mod 8 in
        fadd (pairwise_sum fuel' (firstn n2 xs)) (pairwise_sum fuel' (skipn n2 xs))
  end.

(** [np.sum] of a contiguous vector: the output holds the additive identity
    and [pairwise_sum] of the vector is added to it. Below eight entries
    [pairwise_sum] is a loop from zero, whose result the addition to the
    zero of the output returns as it is. *)
Definition np_sum (xs : list F) : F :=
  if length xs <? 8 then sum_in_order xs
  else fadd fzero (pairwise_sum (length xs) xs).

End PairwiseSum.

(** *** Decimal literals

    [float(s)] is a parameter of the development (the field [float_of_string]);
    the two instances below implement it for signed decimal literals without
    exponent, the form in which submission files hold probabilities. *)

Fixpoint digits_value (s : string) (acc : Z) : option Z :=
  match s with
  | EmptyString => Some acc
  | String c s' =>
      if is_digit c
      then digits_value s' (10 * acc + Z.of_nat (code c - 48))%Z
      else None
  end.

(** Sign, digits read as one integer, and the number of digits after the
    point: ["-0.25"] is [(true, 25, 2)]. *)
Definition parse_decimal (s : string) : option (bool * Z * nat) :=
  let (neg, body) :=
    match s with
    | String "-" r => (true, r)
    | String "+" r => (false, r)
    | _ => (false, s)
    end in
  let (ip, rest) := split_fields "." body in
  match rest with
  | [] =>
      if is_empty ip then None
      else option_map (fun m => (neg, m, 0)) (digits_value ip 0)
  | [fp] =>
      if is_empty ip && is_empty fp then None
      else
        match digits_value ip 0, digits_value fp 0 with
        | Some a, Some b =>
            Some (neg, (a * 10 ^ Z.of_nat (String.length fp) + b)%Z, String.length fp)
        | _, _ => None
        end
  | _ => None
  end.

(** Doubles. A literal whose digits are below [2^53] with at most 18 of them
    after the point is the quotient of two integers that doubles hold exactly,
    so one correctly rounded division gives the double that [float] returns;
    longer literals are outside this instance. *)
Definition decimal_to_float (s : string) : option float :=
  match parse_decimal s with
  | Some (neg, m, k) =>
      if ((m <? 2 ^ 53)%Z && (k <=? 18))%bool then
        let q := PrimFloat.div (PrimFloat.of_uint63 (Uint63.of_Z m))
                               (PrimFloat.of_uint63 (Uint63.of_Z (10 ^ Z.of_nat k))) in
        Some (if neg then PrimFloat.opp q else q)
      else None
  | None => None
  end.

#[export] Instance binary64 : Number float := {|
  fzero := 0%float;
  fone := 1%float;
  fadd := PrimFloat.add;
  fmul := PrimFloat.mul;
  fdiv := PrimFloat.div;
  float_of_string := decimal_to_float
|}.

(** Canonical rationals: the same literals, read exactly. *)
Definition decimal_to_Qc (s : string) : option Qc :=
  match parse_decimal s with
  | Some (neg, m, k) =>
      let q := Q2Qc (Qmake m (Z.to_pos (10 ^ Z.of_nat k))) in
      Some (if neg then Qcopp q else q)
  | None => None
  end.

#[export] Instance rationals : Number Qc := {|
  fzero := Q2Qc 0;
  fone := Q2Qc 1;
  fadd := Qcplus;
  fmul := Qcmult;
  fdiv := Qcdiv;
  float_of_string := decimal_to_Qc
|}.

#[export] Instance rationals_exact : Exact Qc := {|
  fsub := Qcminus;
  fopp := Qcopp;
  finv := Qcinv;
  exact_field := Qcft
|}.

End Numbers.

Import Numbers.

(** ** [src/average_submissions.py] *)

Module AverageSubmissions.

(** What [average] reads from outside its file: [data_provider.SUBMISSIONS_DIR]
    and [utils.read_lines], that is the file system ([Err] when the read raises). *)
Record env : Type := {
  SUBMISSIONS_DIR : string;
  read_lines : string -> result (list string)
}.

Section Average.

Context {F : Type} {N : Number F}.

(** A two-dimensional array, by rows. *)
Definition matrix : Type := list (list F).

(** The arguments of the final call
    [create_submission_file(names, averaged, submissions_file)]. *)
Record submission : Type := {
  sub_names : list string;
  sub_probs : matrix;
  sub_path : string
}.

(** What one pass of the outer loop appends: the weight, the names of the
    file's lines and its probabilities. *)
Record source : Type := {
  src_weight : F;
  src_names : list string;
  src_probs : matrix
}.

Definition to_float (x : string) : result F :=
  match float_of_string x with
  | Some v => Ok v
  | None => Err ValueError
  end.

(** Lines 31 to 33: [split = line.rstrip().split(',')], the name [split[0]] and
    the floats of [split[1:]]. *)
Definition parse_line (line : string) : result (string * list F) :=
  let (name, fields) := split_fields "," (rstrip line) in
  row <- mapM to_float fields ;;
  Ok (name, row).

Definition same_length (rows : matrix) : bool :=
  match rows with
  | [] => true
  | r :: rest => forallb (fun r' => length r' =? length r) rest
  end.

(** [np.array(single_probs)] of a list of vectors. Rows of different lengths
    raise [ValueError] (numpy 1.24 and later; earlier versions build an array
    of objects, which the rest of [average] is not written for). *)
Definition np_array2 (rows : matrix) : result matrix :=
  if same_length rows then Ok rows else Err ValueError.

(** The body of the loop over [W_SUBMISSIONS.items()], lines 22 to 35. *)
Definition load_source (e : env) (entry : string * F) : result source :=
  let (file_name, weight) := entry in
  let file_path := join (SUBMISSIONS_DIR e) file_name in
  lines <- read_lines e file_path ;;
  parsed <- mapM parse_line (tl lines) ;;
  single_probs <- np_array2 (map snd parsed) ;;
  Ok {| src_weight := weight;
        src_names := map fst parsed;
        src_probs := single_probs |}.

(** [a.shape] of what [np.array] made of a list of rows: no row gives the
    one-dimensional empty array. *)
Definition shape (m : matrix) : list nat :=
  match m with
  | [] => [0]
  | r :: _ => [length m; length r]
  end.

Definition same_shape (ms : list matrix) : bool :=
  match ms with
  | [] => true
  | m :: rest =>
      forallb (fun m' => if list_eq_dec Nat.eq_dec (shape m') (shape m) then true else false) rest
  end.

(** [np.array(probs)] of the per-file arrays: they must agree in shape. *)
Definition np_array3 (ms : list matrix) : result (list matrix) :=
  if same_shape ms then Ok ms else Err ValueError.

Fixpoint zip_with {A : Type} (f : A -> A -> A) (xs ys : list A) : list A :=
  match xs, ys with
  | x :: xs', y :: ys' => f x y :: zip_with f xs' ys'
  | _, _ => []
  end.

(** One file's share of [probs * weights[:, np.newaxis, np.newaxis]]. *)
Definition scale (w : F) (m : matrix) : matrix :=
  map (map (fun p => fmul p w)) m.

Definition madd (a b : matrix) : matrix := zip_with (zip_with fadd) a b.

Definition zeros (r c : nat) : matrix := repeat (repeat fzero c) r.

(** [np.sum(a, axis=0)] of [r] by [c] arrays: the output starts at zero and
    the arrays are added to it in index order, position by position. Arrays
    of a single entry leave one axis to iterate over, that of the files, and
    their entries are added as those of a vector are. *)
Definition sum_axis0 (r c : nat) (ms : list matrix) : matrix :=
  if r * c =? 1
  then [[np_sum (map (fun m => nth 0 (nth 0 m []) fzero) ms)]]
  else fold_left madd ms (zeros r c).

(** Lines 40 and 41. With at least one file and at least one line per file
    [probs] has three axes and the weights scale the files. With fewer axes
    broadcasting against the three axes of [weights[:, np.newaxis, np.newaxis]]
    leaves only empty rows: one when there is no file, one per file when the
    files have no lines. *)
Definition weighted_mean (probs : list matrix) (weights : list F) : matrix :=
  match probs with
  | [] => [[]]
  | [] :: _ => repeat [] (length probs)
  | ((row :: _) as m) :: _ =>
      let averaged :=
        map (fun wm => scale (fst wm) (snd wm)) (combine weights probs) in
      map (map (fun x => fdiv x (np_sum weights)))
          (sum_axis0 (length m) (length row) averaged)
  end.

Definition averaged_file : string := "xception_fine_tuned_averaged.csv".

(** [average()], with the module's table [W_SUBMISSIONS] as an argument, in
    the order of [W_SUBMISSIONS.items()]. [names] is assigned anew in every
    pass of the loop, so the names written are those of the last file. *)
Definition average (e : env) (W_SUBMISSIONS : list (string * F)) : result submission :=
  sources <- mapM (load_source e) W_SUBMISSIONS ;;
  probs <- np_array3 (map src_probs sources) ;;
  let weights := map src_weight sources in
  Ok {| sub_names := last (map src_names sources) [];
        sub_probs := weighted_mean probs weights;
        sub_path := join (SUBMISSIONS_DIR e) averaged_file |}.

(** *** Vocabulary of the statements *)

(** [m[r][c]], [fzero] out of range. *)
Definition entry (m : matrix) (r c : nat) : F := nth c (nth r m []) fzero.

(** A matrix of [R] rows and [C] columns. *)
Definition has_shape (R C : nat) (m : matrix) : Prop :=
  length m = R /\ Forall (fun row => length row = C) m.

(** The entries of every row sum to [a]. *)
Definition row_sums_are (a : F) (m : matrix) : Prop :=
  Forall (fun row => np_sum row = a) m.

(** Every row is a distribution: its entries sum to one. *)
Definition rows_sum_to_one (m : matrix) : Prop := row_sums_are fone m.

(** The loop of lines 21 to 35 ends without an exception and has appended [srcs]. *)
Definition loaded (e : env) (W : list (string * F)) (srcs : list source) : Prop :=
  mapM (load_source e) W = Ok srcs.

(** At least one file, and every file holds [R] lines, [R] at least one, of
    [C] probabilities each: an ensemble of one shape. *)
Definition regular (R C : nat) (srcs : list source) : Prop :=
  srcs <> [] /\ 0 < R /\ Forall (fun s => has_shape R C (src_probs s)) srcs.

(** All files list the same item keys in the same order. *)
Definition keys_agree (srcs : list source) : Prop :=
  forall s s', In s srcs -> In s' srcs -> src_names s = src_names s'.

(** The matrix of the weighted mean, entry by entry as line 40 and 41 build it. *)
Definition combined (R C : nat) (srcs : list source) : matrix :=
  map (map (fun x => fdiv x (np_sum (map src_weight srcs))))
      (sum_axis0 R C (map (fun s => scale (src_weight s) (src_probs s)) srcs)).

End Average.

Arguments matrix F : clear implicits.
Arguments submission F : clear implicits.
Arguments source F : clear implicits.

(** The table of the source, lines 9 to 15. *)
Definition W_SUBMISSIONS : list (string * float) :=
  [ ("xception_fine_tuned_cleaned_0_70487.csv", 0.3%float);
    ("xception_fine_tuned_cleaned_0_71442.csv", 0.25%float);
    ("xception_fine_tuned_cleaned_0_72094.csv", 0.2%float);
    ("xception_fine_tuned_cleaned_0_72348.csv", 0.15%float);
    ("xception_fine_tuned_cleaned_0_72837.csv", 0.1%float) ].

(** Two lines that differ at most in their first field, the item key. *)
Definition same_probs_line (l l' : string) : Prop :=
  snd (split_fields "," (rstrip l)) = snd (split_fields "," (rstrip l')).

(** Two file systems whose submission files differ at most in their header
    lines and in the item keys of their lines. *)
Definition same_probs_env (e e' : env) : Prop :=
  SUBMISSIONS_DIR e = SUBMISSIONS_DIR e' /\
  forall path,
    same_outcome (fun ls ls' => Forall2 same_probs_line (tl ls) (tl ls'))
                 (read_lines e path) (read_lines e' path).

(** *** A small file system for the examples *)

Definition files (fs : list (string * list string)) (path : string) : result (list string) :=
  match od_get path fs with
  | Ok lines => Ok lines
  | Err _ => Err (Raised "FileNotFoundError")
  end.

(** Two files with the same item keys, and the second one again with other keys. *)
Definition file_a : list string :=
  ["image_name,Type_1,Type_2"; "1.jpg,0.08,0.92"; "2.jpg,0.5,0.5"].

Definition file_b : list string :=
  ["image_name,Type_1,Type_2"; "1.jpg,0.25,0.75"; "2.jpg,1,0"].

Definition file_b_other_keys : list string :=
  ["image_name,Type_1,Type_2"; "9.jpg,0.25,0.75"; "7.jpg,1,0"].

Definition demo_env : env :=
  {| SUBMISSIONS_DIR := "subs";
     read_lines := files [("subs/a.csv", file_a); ("subs/b.csv", file_b)] |}.

Definition demo_env_other_keys : env :=
  {| SUBMISSIONS_DIR := "subs";
     read_lines := files [("subs/a.csv", file_a); ("subs/b.csv", file_b_other_keys)] |}.

Definition matrix_a : matrix float := [[0.08; 0.92]; [0.5; 0.5]]%float.

Definition matrix_b : matrix float := [[0.25; 0.75]; [1; 0]]%float.


End AverageSubmissions.


(** ** [src/stacking.py] *)

Module Stacking.

Unset Implicit Arguments.

Definition WIDTH : Z := 299.
Definition HEIGHT : Z := 299.
Definition BATCH_SIZE : Z := 32.

(** The two [preprocess_input] functions of Keras that [MODELS] refers to. *)
Inductive preprocess : Type :=
| xception_preprocess
| inception_preprocess.

(** The table of the source, lines 21 to 40, in the order of [MODELS.items()]. *)
Definition MODELS : list (string * preprocess) :=
  [ ("xception_fine_tuned_stable_frozen_86_dropout_0_2_val_loss_0_7288.h5", xception_preprocess);
    ("xception_fine_tuned_stable_frozen_86_dropout_0_5_val_loss_0_7520.h5", xception_preprocess);
    ("xception_fine_tuned_stable_frozen_86_dropout_0_6_val_loss_0_7386.h5", xception_preprocess);
    ("xception_fine_tuned_stable_frozen_96_dropout_0_6_val_loss_0_7383.h5", xception_preprocess);
    ("xception_fine_tuned_stable_frozen_66_dropout_0_5_val_loss_0_7719.h5", xception_preprocess);
    ("xception_fine_tuned_stable_frozen_106_dropout_0_5_val_loss_0_7550.h5", xception_preprocess);
    ("inception_fine_tuned_stable_frozen_280_dropout_0_5_val_loss_0_7203.h5", inception_preprocess);
    ("inception_fine_tuned_stable_frozen_260_dropout_0_5_val_loss_0_7440.h5", inception_preprocess);
    ("inception_fine_tuned_stable_frozen_250_dropout_0_5_val_loss_0_7473.h5", inception_preprocess) ].

(** The two directories [_make_predictions] is called for: [dir_id] is ['val']
    or ['te']. *)
Inductive dir_id : Type :=
| val
| te.

(** The entries of the dictionary [data_info] that [train] reads. *)
Record data_info : Type := {
  num_val : Z;
  num_te : Z;
  dir_val : string;
  dir_te : string
}.

(** [data_info['dir_' + dir_id]] and [data_info['num_' + dir_id]] *)
Definition dir_of (info : data_info) (d : dir_id) : string :=
  match d with
  | val => dir_val info
  | te => dir_te info
  end.

Definition num_of (info : data_info) (d : dir_id) : Z :=
  match d with
  | val => num_val info
  | te => num_te info
  end.

(** The candidate combiners of lines 75 to 79 and 90. *)
Inductive classifier : Type :=
| DummyClassifier
| LogisticRegression (C : Z).

(** A two-dimensional array: its number of columns and its rows. The number
    of columns is kept apart because an array may have columns and no row. *)
Record ndarray (cell : Type) : Type := {
  ncols : nat;
  cells : list (list cell)
}.

Arguments ncols {cell} n.
Arguments cells {cell} n.
Arguments Build_ndarray {cell} ncols cells.

Definition nrows {cell : Type} (a : ndarray cell) : nat := length (cells a).

(** [np.empty((n, 0))] *)
Definition np_empty {cell : Type} (n : Z) : result (ndarray cell) :=
  if (n <? 0)%Z then Err ValueError
  else Ok {| ncols := 0; cells := repeat [] (Z.to_nat n) |}.

(** [np.hstack((a, b))] of two-dimensional arrays: the numbers of rows must agree. *)
Definition hstack {cell : Type} (a b : ndarray cell) : result (ndarray cell) :=
  if nrows a =? nrows b
  then Ok {| ncols := ncols a + ncols b;
             cells := map (fun rows => (fst rows ++ snd rows)%list) (combine (cells a) (cells b)) |}
  else Err ValueError.

(** What [train] calls outside its file: [data_provider], Keras,
    [xception_fine_tune.create_embeddings], [utils] and scikit-learn. Each
    call returns [Err] when it raises. *)
Record world : Type := {
  cell : Type;
  labels : Type;
  model : Type;
  generator : Type;
  scores : Type;
  fitted : Type;
  coefs : Type;
  MODELS_DIR : string;
  SUBMISSIONS_DIR : string;
  (** [load_organized_data_info(imgs_dim, name)] *)
  load_organized_data_info : Z -> string -> result data_info;
  (** [load_model(model_path)] *)
  load_model : string -> result model;
  (** [ImageDataGenerator(preprocessing_function).flow_from_directory(directory,
      target_size, class_mode=None, batch_size, shuffle=False)] *)
  flow_from_directory : preprocess -> string -> Z * Z -> Z -> result generator;
  (** [model.predict_generator(generator, steps)] *)
  predict_generator : model -> generator -> Z -> result (ndarray cell);
  (** [create_embeddings(name)], of whose six results [train] keeps [y_val]
      and [te_names] *)
  create_embeddings : string -> result (labels * list string);
  (** [cross_val_scores(classifiers, X, y, k)] *)
  cross_val_scores :
    list (string * classifier) -> ndarray cell -> labels -> Z -> result scores;
  (** [clf.fit(X, y)] *)
  fit : classifier -> ndarray cell -> labels -> result fitted;
  (** [lr.predict_proba(X)] *)
  predict_proba : fitted -> ndarray cell -> result (ndarray cell);
  (** [lr.coef_] *)
  coef_ : fitted -> coefs;
  (** whether [create_submission_file(names, probs, path)] raises *)
  create_submission_file : list string -> ndarray cell -> string -> result unit
}.

(** What a run of [train] does that is visible from outside: what it prints,
    and its call of [create_submission_file]. *)
Inductive event (w : world) : Type :=
| Printed_scores (s : scores w)
| Printed_coef (c : coefs w)
| Submission_file (names : list string) (probs : ndarray (cell w)) (path : string).

Arguments Printed_scores {w} s.
Arguments Printed_coef {w} c.
Arguments Submission_file {w} names probs path.

Definition is_submission_file {w : world} (ev : event w) : bool :=
  match ev with
  | Submission_file _ _ _ => true
  | _ => false
  end.

(** [ceil(n / d)] for a positive [d]; the quotient of two integers below
    [2^53] is exact when [d] is a power of two. *)
Definition ceil_div (n d : Z) : Z := ((n + d - 1) / d)%Z.

(** Lines 103 to 118. *)
Definition _make_predictions (w : world) (model_path : string)
    (preprocess_func : preprocess) (info : data_info) (d : dir_id) :
    result (ndarray (cell w)) :=
  model <- load_model w model_path ;;
  datagen <- flow_from_directory w preprocess_func (dir_of info d) (HEIGHT, WIDTH) BATCH_SIZE ;;
  predict_generator w model datagen (ceil_div (num_of info d) BATCH_SIZE).

(** [preds_val], and [preds_te] when it exists (not in cross-validate mode). *)
Definition features (w : world) : Type :=
  (ndarray (cell w) * option (ndarray (cell w)))%type.

(** One pass of the loop of lines 50 to 70. *)
Definition stack_model (w : world) (cross_validate : bool) (info : data_info)
    (preds : features w) (entry : string * preprocess) : result (features w) :=
  let (model_name, preprocess_func) := entry in
  let model_path := join (MODELS_DIR w) model_name in
  model_preds_val <- _make_predictions w model_path preprocess_func info val ;;
  model_preds_te <-
    (if cross_validate then Ok None
     else p <- _make_predictions w model_path preprocess_func info te ;; Ok (Some p)) ;;
  preds_val <- hstack (fst preds) model_preds_val ;;
  preds_te <-
    match snd preds, model_preds_te with
    | Some preds_te, Some p => a <- hstack preds_te p ;; Ok (Some a)
    | _, _ => Ok None
    end ;;
  Ok (preds_val, preds_te).

(** Lines 46 to 70: the empty arrays and the loop over [models]. *)
Definition stack_features (w : world) (models : list (string * preprocess))
    (cross_validate : bool) (info : data_info) : result (features w) :=
  preds_val <- np_empty (num_val info) ;;
  preds_te <-
    (if cross_validate then Ok None
     else a <- np_empty (num_te info) ;; Ok (Some a)) ;;
  foldM (stack_model w cross_validate info) models (preds_val, preds_te).

Definition clfs : list (string * classifier) :=
  [ ("stratified", DummyClassifier);
    ("lr", LogisticRegression (10 ^ 10));
    ("lr_l2", LogisticRegression 2) ].

Definition stacked_file : string := "stacked.csv".

(** Lines 74 to 100, after the features are built. *)
Definition combine_features (w : world) (cross_validate : bool) (k : Z)
    (preds : features w) (y_val : labels w) (te_names : list string) : run (event w) unit :=
  if cross_validate then
    scores <~ lift (cross_val_scores w clfs (fst preds) y_val k) ;;
    emit (Printed_scores scores)
  else
    match snd preds with
    | None =>
        (* [preds_te] is bound whenever [cross_validate] is false: not reached *)
        lift (Err (Raised "NameError"))
    | Some preds_te =>
        lr <~ lift (fit w (LogisticRegression (10 ^ 10)) (fst preds) y_val) ;;
        y_pred <~ lift (predict_proba w lr preds_te) ;;
        _ <~ emit (Submission_file te_names y_pred (join (SUBMISSIONS_DIR w) stacked_file)) ;;
        _ <~ lift (create_submission_file w te_names y_pred
                   (join (SUBMISSIONS_DIR w) stacked_file)) ;;
        emit (Printed_coef (coef_ w lr))
    end.

(** [train(name, cross_validate, k)], over a table [models]. *)
Definition train_with (w : world) (models : list (string * preprocess))
    (name : string) (cross_validate : bool) (k : Z) : run (event w) unit :=
  data_info <~ lift (load_organized_data_info w HEIGHT name) ;;
  preds <~ lift (stack_features w models cross_validate data_info) ;;
  emb <~ lift (create_embeddings w name) ;;
  combine_features w cross_validate k preds (fst emb) (snd emb).

(** [train(name='stable', cross_validate=True, k=10)] *)
Definition train (w : world) (name : string) (cross_validate : bool) (k : Z) : run (event w) unit :=
  train_with w MODELS name cross_validate k.

(** *** Vocabulary of the statements *)

(** The widths of the blocks of columns, one block per model. *)
Definition layout {cell : Type} (blocks : list (ndarray cell)) : list nat :=
  map ncols blocks.

(** Row [r] of the horizontal concatenation of [blocks]. *)
Definition concat_row {cell : Type} (blocks : list (ndarray cell)) (r : nat) : list cell :=
  concat (map (fun b => nth r (cells b) []) blocks).

(** The horizontal concatenation of [blocks], in their order, as an array of
    [n] rows. *)
Definition hstack_all {cell : Type} (n : nat) (blocks : list (ndarray cell)) : ndarray cell :=
  {| ncols := list_sum (layout blocks);
     cells := map (concat_row blocks) (seq 0 n) |}.

(** The predictions of every model of [models] on the directory [d], in the
    order of the table. *)
Definition predictions_of (w : world) (models : list (string * preprocess))
    (info : data_info) (d : dir_id) (blocks : list (ndarray (cell w))) : Prop :=
  Forall2 (fun entry block =>
             _make_predictions w (join (MODELS_DIR w) (fst entry)) (snd entry) info d
             = Ok block)
          models blocks.


(** *** A small world for the examples

    Two validation items, one test item, two classes. Every model predicts the
    same: [val_block] on the validation directory, [te_block] on the test
    directory. The combiner remembers the number of columns it was fitted on,
    raises [ValueError] when asked to predict on another number, as
    scikit-learn does, and returns [proba] otherwise. *)
Definition toy (te_block_ proba : ndarray float) : world :=
  {| cell := float;
     labels := list nat;
     model := string;
     generator := string;
     scores := list string;
     fitted := nat;
     coefs := nat;
     MODELS_DIR := "models";
     SUBMISSIONS_DIR := "subs";
     load_organized_data_info := fun _ _ =>
       Ok {| num_val := 2; num_te := 1; dir_val := "data/val"; dir_te := "data/te" |};
     load_model := fun path => Ok path;
     flow_from_directory := fun _ directory _ _ => Ok directory;
     predict_generator := fun _ directory _ =>
       if String.eqb directory "data/val"
       then Ok {| ncols := 2; cells := [[0.75; 0.25]; [0.5; 0.5]]%float |}
       else Ok te_block_;
     create_embeddings := fun _ => Ok ([0; 1], ["5.jpg"]);
     cross_val_scores := fun classifiers _ _ _ => Ok (map fst classifiers);
     fit := fun _ X _ => Ok (ncols X);
     predict_proba := fun n_features X =>
       if ncols X =? n_features then Ok proba else Err ValueError;
     coef_ := fun n_features => n_features;
     create_submission_file := fun _ _ _ => Ok tt |}.

Definition two_models : list (string * preprocess) :=
  [("x.h5", xception_preprocess); ("i.h5", inception_preprocess)].

Definition toy_info : data_info :=
  {| num_val := 2; num_te := 1; dir_val := "data/val"; dir_te := "data/te" |}.

Definition val_block : ndarray float :=
  {| ncols := 2; cells := [[0.75; 0.25]; [0.5; 0.5]]%float |}.

(** A test block of two classes. *)
Definition te_block : ndarray float :=
  {| ncols := 2; cells := [[0.25; 0.75]]%float |}.

(** Probabilities for the one test item. *)
Definition good_proba : ndarray float :=
  {| ncols := 2; cells := [[0.5; 0.5]]%float |}.

End Stacking.

(** ** [src/bounding_box.py] *)

Module BoundingBox.

Unset Implicit Arguments.

Definition IJ_ROI_DIR : string := join "data" "bounding_boxes_299".

Definition CLASSES : list string := ["Type_1"; "Type_2"; "Type_3"].

Definition TRAINING_DIR : string := join "data" "train_299".

(** A Keras layer stack, as far as this file builds one. *)
Inductive layer : Type :=
| Dropout (rate : Q)
| Dense (units : nat) (l2 : Q).

Inductive network : Type :=
| Xception_imagenet
    (* [Xception(weights='imagenet', include_top=False, pooling='avg')] *)
| Top_classifier (l2_reg dropout_p : Q) (input_shape : nat)
    (* [xception_fine_tune._top_classifier(l2_reg, dropout_p, input_shape)] *)
| Sequential (input_shape : nat) (layers : list layer)
| Stacked (base head : network)
    (* [Model(inputs=base.input, outputs=head(base.output))] *).

(** A model: its layers, and the weight files loaded into it or into a model
    that shares its layers, oldest first. *)
Record keras_model : Type := {
  net : network;
  weight_files : list string
}.

(** What the file calls outside itself: the file system, the image loader and
    Keras. Each call returns [Err] when it raises. *)
Record world : Type := {
  image : Type;
  predictions : Type;
  MODELS_DIR : string;
  (** [os.listdir(path)] *)
  listdir : string -> result (list string);
  (** [load_img(path)] *)
  load_img : string -> result image;
  (** [X[idx] = img] for a row of [X], of shape [(HEIGHT, WIDTH, 3)]: the row
      after the assignment, which holds the array of [img] broadcast to that
      shape; [ValueError] when it cannot be broadcast to it *)
  store_row : image -> result image;
  (** whether [model.load_weights(path)] raises *)
  load_weights : network -> string -> result unit;
  (** [model.predict(X)] *)
  model_predict : keras_model -> list image -> result predictions;
  (** [predictions[:5]] *)
  first_rows : nat -> predictions -> predictions
}.

Definition MODEL_FILE (w : world) : string := join (MODELS_DIR w) "localizer.h5".

(** Lines 30 to 41. *)
Definition _get_dict_roi (w : world) (directory : option string) : result (odict string) :=
  fs <- listdir w (or_default directory IJ_ROI_DIR) ;;
  Ok (fold_left
        (fun d f => od_set (splitext_root f) (join (or_default directory IJ_ROI_DIR) f) d)
        fs []).

(** The body of the inner loop of [_get_dict_all_images]: [search] returns
    [None] on a name without digit, and [None.group] raises. *)
Definition add_image (dir class_ : string) (d : odict string) (f : string) :
    result (odict string) :=
  match search_digits (splitext_root f) with
  | None => Err AttributeError
  | Some img_id => Ok (od_set img_id (join (join dir class_) f) d)
  end.

Definition add_class (w : world) (directory : option string) (d : odict string)
    (class_ : string) : result (odict string) :=
  fs <- listdir w (join (or_default directory TRAINING_DIR) class_) ;;
  foldM (add_image (or_default directory TRAINING_DIR) class_) fs d.

(** Lines 44 to 62. *)
Definition _get_dict_all_images (w : world) (directory : option string) :
    result (odict string) :=
  foldM (add_class w directory) CLASSES [].

(** The body of the loop of [_get_dict_tagged_images]. *)
Definition add_tagged (all_images tagged_roi : odict string) (d : odict string)
    (img_id : string) : result (odict string) :=
  if od_mem img_id tagged_roi
  then path <- od_get img_id all_images ;; Ok (od_set img_id path d)
  else Ok d.

(** Lines 65 to 79. *)
Definition _get_dict_tagged_images (w : world) (directory roi_directory : option string) :
    result (odict string) :=
  all_images <- _get_dict_all_images w directory ;;
  tagged_roi <- _get_dict_roi w roi_directory ;;
  foldM (add_tagged all_images tagged_roi) (keys all_images) [].

(** Lines 82 to 86. *)
Definition _get_dict_untagged_images (w : world) (directory : option string) :
    result (odict string) :=
  d <- _get_dict_all_images w directory ;;
  tagged <- _get_dict_tagged_images w directory None ;;
  foldM (fun d img_id => od_del img_id d) (keys tagged) d.

(** Lines 151 to 156. *)
Definition _get_all_images (w : world) : result (list string * list (image w)) :=
  img_dict <- _get_dict_all_images w None ;;
  X <- mapM (fun img_id =>
               path <- od_get img_id img_dict ;;
               img <- load_img w path ;;
               store_row w img)
            (keys img_dict) ;;
  Ok (keys img_dict, X).

(** Lines 183 to 191. *)
Definition _regression_head (l2_reg dropout_p : Q) (input_shape : nat) : network :=
  Sequential input_shape [Dropout dropout_p; Dense 4 l2_reg].

(** Binding the arguments of a call to the parameters of [def _cnn(model_file)]:
    one positional parameter without a default. A call with another number of
    arguments raises [TypeError] before the body runs. *)
Definition bind_model_file (args : list string) : result string :=
  match args with
  | [model_file] => Ok model_file
  | _ => Err TypeError
  end.

(** Lines 164 to 180, called with the arguments [args]. The returned model
    shares the layers of [model], into which the weights were loaded. *)
Definition _cnn (w : world) (args : list string) : result keras_model :=
  model_file <- bind_model_file args ;;
  let model := Xception_imagenet in
  let top_classifier := Top_classifier 0 (1 # 2) 2048 in
  let model_ := Stacked model top_classifier in
  _ <- load_weights w model_ model_file ;;
  let regression_head := _regression_head 0 (1 # 2) 2048 in
  Ok {| net := Stacked model regression_head; weight_files := [model_file] |}.

(** What a run of [predict] prints and saves. *)
Inductive event (w : world) : Type :=
| Printed_labels (labels : list string)
| Printed_predictions (p : predictions w)
| Printed_shape_of (p : predictions w)
| Saved (path : string) (p : predictions w).

Arguments Printed_labels {w} labels.
Arguments Printed_predictions {w} p.
Arguments Printed_shape_of {w} p.
Arguments Saved {w} path p.

(** Lines 230 to 241: [predict()] calls [_cnn()] without an argument. *)
Definition predict (w : world) : run (event w) unit :=
  model <~ lift (_cnn w []) ;;
  _ <~ lift (load_weights w (net model) (MODEL_FILE w)) ;;
  let model := {| net := net model;
                  weight_files := (weight_files model ++ [MODEL_FILE w])%list |} in
  labels_X <~ lift (_get_all_images w) ;;
  _ <~ emit (Printed_labels (firstn 20 (fst labels_X))) ;;
  predictions <~ lift (model_predict w model (snd labels_X)) ;;
  _ <~ emit (Printed_predictions (first_rows w 5 predictions)) ;;
  _ <~ emit (Printed_shape_of predictions) ;;
  emit (Saved "predictions.npy" predictions).

(** *** Vocabulary of the statements *)

(** The image ids of [d] that have a file in the ROI dictionary, with their
    paths, in the order of [d]; and the other ones. *)
Definition with_roi (roi d : odict string) : odict string :=
  filter (fun item => od_mem (fst item) roi) d.

Definition without_roi (roi d : odict string) : odict string :=
  filter (fun item => negb (od_mem (fst item) roi)) d.

(** *** A small training directory for the examples *)

Definition demo_listdir (path : string) : result (list string) :=
  match od_get path
          [ ("data/train_299/Type_1", ["12.jpg"; "7.jpg"]);
            ("data/train_299/Type_2", ["additional_30.jpg"]);
            ("data/train_299/Type_3", ["41.jpg"; "12_copy.jpg"]);
            ("data/bounding_boxes_299", ["7.roi"; "41.roi"; "99.roi"]) ] with
  | Ok fs => Ok fs
  | Err _ => Err (Raised "FileNotFoundError")
  end.

Definition demo_world : world :=
  {| image := string;
     predictions := list string;
     MODELS_DIR := "models";
     listdir := demo_listdir;
     load_img := fun path => Ok path;
     store_row := fun img => Ok img;
     load_weights := fun _ _ => Ok tt;
     model_predict := fun _ X => Ok X;
     first_rows := fun n p => firstn n p |}.

End BoundingBox.

(** ** [src/bounding_box.py]: ROI files and the image loaders *)

Module BoundingBoxImages.

Unset Implicit Arguments.

Import BoundingBox.

(** [s.endswith(suffix)] *)
Definition endswith (suffix s : string) : bool :=
  (String.length suffix <=? String.length s) &&
  String.eqb (substring (String.length s - String.length suffix) (String.length suffix) s)
             suffix.

(** What the loaders call besides the collaborators of [world]: the ROI reader
    and the image functions of Keras with a target size. *)
Record loaders : Type := {
  base : world;
  (** [ijroi.read_roi(open(fname, 'rb'))] on a ROI without sub-pixel
      resolution: its points, each a pair of [int16] coordinates. (With
      sub-pixel resolution the coordinates are [float32]; such files are not
      covered.) *)
  read_roi : string -> result (list (Z * Z));
  (** [load_img(path, target_size=(HEIGHT, WIDTH))] *)
  load_img_sized : string -> result (image base);
  (** [img_to_array(img)], stored in a row of [X] *)
  img_to_array : image base -> result (image base)
}.

(** The file [_convert_from_roi] opens for [fname]. *)
Definition roi_file (fname : string) : string :=
  if endswith ".roi" fname then fname
  else String.append (join IJ_ROI_DIR fname) ".roi".

(** The [int16] that an operation on [int16] numbers returns when its exact
    result is [z]: numpy wraps around. *)
Definition int16 (z : Z) : Z := ((z + 32768) mod 65536 - 32768)%Z.

Definition is_int16 (z : Z) : Prop := (-32768 <= z < 32768)%Z.

(** Lines 89 to 107: [roi[0]] and [roi[2]] raise [IndexError] on a ROI of
    fewer than three points. The result is [[top, left, height, width]], the
    two differences computed on [int16]. *)
Definition _convert_from_roi (lw : loaders) (fname : string) : result (list Z) :=
  roi <- read_roi lw (roi_file fname) ;;
  match roi with
  | (top, lft) :: _ :: (bottom, rgt) :: _ =>
      Ok [top; lft; int16 (bottom - top); int16 (rgt - lft)]%Z
  | _ => Err (Raised "IndexError")
  end.

(** Binding the arguments of a call to the parameters of
    [def _get_tagged_images(training_dir, roi_dir=None)]. *)
Definition bind_training_dir (args : list string) : result (string * option string) :=
  match args with
  | [training_dir] => Ok (training_dir, None)
  | [training_dir; roi_dir] => Ok (training_dir, Some roi_dir)
  | _ => Err TypeError
  end.

(** The body of the loop of [_get_tagged_images], lines 128 to 131. *)
Definition load_tagged (lw : loaders) (roi_dict img_dict : odict string) (key : string) :
    result (image (base lw) * list Z) :=
  path <- od_get key img_dict ;;
  img <- load_img_sized lw path ;;
  x <- img_to_array lw img ;;
  roi_path <- od_get key roi_dict ;;
  y <- _convert_from_roi lw roi_path ;;
  Ok (x, y).

(** Lines 110 to 133, called with the arguments [args]: the labels, [X] and [Y]. *)
Definition _get_tagged_images (lw : loaders) (args : list string) :
    result (list string * list (image (base lw)) * list (list Z)) :=
  a <- bind_training_dir args ;;
  let training_dir := fst a in
  let roi_dir := snd a in
  roi_dict <- _get_dict_roi (base lw) (Some (or_default roi_dir IJ_ROI_DIR)) ;;
  img_dict <- _get_dict_tagged_images (base lw) (Some training_dir) roi_dir ;;
  XY <- mapM (load_tagged lw roi_dict img_dict) (keys img_dict) ;;
  Ok (keys img_dict, map fst XY, map snd XY).

(** Lines 143 to 148. *)
Definition _get_untagged_images (w : world) : result (list string * list (image w)) :=
  img_dict <- _get_dict_untagged_images w None ;;
  X <- mapM (fun img_id =>
               path <- od_get img_id img_dict ;;
               img <- load_img w path ;;
               store_row w img)
            (keys img_dict) ;;
  Ok (keys img_dict, X).

(** What [number_tagged] prints: a label and a number. *)
Inductive count_event : Type :=
| Printed_count (label : string) (n : nat).

(** Lines 159 to 161: [number_tagged()] calls [_get_tagged_images()] without
    an argument. [X.shape[0]] is the number of images. *)
Definition number_tagged (lw : loaders) : run count_event unit :=
  tagged <~ lift (_get_tagged_images lw []) ;;
  _ <~ emit (Printed_count "Number of tagged images" (length (snd (fst tagged)))) ;;
  untagged <~ lift (_get_untagged_images (base lw)) ;;
  emit (Printed_count "Number of untagged images" (length (snd untagged))).

(** *** Vocabulary of the statements *)

(** The dictionary that assigning the items one after the other builds. *)
Definition od_of_list {V : Type} (items : list (string * V)) : odict V :=
  fold_left (fun d item => od_set (fst item) (snd item) d) items [].

(** The value of the last item with key [k]. *)
Definition last_value {V : Type} (k : string) (items : list (string * V)) : option V :=
  option_map snd (find (fun item => String.eqb k (fst item)) (rev items)).

(** The keys in the order of their first occurrences. *)
Fixpoint first_occurrences (ks : list string) : list string :=
  match ks with
  | [] => []
  | k :: ks' => k :: filter (fun k' => negb (String.eqb k k')) (first_occurrences ks')
  end.

(** The id and the path that the loop of [_get_dict_all_images] stores for
    the file [f] of the class [class_]. *)
Definition image_item (dir class_ f : string) : result (string * string) :=
  match search_digits (splitext_root f) with
  | None => Err AttributeError
  | Some img_id => Ok (img_id, join (join dir class_) f)
  end.

(** The files that the loops of [_get_dict_all_images] visit, class by class
    and in the order of the listings, each with its id and path. *)
Definition listed_images (w : world) (directory : option string) :
    result (list (string * string)) :=
  per_class <- mapM (fun class_ =>
                       fs <- listdir w (join (or_default directory TRAINING_DIR) class_) ;;
                       mapM (image_item (or_default directory TRAINING_DIR) class_) fs)
                    CLASSES ;;
  Ok (concat per_class).

(** The four corners of a rectangle as ImageJ lists them. *)
Definition rectangle (top lft bottom rgt : Z) : list (Z * Z) :=
  [(top, lft); (top, rgt); (bottom, rgt); (bottom, lft)].

(** *** A small world for the examples: the directory of [demo_world] with
    rectangles for its three ROI files *)
Definition demo_loaders : loaders :=
  {| base := demo_world;
     read_roi := fun path =>
       if String.eqb path "data/bounding_boxes_299/7.roi" then Ok (rectangle 10 20 110 220)
       else if String.eqb path "data/bounding_boxes_299/41.roi" then Ok (rectangle 0 0 299 299)
       else if String.eqb path "data/bounding_boxes_299/99.roi" then Ok [(1, 2); (3, 4)]%Z
       else Err (Raised "FileNotFoundError");
     load_img_sized := fun path => Ok path;
     img_to_array := fun img => Ok img |}.

End BoundingBoxImages.


(** ** [src/average_submissions.py]: lines and tables of the statements *)

Module SubmissionTables.

Unset Implicit Arguments.

Import AverageSubmissions.



(** The table [W] with every weight multiplied by [k]. *)
Definition scale_weights {F : Type} {N : Number F} (k : F) (W : list (string * F)) :
    list (string * F) :=
  map (fun entry => (fst entry, fmul (snd entry) k)) W.

(** Every entry of [m] is a probability: a rational between 0 and 1. *)
Definition entries_in_unit_interval (m : matrix Qc) : Prop :=
  Forall (Forall (fun p => (0 <= p)%Qc /\ (p <= 1)%Qc)) m.

End SubmissionTables.
(** * Facts *)

Import AverageSubmissions.

(** ** The string functions on sample inputs *)

Example rstrip_sample :
  rstrip (String "a" (String "," (String " " (String "b" (String " " (String "013" (String "010" "")))))))
  = "a, b".
Proof. reflexivity. Qed.

Example split_sample :
  split "," "7.jpg,0.5,,0.25" = ["7.jpg"; "0.5"; ""; "0.25"] /\ split "," "" = [""].
Proof. split; reflexivity. Qed.

Example splitext_sample :
  map splitext_root ["12.jpg"; ".bashrc"; "a.b.c"; "..x"; "noext"; "d.e/f"; "...a.b"]
  = ["12"; ".bashrc"; "a.b"; "..x"; "noext"; "d.e/f"; "...a"].
Proof. reflexivity. Qed.

Example search_digits_sample :
  map search_digits ["additional_123_x4"; "abc"; "77"] = [Some "123"; None; Some "77"].
Proof. reflexivity. Qed.

Example join_sample :
  map (fun p => join (fst p) (snd p)) [("a", "b"); ("a/", "b"); ("", "b"); ("a", "/b"); ("a", "")]
  = ["a/b"; "a/b"; "b"; "/b"; "a/"].
Proof. reflexivity. Qed.

Example W_SUBMISSIONS_total : np_sum (map snd W_SUBMISSIONS) = 1%float.
Proof. reflexivity. Qed.

(** Eight weights of 0.1: [np.sum] adds them in pairs, a loop would not. *)
Example np_sum_sample :
  np_sum (repeat 0.1%float 8) = 0.8%float /\
  sum_in_order (repeat 0.1%float 8) = 0.7999999999999999%float /\
  np_sum (repeat 0.1%float 7) = sum_in_order (repeat 0.1%float 7).
Proof. repeat split; vm_compute; reflexivity. Qed.

Example float_of_string_sample :
  map decimal_to_float ["0.3"; "1"; "-2.5"; ".5"; "1."; ""; "."; "1.2.3"; "0.5x"]
  = [Some 0.3; Some 1; Some (-2.5); Some 0.5; Some 1; None; None; None; None]%float.
Proof. reflexivity. Qed.

(** ** The result monad *)

Lemma bind_ok_inv (A B : Type) (c : result A) (k : A -> result B) (b : B) :
  bind c k = Ok b -> exists a, c = Ok a /\ k a = Ok b.
Proof.
  destruct c as [a | e]; simpl; intros H.
  - exists a. split; [reflexivity | exact H].
  - discriminate H.
Qed.

Lemma mapM_ok_Forall2 (A B : Type) (f : A -> result B) (xs : list A) (ys : list B) :
  mapM f xs = Ok ys -> Forall2 (fun x y => f x = Ok y) xs ys.
Proof.
  revert ys. induction xs as [| x xs IH]; simpl; intros ys H.
  - injection H as <-. constructor.
  - apply bind_ok_inv in H. destruct H as (y & Hy & H).
    apply bind_ok_inv in H. destruct H as (ys' & Hys & H).
    injection H as <-. constructor; [exact Hy | apply IH; exact Hys].
Qed.

(** ** Arrays of [average] *)

Section ArrayFacts.

Context {F : Type} {N : Number F}.

Lemma nth_zip_with (f : F -> F -> F) (xs ys : list F) (c : nat) (d : F) :
  length xs = length ys -> c < length xs ->
  nth c (zip_with f xs ys) d = f (nth c xs d) (nth c ys d).
Proof.
  revert ys c. induction xs as [| x xs IH]; intros [| y ys] c Hlen Hc; simpl in *; try lia.
  destruct c as [| c]; [reflexivity |]. apply IH; lia.
Qed.

Lemma zip_with_length (A : Type) (f : A -> A -> A) (xs ys : list A) :
  length xs = length ys -> length (zip_with f xs ys) = length xs.
Proof.
  revert ys. induction xs as [| x xs IH]; intros [| y ys] Hlen; simpl in *; try lia.
  rewrite IH; lia.
Qed.

Lemma has_shape_row (R C : nat) (m : matrix F) (r : nat) :
  has_shape R C m -> r < R -> length (nth r m []) = C.
Proof.
  intros [Hlen Hrows] Hr. rewrite Forall_forall in Hrows.
  apply Hrows. apply nth_In. lia.
Qed.

Lemma has_shape_madd (R C : nat) (a b : matrix F) :
  has_shape R C a -> has_shape R C b -> has_shape R C (madd a b).
Proof.
  intros [Ha Hra] [Hb Hrb]. unfold madd. split.
  - rewrite zip_with_length; lia.
  - clear Ha Hb. revert b Hrb. induction Hra as [| x a Hx _ IH]; intros [| y b] Hrb; simpl;
      try constructor.
    + inversion Hrb; subst. rewrite zip_with_length; lia.
    + inversion Hrb; subst. apply IH. assumption.
Qed.

Lemma entry_madd (R C : nat) (a b : matrix F) (r c : nat) :
  has_shape R C a -> has_shape R C b -> r < R -> c < C ->
  entry (madd a b) r c = fadd (entry a r c) (entry b r c).
Proof.
  intros Ha Hb Hr Hc. unfold entry, madd.
  assert (Hra := has_shape_row Ha Hr). assert (Hrb := has_shape_row Hb Hr).
  destruct Ha as [Ha _], Hb as [Hb _].
  assert (Hrow : nth r (zip_with (zip_with fadd) a b) [] =
                 zip_with fadd (nth r a []) (nth r b [])).
  { clear Hra Hrb. subst R. revert b r Hb Hr.
    induction a as [| x a IH]; intros [| y b] r Hb Hr; simpl in *; try lia.
    destruct r as [| r]; [reflexivity |]. apply IH; lia. }
  rewrite Hrow. apply nth_zip_with; lia.
Qed.

Lemma has_shape_zeros (R C : nat) : has_shape R C (zeros R C).
Proof.
  unfold zeros. split.
  - apply repeat_length.
  - apply Forall_forall. intros row Hin. apply repeat_spec in Hin. subst row.
    apply repeat_length.
Qed.

Lemma entry_zeros (R C r c : nat) : entry (zeros R C) r c = fzero.
Proof.
  unfold entry, zeros.
  destruct (Nat.lt_ge_cases r R) as [Hr | Hr].
  - rewrite nth_repeat_lt by exact Hr.
    destruct (Nat.lt_ge_cases c C) as [Hc | Hc].
    + apply nth_repeat_lt. exact Hc.
    + apply nth_overflow. rewrite repeat_length. exact Hc.
  - rewrite (nth_overflow (repeat (repeat fzero C) R) [])
      by (rewrite repeat_length; exact Hr).
    destruct c; reflexivity.
Qed.

Lemma has_shape_scale (R C : nat) (w : F) (m : matrix F) :
  has_shape R C m -> has_shape R C (scale w m).
Proof.
  intros [Hlen Hrows]. unfold scale. split.
  - rewrite length_map. exact Hlen.
  - apply Forall_map. eapply Forall_impl; [| exact Hrows].
    intros row Hrow. simpl. rewrite length_map. exact Hrow.
Qed.

Lemma entry_map (g : F -> F) (R C : nat) (m : matrix F) (r c : nat) :
  has_shape R C m -> r < R -> c < C ->
  entry (map (map g) m) r c = g (entry m r c).
Proof.
  intros Hm Hr Hc. unfold entry.
  assert (Hrow := has_shape_row Hm Hr). destruct Hm as [Hlen _].
  rewrite (nth_indep _ [] (map g [])) by (rewrite length_map; lia).
  rewrite map_nth.
  rewrite (nth_indep _ fzero (g fzero)) by (rewrite length_map; lia).
  apply map_nth.
Qed.

Lemma sum_axis0_fold (R C : nat) (ms : list (matrix F)) (acc : matrix F) (r c : nat) :
  Forall (has_shape R C) ms -> has_shape R C acc -> r < R -> c < C ->
  has_shape R C (fold_left madd ms acc) /\
  entry (fold_left madd ms acc) r c =
  fold_left fadd (map (fun m => entry m r c) ms) (entry acc r c).
Proof.
  intros Hms. revert acc. induction Hms as [| m ms Hm _ IH]; intros acc Hacc Hr Hc; simpl.
  - split; [exact Hacc | reflexivity].
  - rewrite <- (entry_madd Hacc Hm Hr Hc).
    apply IH; [apply has_shape_madd; assumption | exact Hr | exact Hc].
Qed.

Lemma has_shape_map (g : F -> F) (R C : nat) (m : matrix F) :
  has_shape R C m -> has_shape R C (map (map g) m).
Proof.
  intros [Hlen Hrows]. split; [rewrite length_map; exact Hlen |].
  apply Forall_map. apply (Forall_impl _ (P := fun row => length row = C)); [| exact Hrows].
  intros row Hrow. rewrite length_map. exact Hrow.
Qed.

Lemma has_shape_fold (R C : nat) (ms : list (matrix F)) (acc : matrix F) :
  Forall (has_shape R C) ms -> has_shape R C acc -> has_shape R C (fold_left madd ms acc).
Proof.
  intros Hms. revert acc. induction Hms as [| m ms Hm _ IH]; intros acc Hacc; simpl.
  - exact Hacc.
  - apply IH. apply has_shape_madd; assumption.
Qed.

(** Below eight entries [np.sum] is the loop. *)
Lemma np_sum_few (xs : list F) : length xs < 8 -> np_sum xs = sum_in_order xs.
Proof. intros H. unfold np_sum. apply Nat.ltb_lt in H. rewrite H. reflexivity. Qed.

(** The result of [pairwise_sum] does not depend on the fuel. *)
Lemma pairwise_sum_fuel (fuel fuel' : nat) (xs : list F) :
  length xs <= fuel -> length xs <= fuel' -> pairwise_sum fuel xs = pairwise_sum fuel' xs.
Proof.
  revert fuel' xs. induction fuel as [| fuel IH]; intros fuel' xs Hf Hf'.
  - destruct xs; [| simpl in Hf; lia]. destruct fuel'; reflexivity.
  - destruct fuel' as [| fuel'].
    + destruct xs; [| simpl in Hf'; lia]. reflexivity.
    + cbn [pairwise_sum].
      destruct (Nat.leb_spec (length xs) 128) as [_ | Hlong]; [reflexivity |].
      assert (Hcut : 0 < length xs / 2 - (length xs / 2) mod 8 < length xs).
      { pose proof (Nat.div_mod_eq (length xs) 2) as H2.
        pose proof (Nat.mod_upper_bound (length xs) 2) as Hm2.
        pose proof (Nat.mod_upper_bound (length xs / 2) 8) as Hm8. lia. }
      f_equal; apply IH; rewrite ?length_firstn, ?length_skipn; lia.
Qed.

(** Matrices of one entry are added as their entries are. *)
Lemma fold_madd_single (ms : list (matrix F)) (a : F) :
  Forall (has_shape 1 1) ms ->
  fold_left madd ms [[a]] =
  [[fold_left fadd (map (fun m => nth 0 (nth 0 m []) fzero) ms) a]].
Proof.
  intros Hms. revert a. induction Hms as [| m ms Hm _ IH]; intros a; simpl; [reflexivity |].
  destruct Hm as [Hlen Hrows].
  destruct m as [| row [| row' m]]; simpl in Hlen; try discriminate.
  inversion Hrows as [| ? ? Hrow _]; subst.
  destruct row as [| x [| x' row]]; simpl in Hrow; try discriminate.
  simpl. apply IH.
Qed.

(** [np.sum(a, axis=0)] adds the arrays one after the other whenever they
    have more than one entry, or are fewer than eight. *)
Lemma sum_axis0_in_order (R C : nat) (ms : list (matrix F)) :
  length ms < 8 \/ R * C <> 1 ->
  Forall (has_shape R C) ms ->
  sum_axis0 R C ms = fold_left madd ms (zeros R C).
Proof.
  intros Hcase Hms. unfold sum_axis0.
  destruct (Nat.eqb_spec (R * C) 1) as [Hone | Hne]; [| reflexivity].
  destruct Hcase as [Hfew | Hcase]; [| contradiction].
  destruct (proj1 (Nat.eq_mul_1 R C) Hone) as [HR HC]. subst R C.
  rewrite np_sum_few by (rewrite length_map; exact Hfew).
  unfold sum_in_order. symmetry. apply (fold_madd_single fzero Hms).
Qed.

Lemma has_shape_sum_axis0 (R C : nat) (ms : list (matrix F)) :
  Forall (has_shape R C) ms -> has_shape R C (sum_axis0 R C ms).
Proof.
  intros Hms. unfold sum_axis0.
  destruct (Nat.eqb_spec (R * C) 1) as [Hone | Hne].
  - destruct (proj1 (Nat.eq_mul_1 R C) Hone) as [HR HC]. subst R C.
    split; [reflexivity | repeat constructor].
  - apply has_shape_fold; [exact Hms | apply has_shape_zeros].
Qed.

Lemma entry_fold_madd (R C : nat) (ms : list (matrix F)) (r c : nat) :
  Forall (has_shape R C) ms -> r < R -> c < C ->
  entry (fold_left madd ms (zeros R C)) r c = sum_in_order (map (fun m => entry m r c) ms).
Proof.
  intros Hms Hr Hc.
  destruct (sum_axis0_fold Hms (has_shape_zeros R C) Hr Hc) as [_ Hentry].
  rewrite Hentry, entry_zeros. reflexivity.
Qed.

End ArrayFacts.

(** ** [average] on an ensemble of one shape *)

Section AverageFacts.

Context {F : Type} {N : Number F}.

Lemma load_source_weight (e : env) (file : string) (w : F) (s : source F) :
  load_source e (file, w) = Ok s -> src_weight s = w.
Proof.
  unfold load_source. intros H.
  apply bind_ok_inv in H. destruct H as (lines & _ & H).
  apply bind_ok_inv in H. destruct H as (parsed & _ & H).
  apply bind_ok_inv in H. destruct H as (probs & _ & H).
  injection H as <-. reflexivity.
Qed.

Lemma loaded_weights (e : env) (W : list (string * F)) (srcs : list (source F)) :
  loaded e W srcs -> map src_weight srcs = map snd W.
Proof.
  unfold loaded. intros H. apply mapM_ok_Forall2 in H.
  induction H as [| [file w] s W srcs Hs _ IH]; simpl.
  - reflexivity.
  - rewrite (load_source_weight _ _ _ Hs), IH. reflexivity.
Qed.

Lemma shape_regular (R C : nat) (m : matrix F) :
  0 < R -> has_shape R C m -> shape m = [R; C].
Proof.
  intros HR [Hlen Hrows]. destruct m as [| row m]; simpl in *; [lia |].
  inversion Hrows; subst. reflexivity.
Qed.

Lemma same_shape_regular (R C : nat) (ms : list (matrix F)) :
  0 < R -> Forall (has_shape R C) ms -> same_shape ms = true.
Proof.
  intros HR Hms. destruct ms as [| m ms]; [reflexivity |]. simpl.
  inversion Hms as [| ? ? Hm Hrest]; subst.
  apply forallb_forall. intros m' Hin.
  rewrite Forall_forall in Hrest.
  rewrite (shape_regular HR (Hrest _ Hin)), (shape_regular HR Hm).
  destruct (list_eq_dec Nat.eq_dec [R; C] [R; C]) as [_ | Hne]; [reflexivity | contradiction].
Qed.

Lemma combine_sources (srcs : list (source F)) :
  map (fun wm => scale (fst wm) (snd wm))
      (combine (map src_weight srcs) (map src_probs srcs)) =
  map (fun s => scale (src_weight s) (src_probs s)) srcs.
Proof.
  induction srcs as [| s srcs IH]; simpl; [reflexivity | rewrite IH; reflexivity].
Qed.

Lemma weighted_mean_regular (R C : nat) (srcs : list (source F)) :
  regular R C srcs ->
  weighted_mean (map src_probs srcs) (map src_weight srcs) = combined R C srcs.
Proof.
  intros (Hne & HR & Hshape). unfold weighted_mean, combined.
  destruct srcs as [| s srcs]; [contradiction |]. simpl map at 1.
  inversion Hshape as [| ? ? Hs _]; subst.
  destruct Hs as [Hlen Hrows].
  destruct (src_probs s) as [| row m] eqn:Hm; [simpl in Hlen; lia |].
  inversion Hrows; subst.
  rewrite <- Hm, <- (combine_sources (s :: srcs)). simpl.
  rewrite Hm. reflexivity.
Qed.

(** The result of [average] on an ensemble of one shape, written out. *)
Lemma average_regular (e : env) (W : list (string * F)) (srcs : list (source F)) (R C : nat) :
  loaded e W srcs -> regular R C srcs ->
  average e W = Ok {| sub_names := last (map src_names srcs) [];
                      sub_probs := combined R C srcs;
                      sub_path := join (SUBMISSIONS_DIR e) averaged_file |}.
Proof.
  intros Hload Hreg. unfold average. rewrite Hload. simpl.
  unfold np_array3. destruct Hreg as (Hne & HR & Hshape).
  rewrite (same_shape_regular (R := R) (C := C)); [| exact HR |].
  - simpl. rewrite (weighted_mean_regular (R := R) (C := C)); [reflexivity |].
    split; [exact Hne | split; [exact HR | exact Hshape]].
  - apply Forall_map. exact Hshape.
Qed.

Lemma scaled_shape (R C : nat) (srcs : list (source F)) :
  Forall (fun s => has_shape R C (src_probs s)) srcs ->
  Forall (has_shape R C) (map (fun s => scale (src_weight s) (src_probs s)) srcs).
Proof.
  intros Hshape. apply Forall_map. eapply Forall_impl; [| exact Hshape].
  intros s Hs. apply has_shape_scale. exact Hs.
Qed.

Lemma scaled_entries (R C : nat) (srcs : list (source F)) (r c : nat) :
  Forall (fun s => has_shape R C (src_probs s)) srcs -> r < R -> c < C ->
  map (fun m => entry m r c) (map (fun s => scale (src_weight s) (src_probs s)) srcs) =
  map (fun s => fmul (entry (src_probs s) r c) (src_weight s)) srcs.
Proof.
  intros Hshape Hr Hc. rewrite map_map.
  apply map_ext_in. intros s Hin. rewrite Forall_forall in Hshape. unfold scale.
  apply (entry_map (fun p => fmul p (src_weight s)) (Hshape s Hin) Hr Hc).
Qed.

Lemma has_shape_combined (R C : nat) (srcs : list (source F)) :
  Forall (fun s => has_shape R C (src_probs s)) srcs -> has_shape R C (combined R C srcs).
Proof.
  intros Hshape. unfold combined. apply has_shape_map, has_shape_sum_axis0, scaled_shape.
  exact Hshape.
Qed.

(** The entries of the weighted mean when the files are added one after the
    other: the products in a loop over the files, the weights by [np.sum]. *)
Lemma entry_combined (R C : nat) (srcs : list (source F)) (r c : nat) :
  length srcs < 8 \/ R * C <> 1 ->
  Forall (fun s => has_shape R C (src_probs s)) srcs -> r < R -> c < C ->
  entry (combined R C srcs) r c =
  fdiv (sum_in_order (map (fun s => fmul (entry (src_probs s) r c) (src_weight s)) srcs))
       (np_sum (map src_weight srcs)).
Proof.
  intros Hcase Hshape Hr Hc. unfold combined.
  pose proof (scaled_shape Hshape) as Hscaled.
  rewrite (entry_map _ (has_shape_sum_axis0 Hscaled) Hr Hc).
  rewrite sum_axis0_in_order; [| rewrite length_map; exact Hcase | exact Hscaled].
  rewrite (entry_fold_madd Hscaled Hr Hc), (scaled_entries Hshape Hr Hc). reflexivity.
Qed.

End AverageFacts.

Section ExactFacts.

Context {F : Type} {N : Number F} {E : Exact F}.

Add Field exact_arith : exact_field.

Lemma fold_fadd_in_order (xs : list F) (a : F) :
  fold_left fadd xs a = fadd a (sum_in_order xs).
Proof.
  unfold sum_in_order. revert a. induction xs as [| x xs IH]; intros a; simpl.
  - ring.
  - rewrite (IH (fadd a x)), (IH (fadd fzero x)). ring.
Qed.

Lemma sum_in_order_cons (x : F) (xs : list F) :
  sum_in_order (x :: xs) = fadd x (sum_in_order xs).
Proof.
  unfold sum_in_order at 1. simpl. rewrite fold_fadd_in_order. ring.
Qed.

Lemma sum_in_order_app (xs ys : list F) :
  sum_in_order (xs ++ ys) = fadd (sum_in_order xs) (sum_in_order ys).
Proof.
  induction xs as [| x xs IH]; simpl.
  - unfold sum_in_order at 2. simpl. ring.
  - rewrite !sum_in_order_cons, IH. ring.
Qed.

(** In exact arithmetic the eight accumulators hold the same total as a loop. *)
Lemma add_blocks_exact (n : nat) (xs : list F) (r : lanes) :
  length xs <= n ->
  fadd (add_lanes (fst (add_blocks r xs))) (sum_in_order (snd (add_blocks r xs))) =
  fadd (add_lanes r) (sum_in_order xs).
Proof.
  revert xs r. induction n as [| n IH]; intros xs r Hlen.
  - destruct xs; [reflexivity | simpl in Hlen; lia].
  - destruct xs as [| a0 [| a1 [| a2 [| a3 [| a4 [| a5 [| a6 [| a7 rest]]]]]]]];
      try reflexivity.
    destruct r as [[[[[[[r0 r1] r2] r3] r4] r5] r6] r7]. cbn [add_blocks].
    rewrite IH by (simpl in Hlen; lia).
    rewrite !sum_in_order_cons. unfold add_lanes. ring.
Qed.

Lemma block_sum_exact (xs : list F) : block_sum xs = sum_in_order xs.
Proof.
  destruct xs as [| a0 [| a1 [| a2 [| a3 [| a4 [| a5 [| a6 [| a7 rest]]]]]]]];
    try reflexivity.
  unfold block_sum.
  pose proof (@add_blocks_exact (length rest) rest (a0, a1, a2, a3, a4, a5, a6, a7)
                (Nat.le_refl _)) as H.
  destruct (add_blocks (a0, a1, a2, a3, a4, a5, a6, a7) rest) as [r left_over].
  cbn [fst snd] in H. rewrite fold_fadd_in_order, H, !sum_in_order_cons.
  unfold add_lanes. ring.
Qed.

Lemma pairwise_sum_exact (fuel : nat) (xs : list F) :
  pairwise_sum fuel xs = sum_in_order xs.
Proof.
  revert xs. induction fuel as [| fuel IH]; intros xs; cbn [pairwise_sum].
  - apply block_sum_exact.
  - destruct (length xs <=? 128); [apply block_sum_exact |].
    rewrite !IH, <- sum_in_order_app, firstn_skipn. reflexivity.
Qed.

(** In exact arithmetic [np.sum] is the sum, in whatever order it adds. *)
Lemma np_sum_exact (xs : list F) : np_sum xs = sum_in_order xs.
Proof.
  unfold np_sum. destruct (length xs <? 8); [reflexivity |].
  rewrite pairwise_sum_exact. ring.
Qed.

Lemma np_sum_nil : np_sum (@nil F) = fzero.
Proof. reflexivity. Qed.

Lemma fold_fadd_acc (xs : list F) (a : F) :
  fold_left fadd xs a = fadd a (np_sum xs).
Proof. rewrite np_sum_exact. apply fold_fadd_in_order. Qed.

Lemma np_sum_cons (x : F) (xs : list F) : np_sum (x :: xs) = fadd x (np_sum xs).
Proof. rewrite !np_sum_exact. apply sum_in_order_cons. Qed.

Lemma sum_axis0_exact (R C : nat) (ms : list (matrix F)) :
  Forall (has_shape R C) ms ->
  sum_axis0 R C ms = fold_left madd ms (zeros R C).
Proof.
  intros Hms. unfold sum_axis0.
  destruct (Nat.eqb_spec (R * C) 1) as [Hone | Hne]; [| reflexivity].
  destruct (proj1 (Nat.eq_mul_1 R C) Hone) as [HR HC]. subst R C.
  rewrite np_sum_exact. unfold sum_in_order. symmetry. apply (fold_madd_single fzero Hms).
Qed.

Lemma entry_combined_exact (R C : nat) (srcs : list (source F)) (r c : nat) :
  Forall (fun s => has_shape R C (src_probs s)) srcs -> r < R -> c < C ->
  entry (combined R C srcs) r c =
  fdiv (np_sum (map (fun s => fmul (entry (src_probs s) r c) (src_weight s)) srcs))
       (np_sum (map src_weight srcs)).
Proof.
  intros Hshape Hr Hc. unfold combined.
  pose proof (scaled_shape Hshape) as Hscaled.
  rewrite (entry_map _ (has_shape_sum_axis0 Hscaled) Hr Hc).
  rewrite (sum_axis0_exact Hscaled).
  rewrite (entry_fold_madd Hscaled Hr Hc), (scaled_entries Hshape Hr Hc).
  rewrite <- np_sum_exact. reflexivity.
Qed.

Lemma div_mul_cancel (p w : F) :
  w <> fzero -> fdiv (fadd fzero (fmul p w)) (fadd fzero w) = p.
Proof. intros Hw. field. exact Hw. Qed.


Lemma np_sum_scale (row : list F) (w : F) :
  np_sum (map (fun p => fmul p w) row) = fmul (np_sum row) w.
Proof.
  induction row as [| x row IH]; simpl.
  - rewrite !np_sum_nil. ring.
  - rewrite !np_sum_cons, IH. ring.
Qed.







Lemma zeros_madd (R C : nat) (m : matrix F) :
  has_shape R C m -> madd (zeros R C) m = map (map (fun p => fadd fzero p)) m.
Proof.
  intros [Hlen Hrows]. unfold madd, zeros. subst R.
  induction Hrows as [| row m Hrow _ IH]; simpl; [reflexivity |].
  rewrite IH. f_equal. subst C. clear.
  induction row as [| x row IH]; simpl; [reflexivity | rewrite IH; reflexivity].
Qed.

End ExactFacts.

(** The entries of the weighted mean of an ensemble of one shape, spelled
    out: for fewer than eight files, where every sum is a loop over the files;
    for files of more than one entry, where the weights are added by [np.sum]
    and the products by a loop; and in exact arithmetic, where the order of
    the additions does not matter. *)
Lemma combined_entries (F : Type) (N : Number F) (R C : nat) (srcs : list (source F))
    (r c : nat) :
  Forall (fun s => has_shape R C (src_probs s)) srcs -> r < R -> c < C ->
  (length srcs < 8 ->
   entry (combined R C srcs) r c =
   fdiv (sum_in_order (map (fun s => fmul (entry (src_probs s) r c) (src_weight s)) srcs))
        (sum_in_order (map src_weight srcs))) /\
  (R * C <> 1 ->
   entry (combined R C srcs) r c =
   fdiv (sum_in_order (map (fun s => fmul (entry (src_probs s) r c) (src_weight s)) srcs))
        (np_sum (map src_weight srcs))) /\
  (forall E : Exact F,
   entry (combined R C srcs) r c =
   fdiv (sum_in_order (map (fun s => fmul (entry (src_probs s) r c) (src_weight s)) srcs))
        (sum_in_order (map src_weight srcs))).
Proof.
  intros Hshape Hr Hc. split; [| split].
  - intros Hfew. rewrite (entry_combined (or_introl Hfew) Hshape Hr Hc).
    rewrite np_sum_few by (rewrite length_map; exact Hfew). reflexivity.
  - intros Hwide. apply (entry_combined (or_intror Hwide) Hshape Hr Hc).
  - intros E. rewrite (entry_combined_exact Hshape Hr Hc), !np_sum_exact. reflexivity.
Qed.

Lemma loaded_length (F : Type) (N : Number F) (e : env) (W : list (string * F))
    (srcs : list (source F)) :
  loaded e W srcs -> length srcs = length W.
Proof.
  intros Hload. pose proof (loaded_weights Hload) as Hw.
  apply (f_equal (@length F)) in Hw. rewrite !length_map in Hw. exact Hw.
Qed.

(** C2. On an ensemble of one shape (the loop has read the files, at least one
    file, at least one line per file, all files with [R] lines of [C]
    probabilities), [average] returns a matrix whose entry at row [r] and
    column [c] is the sum over the files of [prob_i[r][c] * weight_i], divided
    by the sum of the weights, the weights being those of the table. In exact
    arithmetic this is the quotient of the two sums. On doubles the sums are
    rounded in the order in which numpy adds: for fewer than eight files, as
    in the table of the source, both sums are loops over the files in the
    order of the table; for eight files or more the weights are added by
    [np.sum], in pairs, and the products in a loop when a file holds more
    than one entry. *)
Theorem average_entry_is_weighted_mean
    (F : Type) (N : Number F) (e : env) (W : list (string * F)) (srcs : list (source F))
    (R C r c : nat) :
  loaded e W srcs -> regular R C srcs -> r < R -> c < C ->
  exists s : submission F,
    average e W = Ok s /\
    map src_weight srcs = map snd W /\
    (length W < 8 ->
     entry (sub_probs s) r c =
     fdiv (sum_in_order (map (fun src => fmul (entry (src_probs src) r c) (src_weight src)) srcs))
          (sum_in_order (map snd W))) /\
    (R * C <> 1 ->
     entry (sub_probs s) r c =
     fdiv (sum_in_order (map (fun src => fmul (entry (src_probs src) r c) (src_weight src)) srcs))
          (np_sum (map snd W))) /\
    (forall E : Exact F,
     entry (sub_probs s) r c =
     fdiv (sum_in_order (map (fun src => fmul (entry (src_probs src) r c) (src_weight src)) srcs))
          (sum_in_order (map snd W))).
Proof.
  intros Hload Hreg Hr Hc. eexists. split; [apply (average_regular Hload Hreg) |].
  pose proof (loaded_weights Hload) as Hw. split; [exact Hw |]. cbn [sub_probs].
  rewrite <- Hw, <- (loaded_length Hload).
  apply combined_entries; [apply Hreg | exact Hr | exact Hc].
Qed.

Section OutcomeFacts.

Context {F : Type} {N : Number F}.

Lemma same_outcome_bind (A A' B B' : Type) (R : A -> A' -> Prop) (R' : B -> B' -> Prop)
    (c : result A) (c' : result A') (k : A -> result B) (k' : A' -> result B') :
  same_outcome R c c' ->
  (forall a a', R a a' -> same_outcome R' (k a) (k' a')) ->
  same_outcome R' (bind c k) (bind c' k').
Proof.
  destruct c as [a | x], c' as [a' | x']; simpl; intros H Hk;
    [apply Hk; exact H | contradiction | contradiction | exact H].
Qed.

Lemma same_outcome_mapM (A A' B B' : Type) (R : B -> B' -> Prop)
    (f : A -> result B) (g : A' -> result B') (xs : list A) (ys : list A') :
  Forall2 (fun x y => same_outcome R (f x) (g y)) xs ys ->
  same_outcome (Forall2 R) (mapM f xs) (mapM g ys).
Proof.
  induction 1 as [| x y xs ys Hxy _ IH]; simpl.
  - constructor.
  - eapply same_outcome_bind; [exact Hxy |]. intros b b' Hb.
    eapply same_outcome_bind; [exact IH |]. intros bs bs' Hbs.
    simpl. constructor; assumption.
Qed.

Lemma Forall2_map_eq (A A' B : Type) (f : A -> B) (g : A' -> B) (xs : list A) (ys : list A') :
  Forall2 (fun x y => f x = g y) xs ys -> map f xs = map g ys.
Proof.
  induction 1 as [| x y xs ys Hxy _ IH]; simpl; [reflexivity | rewrite Hxy, IH; reflexivity].
Qed.

Lemma Forall2_diag (A : Type) (P : A -> A -> Prop) (xs : list A) :
  Forall (fun x => P x x) xs -> Forall2 P xs xs.
Proof. induction 1; constructor; assumption. Qed.

Lemma parse_line_same_probs (l l' : string) :
  same_probs_line l l' ->
  same_outcome (fun a b : string * list F => snd a = snd b) (parse_line l) (parse_line l').
Proof.
  unfold same_probs_line, parse_line.
  destruct (split_fields "," (rstrip l)) as [name fields].
  destruct (split_fields "," (rstrip l')) as [name' fields'].
  simpl. intros <-. destruct (mapM to_float fields); reflexivity.
Qed.

Lemma load_source_same_probs (e e' : env) (entry : string * F) :
  same_probs_env e e' ->
  same_outcome (fun s s' : source F =>
                  src_weight s = src_weight s' /\ src_probs s = src_probs s')
               (load_source e entry) (load_source e' entry).
Proof.
  intros [Hdir Hread]. destruct entry as [file w]. unfold load_source.
  rewrite <- Hdir.
  eapply same_outcome_bind; [apply Hread |]. intros ls ls' Hls. simpl in Hls.
  eapply same_outcome_bind.
  - apply same_outcome_mapM. eapply Forall2_impl; [| exact Hls].
    intros l l' Hl. apply parse_line_same_probs. exact Hl.
  - intros parsed parsed' Hparsed. apply Forall2_map_eq in Hparsed. rewrite Hparsed.
    destruct (np_array2 (map snd parsed')); simpl; [split |]; reflexivity.
Qed.

Lemma load_source_same_file (e : env) (file : string) (w w' : F) :
  same_outcome (fun s s' : source F =>
                  src_names s = src_names s' /\ src_probs s = src_probs s')
               (load_source e (file, w)) (load_source e (file, w')).
Proof.
  unfold load_source.
  destruct (read_lines e (join (SUBMISSIONS_DIR e) file)) as [lines | x]; simpl;
    [| reflexivity].
  destruct (mapM parse_line (tl lines)) as [parsed | x]; simpl; [| reflexivity].
  destruct (np_array2 (map snd parsed)); simpl; [split |]; reflexivity.
Qed.

End OutcomeFacts.

(** C1 (as amended). [average] never compares item keys. Take two file systems
    whose submission files hold the same probabilities line by line and differ
    at most in their headers and item keys, for instance one where all files
    list the same keys and one where they do not. On both [average] ends
    alike: with the same exception, or with the same matrix for the same output
    path. The names it hands to [create_submission_file] are those of the last
    file of the table, whatever the other files' keys are. *)
Theorem average_ignores_item_keys
    (F : Type) (N : Number F) (e e' : env) (W : list (string * F)) :
  same_probs_env e e' ->
  same_outcome (fun s s' : submission F =>
                  sub_probs s = sub_probs s' /\ sub_path s = sub_path s')
               (average e W) (average e' W) /\
  (forall s srcs, average e W = Ok s -> loaded e W srcs ->
                  sub_names s = last (map src_names srcs) []).
Proof.
  intros Henv. split.
  - unfold average.
    apply (@same_outcome_bind _ _ _ _
             (Forall2 (fun s s' : source F =>
                         src_weight s = src_weight s' /\ src_probs s = src_probs s'))).
    + apply same_outcome_mapM. apply Forall2_diag, Forall_forall.
      intros x _. apply load_source_same_probs. exact Henv.
    + intros srcs srcs' Hsrcs. simpl in Hsrcs.
      assert (Hw : map src_weight srcs = map src_weight srcs').
      { apply Forall2_map_eq. eapply Forall2_impl; [| exact Hsrcs]. intros ? ? H. apply H. }
      assert (Hp : map src_probs srcs = map src_probs srcs').
      { apply Forall2_map_eq. eapply Forall2_impl; [| exact Hsrcs]. intros ? ? H. apply H. }
      rewrite Hw, Hp. destruct Henv as [Hdir _]. rewrite Hdir.
      destruct (np_array3 (map src_probs srcs')); simpl; [split |]; reflexivity.
  - intros s srcs Havg Hload. unfold average in Havg. rewrite Hload in Havg. simpl in Havg.
    destruct (np_array3 (map src_probs srcs)); simpl in Havg; [| discriminate].
    injection Havg as <-. reflexivity.
Qed.

Lemma average_ignores_item_keys_witness :
  same_outcome (fun s s' : submission float =>
                  sub_probs s = sub_probs s' /\ sub_path s = sub_path s')
               (average demo_env [("a.csv", 0.3%float); ("b.csv", 0.7%float)])
               (average demo_env_other_keys [("a.csv", 0.3%float); ("b.csv", 0.7%float)]) /\
  (forall s srcs,
      average demo_env [("a.csv", 0.3%float); ("b.csv", 0.7%float)] = Ok s ->
      loaded demo_env [("a.csv", 0.3%float); ("b.csv", 0.7%float)] srcs ->
      sub_names s = last (map src_names srcs) []).
Proof.
  apply (@average_ignores_item_keys float binary64 demo_env demo_env_other_keys).
  split; [reflexivity |]. intros path. unfold demo_env, demo_env_other_keys, files. simpl.
  destruct (String.eqb path "subs/a.csv"); simpl.
  - repeat constructor.
  - destruct (String.eqb path "subs/b.csv"); simpl; [| reflexivity].
    repeat constructor.
Defined.

(** C1, counterexample. The second file lists other item keys than the first
    (they differ at both positions); [average] returns a combined matrix,
    labelled with the keys of the second file. *)
Lemma average_accepts_mismatched_keys :
  exists srcs : list (source float),
    loaded demo_env_other_keys [("a.csv", 0.3%float); ("b.csv", 0.7%float)] srcs /\
    map src_names srcs = [["1.jpg"; "2.jpg"]; ["9.jpg"; "7.jpg"]] /\
    ~ keys_agree srcs /\
    average demo_env_other_keys [("a.csv", 0.3%float); ("b.csv", 0.7%float)] =
    Ok {| sub_names := ["9.jpg"; "7.jpg"];
          sub_probs := [[0.19899999999999998; 0.8009999999999999]; [0.85; 0.15]]%float;
          sub_path := "subs/xception_fine_tuned_averaged.csv" |}.
Proof.
  exists [ {| src_weight := 0.3%float; src_names := ["1.jpg"; "2.jpg"]; src_probs := matrix_a |};
           {| src_weight := 0.7%float; src_names := ["9.jpg"; "7.jpg"]; src_probs := matrix_b |} ].
  split; [vm_compute; reflexivity |]. split; [reflexivity |]. split.
  - intros Hagree.
    specialize (Hagree _ _ (or_introl eq_refl) (or_intror (or_introl eq_refl))).
    discriminate Hagree.
  - vm_compute. reflexivity.
Qed.

(** C2, instance: the two files of [demo_env] with the weights 0.3 and 0.7,
    row 0 and column 1, on doubles. *)
Lemma average_entry_is_weighted_mean_witness :
  exists s : submission float,
    average demo_env [("a.csv", 0.3%float); ("b.csv", 0.7%float)] = Ok s /\
    entry (sub_probs s) 0 1 =
    PrimFloat.div
      (PrimFloat.add (PrimFloat.add 0 (PrimFloat.mul 0.92 0.3)) (PrimFloat.mul 0.75 0.7))
      (PrimFloat.add (PrimFloat.add 0 0.3) 0.7) /\
    entry (sub_probs s) 0 1 = 0.8009999999999999%float.
Proof.
  destruct (@average_entry_is_weighted_mean float binary64 demo_env
              [("a.csv", 0.3%float); ("b.csv", 0.7%float)]
              [ {| src_weight := 0.3%float; src_names := ["1.jpg"; "2.jpg"];
                   src_probs := matrix_a |};
                {| src_weight := 0.7%float; src_names := ["1.jpg"; "2.jpg"];
                   src_probs := matrix_b |} ]
              2 2 0 1) as (s & Hs & _ & Hfew & _ & _).
  - vm_compute. reflexivity.
  - split; [discriminate | split; [lia |]].
    repeat constructor.
  - lia.
  - lia.
  - exists s. split; [exact Hs |]. rewrite Hfew by (simpl; lia).
    split; vm_compute; reflexivity.
Defined.

Section WeightFacts.

Context {F : Type} {N : Number F}.

Lemma same_files_Forall2 (W W' : list (string * F)) :
  map fst W = map fst W' -> Forall2 (fun x y => fst x = fst y) W W'.
Proof.
  revert W'. induction W as [| x W IH]; intros [| y W'] H; simpl in H;
    try discriminate; constructor.
  - injection H as H _. exact H.
  - apply IH. injection H as _ H. exact H.
Qed.

End WeightFacts.

(** C3 (as amended). [average] does not look at the sign or the sum of the
    weights. Whether it ends with an exception, and with which one, depends
    only on the files: two tables that name the same files in the same order,
    with any weights, end alike and write the same names to the same path.
    On an ensemble of one shape [average] returns a matrix for every table of
    weights, a negative weight or a zero sum included: its entries are the
    sums of [prob_i * weight_i] divided by the sum of the weights (in exact
    arithmetic; on doubles with the sums rounded in the order in which numpy
    adds, as for C2). *)
Theorem average_does_not_validate_weights
    (F : Type) (N : Number F) (e : env) (W W' : list (string * F)) :
  map fst W = map fst W' ->
  same_outcome (fun s s' : submission F =>
                  sub_names s = sub_names s' /\ sub_path s = sub_path s')
               (average e W) (average e W') /\
  (forall srcs R C, loaded e W srcs -> regular R C srcs ->
     exists s : submission F,
       average e W = Ok s /\
       forall r c, r < R -> c < C ->
         (length W < 8 ->
          entry (sub_probs s) r c =
          fdiv (sum_in_order
                  (map (fun src => fmul (entry (src_probs src) r c) (src_weight src)) srcs))
               (sum_in_order (map snd W))) /\
         (R * C <> 1 ->
          entry (sub_probs s) r c =
          fdiv (sum_in_order
                  (map (fun src => fmul (entry (src_probs src) r c) (src_weight src)) srcs))
               (np_sum (map snd W))) /\
         (forall E : Exact F,
          entry (sub_probs s) r c =
          fdiv (sum_in_order
                  (map (fun src => fmul (entry (src_probs src) r c) (src_weight src)) srcs))
               (sum_in_order (map snd W)))).
Proof.
  intros Hfiles. split.
  - unfold average.
    apply (@same_outcome_bind _ _ _ _
             (Forall2 (fun s s' : source F =>
                         src_names s = src_names s' /\ src_probs s = src_probs s'))).
    + apply same_outcome_mapM. apply same_files_Forall2 in Hfiles.
      eapply Forall2_impl; [| exact Hfiles].
      intros [file w] [file' w']. simpl. intros <-. apply load_source_same_file.
    + intros srcs srcs' Hsrcs. simpl in Hsrcs.
      assert (Hn : map src_names srcs = map src_names srcs').
      { apply Forall2_map_eq. eapply Forall2_impl; [| exact Hsrcs]. intros ? ? H. apply H. }
      assert (Hp : map src_probs srcs = map src_probs srcs').
      { apply Forall2_map_eq. eapply Forall2_impl; [| exact Hsrcs]. intros ? ? H. apply H. }
      rewrite Hn, Hp.
      destruct (np_array3 (map src_probs srcs')); simpl; [split |]; reflexivity.
  - intros srcs R C Hload Hreg. eexists. split; [apply (average_regular Hload Hreg) |].
    intros r c Hr Hc. cbn [sub_probs].
    rewrite <- (loaded_weights Hload), <- (loaded_length Hload).
    apply combined_entries; [apply Hreg | exact Hr | exact Hc].
Qed.

(** C3, instance: the same two files with the weights 0.3 and 0.7, and with
    the weights -1 and 0; with the weights -1 and 2 the entry of row 1 and
    column 0 is [(0.5 * -1 + 1 * 2) / (-1 + 2)]. *)
Lemma average_does_not_validate_weights_witness :
  same_outcome (fun s s' : submission float =>
                  sub_names s = sub_names s' /\ sub_path s = sub_path s')
               (average demo_env [("a.csv", 0.3%float); ("b.csv", 0.7%float)])
               (average demo_env [("a.csv", (-1)%float); ("b.csv", 0%float)]) /\
  (exists s : submission float,
     average demo_env [("a.csv", (-1)%float); ("b.csv", 2%float)] = Ok s /\
     entry (sub_probs s) 1 0 = 1.5%float).
Proof.
  split.
  - apply (@average_does_not_validate_weights float binary64 demo_env
             [("a.csv", 0.3%float); ("b.csv", 0.7%float)]
             [("a.csv", (-1)%float); ("b.csv", 0%float)]).
    reflexivity.
  - destruct (proj2 (@average_does_not_validate_weights float binary64 demo_env
                       [("a.csv", (-1)%float); ("b.csv", 2%float)]
                       [("a.csv", (-1)%float); ("b.csv", 2%float)] eq_refl)
                [ {| src_weight := (-1)%float; src_names := ["1.jpg"; "2.jpg"];
                     src_probs := matrix_a |};
                  {| src_weight := 2%float; src_names := ["1.jpg"; "2.jpg"];
                     src_probs := matrix_b |} ] 2 2) as (s & Hs & Hentries).
    + vm_compute. reflexivity.
    + split; [discriminate | split; [lia |]]. repeat constructor.
    + exists s. split; [exact Hs |].
      destruct (Hentries 1 0) as (Hfew & _ & _); [lia | lia |].
      rewrite Hfew by (simpl; lia). vm_compute. reflexivity.
Defined.

(** C3, counterexample. With a negative weight, and with a table whose weights
    are all zero, [average] raises nothing and hands a matrix to
    [create_submission_file]: one with an entry above one and an entry below
    zero, and one of nan entries (0/0 on doubles). *)
Lemma average_accepts_invalid_weights :
  average demo_env [("a.csv", (-1)%float); ("b.csv", 2%float)] =
  Ok {| sub_names := ["1.jpg"; "2.jpg"];
        sub_probs := [[0.42; 0.58]; [1.5; -0.5]]%float;
        sub_path := "subs/xception_fine_tuned_averaged.csv" |} /\
  average demo_env [("a.csv", 0%float); ("b.csv", 0%float)] =
  Ok {| sub_names := ["1.jpg"; "2.jpg"];
        sub_probs := [[nan; nan]; [nan; nan]];
        sub_path := "subs/xception_fine_tuned_averaged.csv" |}.
Proof. split; vm_compute; reflexivity. Qed.


Lemma Qc_neq (a b : Qc) : Qeq_bool a b = false -> a <> b.
Proof.
  intros H Hab. subst b. rewrite (proj2 (Qeq_bool_iff a a)) in H; [discriminate | reflexivity].
Qed.



(** C6 (as amended). A table of one file with weight [w], the file holding at
    least one line: [average] returns the file's names and, for every entry
    [p] of its matrix, [(0 + p * w) / (0 + w)]. In exact arithmetic and for
    any weight other than zero that is the file's matrix, unchanged. *)
Theorem average_single_source
    (F : Type) (N : Number F) (e : env) (file : string) (w : F) (src : source F)
    (R C : nat) :
  loaded e [(file, w)] [src] -> regular R C [src] ->
  average e [(file, w)] =
  Ok {| sub_names := src_names src;
        sub_probs := map (map (fun p => fdiv (fadd fzero (fmul p w)) (fadd fzero w)))
                         (src_probs src);
        sub_path := join (SUBMISSIONS_DIR e) averaged_file |} /\
  (forall E : Exact F, w <> fzero ->
     average e [(file, w)] =
     Ok {| sub_names := src_names src;
           sub_probs := src_probs src;
           sub_path := join (SUBMISSIONS_DIR e) averaged_file |}).
Proof.
  intros Hload Hreg.
  assert (Hw : src_weight src = w).
  { pose proof (loaded_weights Hload) as H. simpl in H. injection H as H. exact H. }
  assert (Hshape : has_shape R C (src_probs src)).
  { destruct Hreg as (_ & _ & H). inversion H; subst. assumption. }
  assert (Havg : average e [(file, w)] =
    Ok {| sub_names := src_names src;
          sub_probs := map (map (fun p => fdiv (fadd fzero (fmul p w)) (fadd fzero w)))
                           (src_probs src);
          sub_path := join (SUBMISSIONS_DIR e) averaged_file |}).
  { rewrite (average_regular Hload Hreg). simpl. do 2 f_equal.
    unfold combined.
    rewrite sum_axis0_in_order;
      [| left; simpl; lia
       | constructor; [apply has_shape_scale; exact Hshape | constructor]].
    simpl. rewrite Hw.
    rewrite (zeros_madd (has_shape_scale w Hshape)). unfold scale.
    rewrite !map_map. apply map_ext. intros row. rewrite !map_map. reflexivity. }
  split; [exact Havg |]. intros E Hne. rewrite Havg. do 2 f_equal.
  rewrite <- (map_id (src_probs src)) at 2. apply map_ext. intros row.
  rewrite <- (map_id row) at 2. apply map_ext. intros p.
  apply div_mul_cancel. exact Hne.
Qed.

Lemma average_single_source_witness :
  exists m : matrix Qc,
    average demo_env [("a.csv", Q2Qc (3 # 10))] =
    Ok {| sub_names := ["1.jpg"; "2.jpg"]; sub_probs := m;
          sub_path := "subs/xception_fine_tuned_averaged.csv" |} /\
    mapM (load_source demo_env) [("a.csv", Q2Qc (3 # 10))] =
    Ok [ {| src_weight := Q2Qc (3 # 10); src_names := ["1.jpg"; "2.jpg"]; src_probs := m |} ].
Proof.
  exists (match float_of_string "0.08", float_of_string "0.92", float_of_string "0.5" with
          | Some a, Some b, Some c => [[a; b]; [c; c]]
          | _, _, _ => []
          end).
  assert (Hload : loaded demo_env [("a.csv", Q2Qc (3 # 10))]
            [ {| src_weight := Q2Qc (3 # 10); src_names := ["1.jpg"; "2.jpg"];
                 src_probs := match float_of_string "0.08", float_of_string "0.92",
                                    float_of_string "0.5" with
                              | Some a, Some b, Some c => [[a; b]; [c; c]]
                              | _, _, _ => []
                              end |} ]).
  { vm_compute. reflexivity. }
  split; [| exact Hload].
  refine (proj2 (@average_single_source Qc rationals demo_env "a.csv" (Q2Qc (3 # 10)) _ 2 2
                   Hload _) rationals_exact _).
  - split; [discriminate | split; [lia |]]. repeat constructor.
  - apply Qc_neq. reflexivity.
Defined.

(** C6, counterexample. Doubles, the first file alone, its rows summing to
    one. With the smallest positive double as weight every product
    [p * w] is rounded to zero or to the weight itself, and the matrix comes
    back as [[0, 1], [0, 0]]: the entry 0.5 has become 0. With the weight 0.3
    of the source's own table the entry 0.92 comes back as the next double
    above it. *)
Lemma binary64_single_source_is_changed :
  rows_sum_to_one matrix_a /\
  PrimFloat.ltb 0 0x1p-1074 = true /\
  loaded demo_env [("a.csv", 0x1p-1074%float)]
    [ {| src_weight := 0x1p-1074%float; src_names := ["1.jpg"; "2.jpg"];
         src_probs := matrix_a |} ] /\
  matrix_a = [[0.08; 0.92]; [0.5; 0.5]]%float /\
  average demo_env [("a.csv", 0x1p-1074%float)] =
  Ok {| sub_names := ["1.jpg"; "2.jpg"];
        sub_probs := [[0; 1]; [0; 0]]%float;
        sub_path := "subs/xception_fine_tuned_averaged.csv" |} /\
  average demo_env [("a.csv", 0.3%float)] =
  Ok {| sub_names := ["1.jpg"; "2.jpg"];
        sub_probs := [[0.08; 0.9200000000000002]; [0.5; 0.5]]%float;
        sub_path := "subs/xception_fine_tuned_averaged.csv" |} /\
  PrimFloat.ltb 0.92 0.9200000000000002 = true.
Proof.
  split; [repeat constructor |]. split; [reflexivity |].
  split; [vm_compute; reflexivity |]. split; [reflexivity |].
  split; [vm_compute; reflexivity |]. split; [vm_compute; reflexivity | reflexivity].
Qed.

(** ** [train] of [stacking.py] *)

Import Stacking.

Open Scope list_scope.

Lemma then_lift (E A B : Type) (c : result A) (k : A -> run E B) :
  then_ (lift c) k = match c with
                     | Ok a => k a
                     | Err x => ([], Err x)
                     end.
Proof.
  unfold then_, lift. destruct c as [a | x]; [| reflexivity].
  destruct (k a) as [evs r]. reflexivity.
Qed.

Lemma then_emit (E B : Type) (ev : E) (k : unit -> run E B) :
  then_ (emit ev) k = (ev :: fst (k tt), snd (k tt)).
Proof.
  unfold then_, emit. destruct (k tt) as [evs r]. reflexivity.
Qed.

Section StackingFacts.

Variable w : world.

Lemma map_nth_seq (A : Type) (xs : list A) (d : A) :
  map (fun r => nth r xs d) (seq 0 (length xs)) = xs.
Proof.
  induction xs as [| x xs IH]; simpl; [reflexivity |].
  f_equal. rewrite <- seq_shift, map_map. exact IH.
Qed.

Lemma map_combine_seq (xs ys : list (list (cell w))) :
  length xs = length ys ->
  map (fun rows => fst rows ++ snd rows) (combine xs ys) =
  map (fun r => nth r xs [] ++ nth r ys []) (seq 0 (length xs)).
Proof.
  revert ys. induction xs as [| x xs IH]; intros [| y ys] Hlen; simpl in *; try lia;
    [reflexivity |].
  f_equal. rewrite <- seq_shift, map_map. apply IH. lia.
Qed.

(** [a] with the blocks [blocks] stacked to its right, one after the other. *)
Let extend (a : ndarray (cell w)) (blocks : list (ndarray (cell w))) : ndarray (cell w) :=
  {| ncols := ncols a + list_sum (layout blocks);
     cells := map (fun r => nth r (cells a) [] ++ concat_row blocks r) (seq 0 (nrows a)) |}.

Lemma hstack_spec (a b : ndarray (cell w)) :
  hstack a b = if nrows a =? nrows b then Ok (extend a [b]) else Err ValueError.
Proof.
  unfold hstack, extend. destruct (nrows a =? nrows b) eqn:Hrows; [| reflexivity].
  apply Nat.eqb_eq in Hrows. unfold nrows in *. simpl. f_equal. f_equal.
  - lia.
  - rewrite map_combine_seq by exact Hrows. apply map_ext. intros r.
    unfold concat_row. simpl. rewrite app_nil_r. reflexivity.
Qed.

Lemma extend_nil (a : ndarray (cell w)) : extend a [] = a.
Proof.
  destruct a as [c rows]. unfold extend, nrows. simpl. f_equal.
  - lia.
  - rewrite <- (map_nth_seq rows []) at 2. apply map_ext. intros r.
    unfold concat_row. simpl. apply app_nil_r.
Qed.

Lemma nrows_extend (a : ndarray (cell w)) (blocks : list (ndarray (cell w))) : nrows (extend a blocks) = nrows a.
Proof. unfold extend, nrows. simpl. rewrite length_map, length_seq. reflexivity. Qed.

Lemma extend_cons (a b : ndarray (cell w)) (blocks : list (ndarray (cell w))) :
  extend (extend a [b]) blocks = extend a (b :: blocks).
Proof.
  unfold extend at 1 3. rewrite nrows_extend. simpl. f_equal.
  - lia.
  - apply map_ext_in. intros r Hr. apply in_seq in Hr.
    rewrite (nth_indep _ [] ((fun r => nth r (cells a) [] ++ concat_row [b] r) 0))
      by (rewrite length_map, length_seq; lia).
    rewrite (map_nth (fun r => nth r (cells a) [] ++ concat_row [b] r)).
    rewrite seq_nth by lia. unfold concat_row. simpl.
    rewrite app_nil_r, app_assoc. reflexivity.
Qed.

(** One pass of the loop in final-fit mode, as a case analysis. *)
Lemma stack_model_final (info : data_info) (a b : ndarray (cell w)) (model_name : string)
    (preprocess_func : preprocess) :
  stack_model w false info (a, Some b) (model_name, preprocess_func) =
  match _make_predictions w (join (MODELS_DIR w) model_name) preprocess_func info val with
  | Err x => Err x
  | Ok v =>
      match _make_predictions w (join (MODELS_DIR w) model_name) preprocess_func info te with
      | Err x => Err x
      | Ok t =>
          match hstack a v with
          | Err x => Err x
          | Ok a' =>
              match hstack b t with
              | Err x => Err x
              | Ok b' => Ok (a', Some b')
              end
          end
      end
  end.
Proof.
  unfold stack_model.
  destruct (_make_predictions w (join (MODELS_DIR w) model_name) preprocess_func info val)
    as [v | x]; [| reflexivity].
  destruct (_make_predictions w (join (MODELS_DIR w) model_name) preprocess_func info te)
    as [t | x]; [| reflexivity].
  simpl. destruct (hstack a v) as [a' | x]; [| reflexivity].
  simpl. destruct (hstack b t) as [b' | x]; reflexivity.
Qed.

(** The loop in final-fit mode, from any pair of arrays it has built so far:
    it ends without an exception exactly when every model predicts on both
    directories and every block has as many rows as the array it is stacked
    to, and then it has stacked the blocks in the order of the table. *)
Lemma stack_models_final (models : list (string * preprocess)) (info : data_info)
    (a b : ndarray (cell w)) (preds : features w) :
  foldM (stack_model w false info) models (a, Some b) = Ok preds <->
  exists vals tes : list (ndarray (cell w)),
    predictions_of w models info val vals /\
    predictions_of w models info te tes /\
    Forall (fun block => nrows block = nrows a) vals /\
    Forall (fun block => nrows block = nrows b) tes /\
    preds = (extend a vals, Some (extend b tes)).
Proof.
  revert a b. induction models as [| [model_name preprocess_func] models IH]; intros a b.
  - simpl. split.
    + intros H. injection H as <-. exists [], []. rewrite !extend_nil.
      repeat split; constructor.
    + intros (vals & tes & Hvals & Htes & _ & _ & ->).
      inversion Hvals; inversion Htes; subst. rewrite !extend_nil. reflexivity.
  - change (foldM (stack_model w false info) ((model_name, preprocess_func) :: models)
              (a, Some b))
      with (bind (stack_model w false info (a, Some b) (model_name, preprocess_func))
                 (foldM (stack_model w false info) models)).
    rewrite stack_model_final.
    destruct (_make_predictions w (join (MODELS_DIR w) model_name) preprocess_func info val)
      as [v | x] eqn:Hv.
    2: { split; [discriminate |]. intros (vals & tes & Hvals & _).
         inversion Hvals; subst. simpl in *. congruence. }
    destruct (_make_predictions w (join (MODELS_DIR w) model_name) preprocess_func info te)
      as [t | x] eqn:Ht.
    2: { split; [discriminate |]. intros (vals & tes & _ & Htes & _).
         inversion Htes; subst. simpl in *. congruence. }
    rewrite !hstack_spec.
    destruct (nrows a =? nrows v) eqn:Hra.
    2: { split; [discriminate |]. intros (vals & tes & Hvals & _ & Hrv & _).
         inversion Hvals; subst. inversion Hrv; subst. simpl in *.
         apply Nat.eqb_neq in Hra. congruence. }
    destruct (nrows b =? nrows t) eqn:Hrb.
    2: { split; [discriminate |]. intros (vals & tes & _ & Htes & _ & Hrt & _).
         inversion Htes; subst. inversion Hrt; subst. simpl in *.
         apply Nat.eqb_neq in Hrb. congruence. }
    apply Nat.eqb_eq in Hra, Hrb. simpl. rewrite IH. split.
    + intros (vals & tes & Hvals & Htes & Hrv & Hrt & ->).
      rewrite !nrows_extend in *. exists (v :: vals), (t :: tes).
      split; [constructor; [exact Hv | exact Hvals] |].
      split; [constructor; [exact Ht | exact Htes] |].
      split; [constructor; [symmetry; exact Hra | exact Hrv] |].
      split; [constructor; [symmetry; exact Hrb | exact Hrt] |].
      rewrite !extend_cons. reflexivity.
    + intros (vals & tes & Hvals & Htes & Hrv & Hrt & ->).
      inversion Hvals as [| ? v' ? vals' Hv' Hvals']; subst.
      inversion Htes as [| ? t' ? tes' Ht' Htes']; subst.
      inversion Hrv as [| ? ? _ Hrv']; inversion Hrt as [| ? ? _ Hrt']; subst.
      simpl in Hv', Ht'. assert (v' = v) by congruence. assert (t' = t) by congruence.
      subst v' t'. exists vals', tes'. rewrite !nrows_extend, !extend_cons.
      repeat split; assumption.
Qed.

Lemma extend_np_empty (n : nat) (blocks : list (ndarray (cell w))) :
  extend {| ncols := 0; cells := repeat [] n |} blocks = hstack_all n blocks.
Proof.
  unfold extend, hstack_all, nrows. simpl. rewrite repeat_length. f_equal.
  apply map_ext_in. intros r Hr. apply in_seq in Hr.
  rewrite nth_repeat_lt by lia. reflexivity.
Qed.

(** Lines 46 to 70 in final-fit mode. *)
Lemma stack_features_final (models : list (string * preprocess)) (info : data_info)
    (preds : features w) :
  stack_features w models false info = Ok preds <->
  exists vals tes : list (ndarray (cell w)),
    predictions_of w models info val vals /\
    predictions_of w models info te tes /\
    (0 <= num_val info)%Z /\ (0 <= num_te info)%Z /\
    Forall (fun block => nrows block = Z.to_nat (num_val info)) vals /\
    Forall (fun block => nrows block = Z.to_nat (num_te info)) tes /\
    preds = (hstack_all (Z.to_nat (num_val info)) vals,
             Some (hstack_all (Z.to_nat (num_te info)) tes)).
Proof.
  unfold stack_features, np_empty. split.
  - destruct (num_val info <? 0)%Z eqn:Hval; [discriminate |].
    destruct (num_te info <? 0)%Z eqn:Hte; [discriminate |]. simpl.
    intros H. apply stack_models_final in H.
    destruct H as (vals & tes & Hvals & Htes & Hrv & Hrt & ->).
    unfold nrows in Hrv, Hrt. simpl in Hrv, Hrt. rewrite repeat_length in Hrv, Hrt.
    exists vals, tes. rewrite !extend_np_empty.
    repeat split; try assumption; lia.
  - intros (vals & tes & Hvals & Htes & Hval & Hte & Hrv & Hrt & ->).
    destruct (Z.ltb_spec (num_val info) 0) as [Hneg | _]; [lia |].
    destruct (Z.ltb_spec (num_te info) 0) as [Hneg | _]; [lia |]. simpl.
    apply stack_models_final. exists vals, tes. rewrite !extend_np_empty.
    unfold nrows. simpl. rewrite !repeat_length. repeat split; assumption.
Qed.

End StackingFacts.

Lemma make_predictions_width (w : world) (width : model w -> nat) (path : string)
    (p : preprocess) (info : data_info) (v t : ndarray (cell w)) :
  (forall m g steps a, predict_generator w m g steps = Ok a -> ncols a = width m) ->
  _make_predictions w path p info val = Ok v ->
  _make_predictions w path p info te = Ok t ->
  ncols v = ncols t.
Proof.
  intros Hwidth Hv Ht. unfold _make_predictions in Hv, Ht.
  destruct (load_model w path) as [m | x]; [| discriminate]. simpl in Hv, Ht.
  apply bind_ok_inv in Hv. destruct Hv as (gv & _ & Hv).
  apply bind_ok_inv in Ht. destruct Ht as (gt & _ & Ht).
  rewrite (Hwidth _ _ _ _ Hv), (Hwidth _ _ _ _ Ht). reflexivity.
Qed.

Lemma predictions_same_layout (w : world) (width : model w -> nat)
    (models : list (string * preprocess)) (info : data_info)
    (vals tes : list (ndarray (cell w))) :
  (forall m g steps a, predict_generator w m g steps = Ok a -> ncols a = width m) ->
  predictions_of w models info val vals ->
  predictions_of w models info te tes ->
  layout vals = layout tes.
Proof.
  intros Hwidth Hvals. revert tes.
  induction Hvals as [| entry v models vals Hv _ IH]; intros tes Htes;
    inversion Htes as [| ? t ? tes' Ht Htes']; subst; [reflexivity |].
  unfold layout. simpl. f_equal.
  - apply (@make_predictions_width w width _ _ _ _ _ Hwidth Hv Ht).
  - apply (IH _ Htes').
Qed.

(** C7. In every run that builds both matrices (final-fit mode), the
    validation matrix and the test matrix are the horizontal concatenations
    of the predictions of the models, both in the order of the table: block
    [i] of either matrix comes from model [i]. A saved Keras model predicts
    as many columns on every directory (the width of its output layer); with
    that, the two column layouts are identical and the two matrices are
    equally wide. The two matrices are extended in the same pass of one loop,
    so no run can use the table in two orders, and nothing is left for a
    [ColumnOrderError] to report. *)
Theorem stack_features_same_model_order
    (w : world) (width : model w -> nat) (models : list (string * preprocess))
    (info : data_info) (preds : features w) :
  (forall m g steps a, predict_generator w m g steps = Ok a -> ncols a = width m) ->
  (stack_features w models false info = Ok preds <->
   exists vals tes : list (ndarray (cell w)),
     predictions_of w models info val vals /\
     predictions_of w models info te tes /\
     (0 <= num_val info)%Z /\ (0 <= num_te info)%Z /\
     Forall (fun block => nrows block = Z.to_nat (num_val info)) vals /\
     Forall (fun block => nrows block = Z.to_nat (num_te info)) tes /\
     layout vals = layout tes /\
     preds = (hstack_all (Z.to_nat (num_val info)) vals,
              Some (hstack_all (Z.to_nat (num_te info)) tes))) /\
  (stack_features w models false info = Ok preds ->
   exists preds_te, snd preds = Some preds_te /\ ncols (fst preds) = ncols preds_te).
Proof.
  intros Hwidth. split; [split |].
  - intros H. apply stack_features_final in H.
    destruct H as (vals & tes & Hvals & Htes & Hnv & Hnt & Hrv & Hrt & Hpreds).
    exists vals, tes. repeat (split; [assumption |]).
    split; [apply (@predictions_same_layout w width _ _ _ _ Hwidth Hvals Htes) | exact Hpreds].
  - intros (vals & tes & Hvals & Htes & Hnv & Hnt & Hrv & Hrt & _ & Hpreds).
    apply stack_features_final. exists vals, tes. repeat (split; [assumption |]).
    exact Hpreds.
  - intros H. apply stack_features_final in H.
    destruct H as (vals & tes & Hvals & Htes & _ & _ & _ & _ & ->).
    eexists. split; [reflexivity |]. simpl.
    rewrite (@predictions_same_layout w width _ _ _ _ Hwidth Hvals Htes). reflexivity.
Qed.

Lemma stack_features_same_model_order_witness :
  (stack_features (toy te_block good_proba) two_models false toy_info =
   Ok ({| ncols := 4; cells := [[0.75; 0.25; 0.75; 0.25]; [0.5; 0.5; 0.5; 0.5]]%float |},
       Some {| ncols := 4; cells := [[0.25; 0.75; 0.25; 0.75]]%float |})) /\
  (exists preds_te : ndarray float,
     Some {| ncols := 4; cells := [[0.25; 0.75; 0.25; 0.75]]%float |} = Some preds_te /\
     4 = ncols preds_te).
Proof.
  assert (Hwidth : forall (m g : string) (steps : Z) (a : ndarray float),
             predict_generator (toy te_block good_proba) m g steps = Ok a -> ncols a = 2).
  { intros m g steps a. simpl. destruct (String.eqb g "data/val"); intros H;
      injection H as <-; reflexivity. }
  assert (Hpreds :
            stack_features (toy te_block good_proba) two_models false toy_info =
            Ok ({| ncols := 4;
                   cells := [[0.75; 0.25; 0.75; 0.25]; [0.5; 0.5; 0.5; 0.5]]%float |},
                Some {| ncols := 4; cells := [[0.25; 0.75; 0.25; 0.75]]%float |})).
  { vm_compute. reflexivity. }
  split; [exact Hpreds |].
  apply (proj2 (@stack_features_same_model_order (toy te_block good_proba) (fun _ => 2)
                  two_models toy_info _ Hwidth) Hpreds).
Defined.

Lemma stack_features_final_some (w : world) (models : list (string * preprocess))
    (info : data_info) (preds : features w) :
  stack_features w models false info = Ok preds ->
  exists preds_te, snd preds = Some preds_te.
Proof.
  intros H. apply stack_features_final in H.
  destruct H as (vals & tes & _ & _ & _ & _ & _ & _ & ->).
  eexists. reflexivity.
Qed.

(** The events of the last part of [train], by mode. *)
Lemma combine_features_cv (w : world) (k : Z) (preds : features w) (y_val : labels w)
    (te_names : list string) :
  combine_features w true k preds y_val te_names =
  match cross_val_scores w clfs (fst preds) y_val k with
  | Ok s => ([Printed_scores s], Ok tt)
  | Err x => ([], Err x)
  end.
Proof.
  unfold combine_features. rewrite then_lift.
  destruct (cross_val_scores w clfs (fst preds) y_val k); reflexivity.
Qed.

Lemma combine_features_final (w : world) (k : Z) (preds_val preds_te : ndarray (cell w))
    (y_val : labels w) (te_names : list string) :
  combine_features w false k (preds_val, Some preds_te) y_val te_names =
  match fit w (LogisticRegression (10 ^ 10)) preds_val y_val with
  | Ok lr =>
      match predict_proba w lr preds_te with
      | Ok y_pred =>
          let path := join (SUBMISSIONS_DIR w) stacked_file in
          match create_submission_file w te_names y_pred path with
          | Ok _ => ([Submission_file te_names y_pred path; Printed_coef (coef_ w lr)], Ok tt)
          | Err x => ([Submission_file te_names y_pred path], Err x)
          end
      | Err x => ([], Err x)
      end
  | Err x => ([], Err x)
  end.
Proof.
  unfold combine_features. cbv beta iota delta [fst snd]. rewrite then_lift.
  destruct (fit w (LogisticRegression (10 ^ 10)) preds_val y_val) as [lr | x];
    [| reflexivity].
  rewrite then_lift. destruct (predict_proba w lr preds_te) as [y_pred | x]; [| reflexivity].
  rewrite then_emit, then_lift.
  destruct (create_submission_file w te_names y_pred (join (SUBMISSIONS_DIR w) stacked_file));
    reflexivity.
Qed.

(** [train] as a case analysis on what its collaborators return. *)
Lemma train_cases (w : world) (name : string) (cross_validate : bool) (k : Z) :
  train w name cross_validate k =
  match load_organized_data_info w HEIGHT name with
  | Ok info =>
      match stack_features w MODELS cross_validate info with
      | Ok preds =>
          match create_embeddings w name with
          | Ok emb => combine_features w cross_validate k preds (fst emb) (snd emb)
          | Err x => ([], Err x)
          end
      | Err x => ([], Err x)
      end
  | Err x => ([], Err x)
  end.
Proof.
  unfold train, train_with. rewrite then_lift.
  destruct (load_organized_data_info w HEIGHT name) as [info | x]; [| reflexivity].
  rewrite then_lift.
  destruct (stack_features w MODELS cross_validate info) as [preds | x]; [| reflexivity].
  rewrite then_lift. reflexivity.
Qed.









(** C8. A run of [train] in cross-validate mode never calls
    [create_submission_file]; it ends without an exception exactly when the
    data description, the validation features, the labels and the scores are
    obtained, and it has then printed once: the scores that [cross_val_scores]
    returned for the three candidate combiners on the validation features and
    their labels. A run in final-fit mode ends without an exception exactly
    when the features of both directories and the labels are obtained, the
    logistic regression is fitted on the validation features, it predicts on
    the test features and the writer returns; it has then called
    [create_submission_file] once, with the test names, these predictions and
    the path of [stacked.csv], and after that printed the coefficients of
    that fitted combiner. No run in final-fit mode calls
    [create_submission_file] twice. *)
Theorem train_effects_by_mode (w : world) (name : string) (k : Z) :
  (forall ev, In ev (fst (train w name true k)) -> is_submission_file ev = false) /\
  (snd (train w name true k) = Ok tt <->
   exists (info : data_info) (preds : features w) (emb : labels w * list string)
          (s : scores w),
     load_organized_data_info w HEIGHT name = Ok info /\
     stack_features w MODELS true info = Ok preds /\
     create_embeddings w name = Ok emb /\
     cross_val_scores w clfs (fst preds) (fst emb) k = Ok s /\
     fst (train w name true k) = [Printed_scores s]) /\
  (snd (train w name false k) = Ok tt <->
   exists (info : data_info) (preds_val preds_te : ndarray (cell w))
          (emb : labels w * list string) (lr : fitted w) (y_pred : ndarray (cell w)),
     load_organized_data_info w HEIGHT name = Ok info /\
     stack_features w MODELS false info = Ok (preds_val, Some preds_te) /\
     create_embeddings w name = Ok emb /\
     fit w (LogisticRegression (10 ^ 10)) preds_val (fst emb) = Ok lr /\
     predict_proba w lr preds_te = Ok y_pred /\
     create_submission_file w (snd emb) y_pred (join (SUBMISSIONS_DIR w) stacked_file) =
     Ok tt /\
     fst (train w name false k) =
     [Submission_file (snd emb) y_pred (join (SUBMISSIONS_DIR w) stacked_file);
      Printed_coef (coef_ w lr)]) /\
  length (filter is_submission_file (fst (train w name false k))) <= 1.
Proof.
  rewrite !train_cases. split; [| split; [| split]].
  - destruct (load_organized_data_info w HEIGHT name) as [info | x]; [| intros ev []].
    destruct (stack_features w MODELS true info) as [preds | x]; [| intros ev []].
    destruct (create_embeddings w name) as [emb | x]; [| intros ev []].
    rewrite combine_features_cv.
    destruct (cross_val_scores w clfs (fst preds) (fst emb) k); simpl.
    + intros ev [<- | []]. reflexivity.
    + intros ev [].
  - split.
    + destruct (load_organized_data_info w HEIGHT name) as [info | x]; [| discriminate].
      destruct (stack_features w MODELS true info) as [preds | x] eqn:Hpreds;
        [| discriminate].
      destruct (create_embeddings w name) as [emb | x]; [| discriminate].
      rewrite combine_features_cv.
      destruct (cross_val_scores w clfs (fst preds) (fst emb) k) as [s | x] eqn:Hs;
        [| discriminate].
      intros _. exists info, preds, emb, s. repeat split; assumption.
    + intros (info & preds & emb & s & -> & -> & -> & Hs & _).
      rewrite combine_features_cv, Hs. reflexivity.
  - split.
    + destruct (load_organized_data_info w HEIGHT name) as [info | x]; [| discriminate].
      destruct (stack_features w MODELS false info) as [preds | x] eqn:Hpreds;
        [| discriminate].
      destruct (@stack_features_final_some _ _ _ _ Hpreds) as (preds_te & Hte).
      destruct preds as [preds_val opt]. simpl in Hte. subst opt.
      destruct (create_embeddings w name) as [emb | x]; [| discriminate].
      rewrite combine_features_final.
      destruct (fit w (LogisticRegression (10 ^ 10)) preds_val (fst emb)) as [lr | x] eqn:Hlr;
        [| discriminate].
      destruct (predict_proba w lr preds_te) as [y_pred | x] eqn:Hy; [| discriminate].
      cbv zeta.
      destruct (create_submission_file w (snd emb) y_pred
                  (join (SUBMISSIONS_DIR w) stacked_file)) as [[] | x] eqn:Hfile;
        [| discriminate].
      intros _. exists info, preds_val, preds_te, emb, lr, y_pred.
      repeat split; assumption.
    + intros (info & preds_val & preds_te & emb & lr & y_pred
              & -> & -> & -> & Hlr & Hy & Hfile & _).
      rewrite combine_features_final, Hlr, Hy. cbv zeta. rewrite Hfile. reflexivity.
  - destruct (load_organized_data_info w HEIGHT name) as [info | x]; [| simpl; lia].
    destruct (stack_features w MODELS false info) as [preds | x] eqn:Hpreds; [| simpl; lia].
    destruct (@stack_features_final_some _ _ _ _ Hpreds) as (preds_te & Hte).
    destruct preds as [preds_val opt]. simpl in Hte. subst opt.
    destruct (create_embeddings w name) as [emb | x]; [| simpl; lia].
    rewrite combine_features_final.
    destruct (fit w (LogisticRegression (10 ^ 10)) preds_val (fst emb)) as [lr | x];
      [| simpl; lia].
    destruct (predict_proba w lr preds_te) as [y_pred | x]; [| simpl; lia].
    cbv zeta.
    destruct (create_submission_file w (snd emb) y_pred
                (join (SUBMISSIONS_DIR w) stacked_file)); simpl; lia.
Qed.

(** C8, instance: the small world in both modes. *)
Lemma train_effects_by_mode_witness :
  (exists (info : data_info) (preds : features (toy te_block good_proba))
          (emb : list nat * list string) (s : list string),
     load_organized_data_info (toy te_block good_proba) HEIGHT "stable" = Ok info /\
     stack_features (toy te_block good_proba) MODELS true info = Ok preds /\
     create_embeddings (toy te_block good_proba) "stable" = Ok emb /\
     cross_val_scores (toy te_block good_proba) clfs (fst preds) (fst emb) 10 = Ok s /\
     fst (train (toy te_block good_proba) "stable" true 10) =
     [Printed_scores (w := toy te_block good_proba) s]) /\
  (exists (info : data_info) (preds_val preds_te : ndarray float)
          (emb : list nat * list string) (lr : nat) (y_pred : ndarray float),
     load_organized_data_info (toy te_block good_proba) HEIGHT "stable" = Ok info /\
     stack_features (toy te_block good_proba) MODELS false info =
     Ok (preds_val, Some preds_te) /\
     create_embeddings (toy te_block good_proba) "stable" = Ok emb /\
     fit (toy te_block good_proba) (LogisticRegression (10 ^ 10)) preds_val (fst emb) =
     Ok lr /\
     predict_proba (toy te_block good_proba) lr preds_te = Ok y_pred /\
     create_submission_file (toy te_block good_proba) (snd emb) y_pred "subs/stacked.csv" =
     Ok tt /\
     fst (train (toy te_block good_proba) "stable" false 10) =
     [Submission_file (w := toy te_block good_proba) (snd emb) y_pred "subs/stacked.csv";
      Printed_coef (w := toy te_block good_proba) lr]).
Proof.
  destruct (train_effects_by_mode (toy te_block good_proba) "stable" 10)
    as (_ & Hcv & Hfinal & _).
  split; [apply (proj1 Hcv) | apply (proj1 Hfinal)]; vm_compute; reflexivity.
Defined.

(** ** The dictionaries and [predict] of [bounding_box.py] *)

Import BoundingBox.

Section OdictFacts.

Variable V : Type.

Implicit Types (d : odict V) (k : string) (v : V).

Lemma od_mem_In k d : od_mem k d = true <-> In k (keys d).
Proof.
  induction d as [| [k' v'] d IH]; simpl.
  - split; [discriminate | contradiction].
  - rewrite orb_true_iff, IH, String.eqb_eq. split; intros [H | H]; auto.
Qed.

Lemma od_mem_false k d : od_mem k d = false <-> ~ In k (keys d).
Proof.
  rewrite <- od_mem_In. destruct (od_mem k d); split; intros H; congruence.
Qed.

Lemma od_set_fresh k v d : ~ In k (keys d) -> od_set k v d = d ++ [(k, v)].
Proof.
  induction d as [| [k' v'] d IH]; simpl; intros Hk; [reflexivity |].
  destruct (String.eqb_spec k k') as [-> | Hne].
  - exfalso. apply Hk. left. reflexivity.
  - rewrite IH; [reflexivity |]. intros Hin. apply Hk. right. exact Hin.
Qed.

Lemma od_set_keys k v d :
  keys (od_set k v d) = if od_mem k d then keys d else keys d ++ [k].
Proof.
  induction d as [| [k' v'] d IH]; simpl; [reflexivity |].
  destruct (String.eqb_spec k k') as [-> | Hne]; simpl; [reflexivity |].
  rewrite IH. destruct (od_mem k d); reflexivity.
Qed.

Lemma od_set_NoDup k v d : NoDup (keys d) -> NoDup (keys (od_set k v d)).
Proof.
  intros Hd. rewrite od_set_keys. destruct (od_mem k d) eqn:Hk; [exact Hd |].
  apply od_mem_false in Hk. apply NoDup_app; [exact Hd | repeat constructor; intros [] |].
  intros x Hx [<- | []]. contradiction.
Qed.

Lemma od_get_In k v d : NoDup (keys d) -> In (k, v) d -> od_get k d = Ok v.
Proof.
  induction d as [| [k' v'] d IH]; simpl; intros Hd Hin; [contradiction |].
  inversion Hd as [| ? ? Hk' Hd']; subst.
  destruct Hin as [Heq | Hin].
  - injection Heq as -> ->. rewrite String.eqb_refl. reflexivity.
  - destruct (String.eqb_spec k k') as [-> | Hne].
    + exfalso. apply Hk'. change k' with (fst (k', v)). apply in_map. exact Hin.
    + apply IH; assumption.
Qed.

Lemma od_del_filter k d :
  NoDup (keys d) -> In k (keys d) ->
  od_del k d = Ok (filter (fun item => negb (String.eqb k (fst item))) d).
Proof.
  induction d as [| [k' v'] d IH]; simpl; intros Hd Hin; [contradiction |].
  inversion Hd as [| ? ? Hk' Hd']; subst.
  destruct (String.eqb_spec k k') as [-> | Hne]; simpl.
  - f_equal. symmetry. apply forallb_filter_id. apply forallb_forall.
    intros [k v] Hitem. simpl. apply negb_true_iff. apply String.eqb_neq.
    intros <-. apply Hk'. change k' with (fst (k', v)). apply in_map. exact Hitem.
  - rewrite IH; [reflexivity | exact Hd' |]. destruct Hin as [Heq | Hin]; [| exact Hin].
    exfalso. apply Hne. symmetry. exact Heq.
Qed.

Lemma keys_filter_In (p : string * V -> bool) k d :
  In k (keys (filter p d)) <-> exists v, In (k, v) d /\ p (k, v) = true.
Proof.
  unfold keys. rewrite in_map_iff. split.
  - intros ([k' v] & Hk & Hin). simpl in Hk. subst k'.
    apply filter_In in Hin. exists v. exact Hin.
  - intros (v & Hin & Hp). exists (k, v). split; [reflexivity |].
    apply filter_In. split; assumption.
Qed.

Lemma keys_filter_NoDup (p : string * V -> bool) d :
  NoDup (keys d) -> NoDup (keys (filter p d)).
Proof.
  induction d as [| [k v] d IH]; simpl; intros Hd; [constructor |].
  inversion Hd as [| ? ? Hk Hd']; subst.
  destruct (p (k, v)); simpl; [| apply IH; exact Hd'].
  constructor; [| apply IH; exact Hd'].
  intros Hin. apply keys_filter_In in Hin. destruct Hin as (v' & Hin & _).
  apply Hk. change k with (fst (k, v')). apply in_map. exact Hin.
Qed.

Lemma filter_twice (A : Type) (p q : A -> bool) (l : list A) :
  filter p (filter q l) = filter (fun x => q x && p x) l.
Proof.
  induction l as [| x l IH]; simpl; [reflexivity |].
  destruct (q x); simpl; [destruct (p x); rewrite IH; reflexivity | exact IH].
Qed.

Lemma foldM_invariant (A S : Type) (P : S -> Prop) (f : S -> A -> result S)
    (xs : list A) (s s' : S) :
  (forall s x s', P s -> f s x = Ok s' -> P s') ->
  P s -> foldM f xs s = Ok s' -> P s'.
Proof.
  intros Hstep. revert s. induction xs as [| x xs IH]; simpl; intros s Hs H.
  - injection H as <-. exact Hs.
  - apply bind_ok_inv in H. destruct H as (s1 & H1 & H).
    apply (IH s1); [apply (Hstep s x); assumption | exact H].
Qed.

End OdictFacts.

Section DictionaryFacts.

Variable w : world.

Lemma all_images_NoDup (directory : option string) (all : odict string) :
  _get_dict_all_images w directory = Ok all -> NoDup (keys all).
Proof.
  unfold _get_dict_all_images.
  apply (@foldM_invariant _ _ (fun d : odict string => NoDup (keys d))); [| constructor].
  intros d class_ d' Hd Hclass. unfold add_class in Hclass.
  apply bind_ok_inv in Hclass. destruct Hclass as (fs & _ & Hfs).
  revert Hfs. apply (@foldM_invariant _ _ (fun d : odict string => NoDup (keys d))); [| exact Hd].
  intros d1 f d2 Hd1 Hadd. unfold add_image in Hadd.
  destruct (search_digits (splitext_root f)) as [img_id |]; [| discriminate].
  injection Hadd as <-. apply od_set_NoDup. exact Hd1.
Qed.

(** The loop of [_get_dict_tagged_images], from any point of it: [rest] is
    what remains of [all_images], [acc] what was selected so far. *)
Lemma tagged_loop (all roi rest acc : odict string) :
  NoDup (keys all) -> incl rest all -> NoDup (keys rest) ->
  (forall k, In k (keys acc) -> ~ In k (keys rest)) ->
  foldM (add_tagged all roi) (keys rest) acc = Ok (acc ++ with_roi roi rest).
Proof.
  intros Hall. revert acc. induction rest as [| [k v] rest IH]; intros acc Hincl Hrest Hacc.
  - simpl. rewrite app_nil_r. reflexivity.
  - inversion Hrest as [| ? ? Hk Hrest']; subst.
    assert (Hincl' : incl rest all) by (intros x Hx; apply Hincl; right; exact Hx).
    change (foldM (add_tagged all roi) (keys ((k, v) :: rest)) acc)
      with (bind (add_tagged all roi acc k) (foldM (add_tagged all roi) (keys rest))).
    unfold add_tagged at 1. unfold with_roi. simpl filter.
    fold (with_roi roi rest). destruct (od_mem k roi) eqn:Hroi; simpl.
    + rewrite (@od_get_In _ k v all Hall) by (apply Hincl; left; reflexivity). simpl.
      rewrite od_set_fresh by (intros Hin; apply (Hacc k Hin); left; reflexivity).
      rewrite IH; [rewrite <- app_assoc; reflexivity | exact Hincl' | exact Hrest' |].
      intros k' Hk'. unfold keys in Hk'. rewrite map_app in Hk'. apply in_app_or in Hk'.
      destruct Hk' as [Hk' | [<- | []]].
      * intros Hin. apply (Hacc k' Hk'). right. exact Hin.
      * exact Hk.
    + apply IH; [exact Hincl' | exact Hrest' |].
      intros k' Hk' Hin. apply (Hacc k' Hk'). right. exact Hin.
Qed.

(** The loop of [_get_dict_untagged_images]: deleting the keys [ks] one by one. *)
Lemma untagged_loop (ks : list string) (d : odict string) :
  NoDup (keys d) -> NoDup ks -> incl ks (keys d) ->
  foldM (fun d img_id => od_del img_id d) ks d =
  Ok (filter (fun item => negb (existsb (String.eqb (fst item)) ks)) d).
Proof.
  revert d. induction ks as [| k ks IH]; intros d Hd Hks Hincl; simpl.
  - f_equal. symmetry. apply forallb_filter_id. apply forallb_forall. reflexivity.
  - inversion Hks as [| ? ? Hk Hks']; subst.
    rewrite od_del_filter by (try exact Hd; apply Hincl; left; reflexivity). simpl.
    rewrite IH.
    + f_equal. rewrite filter_twice. apply filter_ext. intros [k' v']. simpl.
      rewrite negb_orb, (String.eqb_sym k' k). reflexivity.
    + apply keys_filter_NoDup. exact Hd.
    + exact Hks'.
    + intros k' Hk'. assert (Hin : In k' (keys d)) by (apply Hincl; right; exact Hk').
      unfold keys in Hin. apply in_map_iff in Hin. destruct Hin as ([k'' v] & Heq & Hin).
      simpl in Heq. subst k''. apply keys_filter_In. exists v. split; [exact Hin |].
      simpl. apply negb_true_iff. apply String.eqb_neq. intros <-. contradiction.
Qed.

Lemma without_roi_remove_keys (all roi : odict string) :
  filter (fun item => negb (existsb (String.eqb (fst item)) (keys (with_roi roi all)))) all
  = without_roi roi all.
Proof.
  unfold without_roi. apply filter_ext_in. intros [k v] Hin. simpl. f_equal.
  destruct (od_mem k roi) eqn:Hroi.
  - apply existsb_exists. exists k. split; [| apply String.eqb_refl].
    apply keys_filter_In. exists v. split; assumption.
  - destruct (existsb (String.eqb k) (keys (with_roi roi all))) eqn:Hex; [| reflexivity].
    apply existsb_exists in Hex. destruct Hex as (k' & Hk' & Heq).
    apply String.eqb_eq in Heq. subst k'.
    apply keys_filter_In in Hk'. destruct Hk' as (v' & _ & Hp). simpl in Hp. congruence.
Qed.

End DictionaryFacts.

(** C10. For a training directory whose image dictionary and whose ROI
    dictionary (of the default ROI directory, the one
    [_get_dict_untagged_images] uses) can be built: the tagged dictionary is
    the image dictionary restricted to the ids that have an ROI file, in the
    order of the image dictionary and with its paths; the untagged dictionary
    is the image dictionary restricted to the other ids; every id of the image
    dictionary is in one of the two and none is in both. *)
Theorem tagged_untagged_partition
    (w : world) (directory : option string) (all roi : odict string) :
  _get_dict_all_images w directory = Ok all ->
  _get_dict_roi w None = Ok roi ->
  _get_dict_tagged_images w directory None = Ok (with_roi roi all) /\
  _get_dict_untagged_images w directory = Ok (without_roi roi all) /\
  (forall k, In k (keys (with_roi roi all)) <-> In k (keys all) /\ In k (keys roi)) /\
  (forall k, In k (keys (without_roi roi all)) <-> In k (keys all) /\ ~ In k (keys roi)) /\
  (forall k, In k (keys all) <->
             In k (keys (with_roi roi all)) \/ In k (keys (without_roi roi all))) /\
  (forall k, ~ (In k (keys (with_roi roi all)) /\ In k (keys (without_roi roi all)))).
Proof.
  intros Hall Hroi.
  pose proof (@all_images_NoDup _ _ _ Hall) as Hnodup.
  assert (Htagged : _get_dict_tagged_images w directory None = Ok (with_roi roi all)).
  { unfold _get_dict_tagged_images. rewrite Hall, Hroi. simpl.
    apply (@tagged_loop all roi all [] Hnodup); [apply incl_refl | exact Hnodup |].
    intros k []. }
  assert (Hwith : forall k, In k (keys (with_roi roi all)) <->
                            In k (keys all) /\ In k (keys roi)).
  { intros k. unfold with_roi. rewrite keys_filter_In. simpl. split.
    - intros (v & Hin & Hmem). split; [| apply od_mem_In; exact Hmem].
      change k with (fst (k, v)). apply in_map. exact Hin.
    - intros [Hin Hmem]. unfold keys in Hin. apply in_map_iff in Hin.
      destruct Hin as ([k' v] & Heq & Hin). simpl in Heq. subst k'.
      exists v. split; [exact Hin | apply od_mem_In; exact Hmem]. }
  assert (Hwithout : forall k, In k (keys (without_roi roi all)) <->
                               In k (keys all) /\ ~ In k (keys roi)).
  { intros k. unfold without_roi. rewrite keys_filter_In. simpl. split.
    - intros (v & Hin & Hmem). apply negb_true_iff in Hmem. split.
      + change k with (fst (k, v)). apply in_map. exact Hin.
      + apply od_mem_false. exact Hmem.
    - intros [Hin Hmem]. unfold keys in Hin. apply in_map_iff in Hin.
      destruct Hin as ([k' v] & Heq & Hin). simpl in Heq. subst k'.
      exists v. split; [exact Hin |]. apply negb_true_iff. apply od_mem_false. exact Hmem. }
  split; [exact Htagged |]. split.
  - unfold _get_dict_untagged_images. rewrite Hall, Htagged. simpl.
    rewrite untagged_loop.
    + rewrite without_roi_remove_keys. reflexivity.
    + exact Hnodup.
    + apply keys_filter_NoDup. exact Hnodup.
    + intros k Hk. apply Hwith in Hk. apply Hk.
  - split; [exact Hwith |]. split; [exact Hwithout |]. split.
    + intros k. rewrite Hwith, Hwithout. split.
      * intros Hin. destruct (in_dec string_dec k (keys roi)) as [Hr | Hr]; auto.
      * intros [[Hin _] | [Hin _]]; exact Hin.
    + intros k [H1 H2]. apply Hwith in H1. apply Hwithout in H2.
      destruct H1 as [_ H1], H2 as [_ H2]. contradiction.
Qed.

Lemma tagged_untagged_partition_witness :
  _get_dict_tagged_images demo_world None None =
  Ok [("7", "data/train_299/Type_1/7.jpg"); ("41", "data/train_299/Type_3/41.jpg")] /\
  _get_dict_untagged_images demo_world None =
  Ok [("12", "data/train_299/Type_3/12_copy.jpg");
      ("30", "data/train_299/Type_2/additional_30.jpg")].
Proof.
  destruct (@tagged_untagged_partition demo_world None
              [("12", "data/train_299/Type_3/12_copy.jpg");
               ("7", "data/train_299/Type_1/7.jpg");
               ("30", "data/train_299/Type_2/additional_30.jpg");
               ("41", "data/train_299/Type_3/41.jpg")]
              [("7", "data/bounding_boxes_299/7.roi");
               ("41", "data/bounding_boxes_299/41.roi");
               ("99", "data/bounding_boxes_299/99.roi")])
    as (Htagged & Huntagged & _).
  - reflexivity.
  - reflexivity.
  - split; [exact Htagged | exact Huntagged].
Defined.

(** C9. [predict] calls [_cnn] with no argument, [_cnn] has one parameter
    without a default, so the call raises [TypeError] before the body of
    [_cnn] runs: in every world [predict] ends with that exception and has
    printed and saved nothing. With one argument the binding succeeds, and
    [_cnn] returns a model unless loading the weights raises. *)
Theorem predict_raises_before_predicting (w : world) :
  _cnn w [] = Err TypeError /\
  predict w = ([], Err TypeError) /\
  (forall model_file,
     _cnn w [model_file] =
     match load_weights w (Stacked Xception_imagenet (Top_classifier 0 (1 # 2) 2048))
                        model_file with
     | Ok _ => Ok {| net := Stacked Xception_imagenet (_regression_head 0 (1 # 2) 2048);
                     weight_files := [model_file] |}
     | Err x => Err x
     end).
Proof.
  split; [reflexivity |]. split; [reflexivity |].
  intros model_file. unfold _cnn. simpl.
  destruct (load_weights w (Stacked Xception_imagenet (Top_classifier 0 (1 # 2) 2048))
              model_file); reflexivity.
Qed.

(** * Further facts *)

From Stdlib Require Import Permutation.

Import BoundingBoxImages.

(** ** Dictionaries built by assignment *)

Section OdictBuildFacts.

Variable V : Type.

Implicit Types (d : odict V) (k : string) (v : V) (items : list (string * V)).

Lemma od_get_set k k' v d :
  od_get k' (od_set k v d) = if String.eqb k' k then Ok v else od_get k' d.
Proof.
  induction d as [| [k0 v0] d IH]; simpl.
  - reflexivity.
  - destruct (String.eqb_spec k k0) as [-> | Hne]; simpl.
    + destruct (String.eqb k' k0); reflexivity.
    + rewrite IH. destruct (String.eqb_spec k' k0) as [-> | Hne'].
      * destruct (String.eqb_spec k0 k) as [Heq | _]; [| reflexivity].
        exfalso. apply Hne. symmetry. exact Heq.
      * reflexivity.
Qed.

Lemma find_snoc (A : Type) (p : A -> bool) (l : list A) (x : A) :
  find p (l ++ [x]) = match find p l with
                      | Some y => Some y
                      | None => if p x then Some x else None
                      end.
Proof.
  induction l as [| y l IH]; simpl; [reflexivity |].
  destruct (p y); [reflexivity | exact IH].
Qed.

Lemma od_get_fold k items d :
  od_get k (fold_left (fun d item => od_set (fst item) (snd item) d) items d) =
  match last_value k items with
  | Some v => Ok v
  | None => od_get k d
  end.
Proof.
  revert d. induction items as [| [k0 v0] items IH]; intros d; simpl.
  - reflexivity.
  - rewrite IH. unfold last_value. simpl. rewrite find_snoc.
    destruct (find (fun item => String.eqb k (fst item)) (rev items)) as [[k1 v1] |]; simpl.
    + reflexivity.
    + rewrite od_get_set. destruct (String.eqb k k0); reflexivity.
Qed.

Lemma filter_filter_absorb (p q : string -> bool) (l : list string) :
  (forall x, p x = true -> q x = true) ->
  filter p (filter q l) = filter p l.
Proof.
  intros Hpq. induction l as [| x l IH]; simpl; [reflexivity |].
  destruct (q x) eqn:Hq; simpl.
  - destruct (p x); rewrite IH; reflexivity.
  - destruct (p x) eqn:Hp; [| exact IH]. rewrite (Hpq x Hp) in Hq. discriminate.
Qed.

Lemma keys_fold items d :
  keys (fold_left (fun d item => od_set (fst item) (snd item) d) items d) =
  keys d ++ filter (fun k => negb (od_mem k d)) (first_occurrences (map fst items)).
Proof.
  revert d. induction items as [| [k0 v0] items IH]; intros d; simpl.
  - rewrite app_nil_r. reflexivity.
  - rewrite IH, od_set_keys. destruct (od_mem k0 d) eqn:Hmem; simpl.
    + f_equal. rewrite filter_filter_absorb.
      * apply filter_ext. intros k. f_equal.
        destruct (od_mem k (od_set k0 v0 d)) eqn:H1, (od_mem k d) eqn:H2; try reflexivity.
        -- apply od_mem_In in H1. rewrite od_set_keys, Hmem in H1.
           apply od_mem_In in H1. congruence.
        -- apply od_mem_In in H2. apply od_mem_false in H1. exfalso. apply H1.
           rewrite od_set_keys, Hmem. exact H2.
      * intros k Hk. apply negb_true_iff in Hk. apply negb_true_iff.
        apply String.eqb_neq. intros <-. congruence.
    + rewrite <- app_assoc. simpl. f_equal. f_equal.
      rewrite filter_twice. apply filter_ext. intros k.
      destruct (String.eqb_spec k0 k) as [<- | Hne]; simpl.
      * assert (H : od_mem k0 (od_set k0 v0 d) = true).
        { apply od_mem_In. rewrite od_set_keys, Hmem. apply in_or_app. right. left. reflexivity. }
        rewrite H. reflexivity.
      * f_equal.
        destruct (od_mem k (od_set k0 v0 d)) eqn:H1, (od_mem k d) eqn:H2; try reflexivity.
        -- apply od_mem_In in H1. rewrite od_set_keys, Hmem in H1.
           apply in_app_or in H1. destruct H1 as [H1 | [H1 | []]].
           ++ apply od_mem_In in H1. congruence.
           ++ contradiction.
        -- apply od_mem_In in H2. apply od_mem_false in H1. exfalso. apply H1.
           rewrite od_set_keys, Hmem. apply in_or_app. left. exact H2.
Qed.

Lemma first_occurrences_In (ks : list string) (k : string) :
  In k (first_occurrences ks) <-> In k ks.
Proof.
  induction ks as [| k0 ks IH]; simpl; [reflexivity |].
  rewrite filter_In, IH, negb_true_iff, String.eqb_neq. split.
  - intros [H | [H _]]; auto.
  - intros [H | H]; [left; exact H |].
    destruct (string_dec k0 k) as [Heq | Hne]; [left; exact Heq | right; split; assumption].
Qed.

Lemma od_of_list_keys items :
  keys (od_of_list items) = first_occurrences (map fst items).
Proof.
  unfold od_of_list. rewrite keys_fold. simpl.
  apply forallb_filter_id. apply forallb_forall. reflexivity.
Qed.

Lemma od_of_list_get k items :
  od_get k (od_of_list items) = match last_value k items with
                                | Some v => Ok v
                                | None => Err KeyError
                                end.
Proof. unfold od_of_list. rewrite od_get_fold. reflexivity. Qed.

Lemma od_of_list_NoDup items : NoDup (keys (od_of_list items)).
Proof.
  unfold od_of_list.
  assert (H : forall d, NoDup (keys d) ->
                NoDup (keys (fold_left (fun d item => od_set (fst item) (snd item) d) items d))).
  { induction items as [| item items IH]; intros d Hd; simpl; [exact Hd |].
    apply IH. apply od_set_NoDup. exact Hd. }
  apply H. constructor.
Qed.

End OdictBuildFacts.

(** ** The dictionaries of [bounding_box.py] as lists of assignments *)

Section BuilderFacts.

Variable w : world.

Lemma fold_left_map_items (A : Type) (g : A -> string * string) (xs : list A)
    (d : odict string) :
  fold_left (fun d x => od_set (fst (g x)) (snd (g x)) d) xs d =
  fold_left (fun d item => od_set (fst item) (snd item) d) (map g xs) d.
Proof.
  revert d. induction xs as [| x xs IH]; intros d; simpl; [reflexivity | apply IH].
Qed.

Lemma get_dict_roi_spec (directory : option string) :
  _get_dict_roi w directory =
  (fs <- listdir w (or_default directory IJ_ROI_DIR) ;;
   Ok (od_of_list (map (fun f => (splitext_root f,
                                  join (or_default directory IJ_ROI_DIR) f)) fs))).
Proof.
  unfold _get_dict_roi, od_of_list.
  destruct (listdir w (or_default directory IJ_ROI_DIR)) as [fs | x]; simpl; [| reflexivity].
  f_equal.
  apply (fold_left_map_items
           (fun f => (splitext_root f, join (or_default directory IJ_ROI_DIR) f))).
Qed.

Lemma add_images_spec (dir class_ : string) (fs : list string) (d : odict string) :
  foldM (add_image dir class_) fs d =
  (items <- mapM (image_item dir class_) fs ;;
   Ok (fold_left (fun d item => od_set (fst item) (snd item) d) items d)).
Proof.
  revert d. induction fs as [| f fs IH]; intros d; simpl; [reflexivity |].
  unfold add_image at 1, image_item at 1.
  destruct (search_digits (splitext_root f)) as [img_id |]; simpl; [| reflexivity].
  rewrite IH. destruct (mapM (image_item dir class_) fs); reflexivity.
Qed.

Lemma add_classes_spec (directory : option string) (classes : list string)
    (d : odict string) :
  foldM (add_class w directory) classes d =
  (per_class <- mapM (fun class_ =>
                        fs <- listdir w (join (or_default directory TRAINING_DIR) class_) ;;
                        mapM (image_item (or_default directory TRAINING_DIR) class_) fs)
                     classes ;;
   Ok (fold_left (fun d item => od_set (fst item) (snd item) d) (concat per_class) d)).
Proof.
  revert d. induction classes as [| class_ classes IH]; intros d; simpl; [reflexivity |].
  unfold add_class at 1.
  destruct (listdir w (join (or_default directory TRAINING_DIR) class_)) as [fs | x];
    simpl; [| reflexivity].
  rewrite add_images_spec.
  destruct (mapM (image_item (or_default directory TRAINING_DIR) class_) fs) as [items | x];
    simpl; [| reflexivity].
  rewrite IH.
  destruct (mapM (fun class_ =>
                    fs <- listdir w (join (or_default directory TRAINING_DIR) class_) ;;
                    mapM (image_item (or_default directory TRAINING_DIR) class_) fs)
                 classes) as [per_class | x]; simpl; [| reflexivity].
  rewrite fold_left_app. reflexivity.
Qed.

Lemma get_dict_all_images_spec (directory : option string) :
  _get_dict_all_images w directory =
  (items <- listed_images w directory ;; Ok (od_of_list items)).
Proof.
  unfold _get_dict_all_images, listed_images, od_of_list. rewrite add_classes_spec.
  destruct (mapM (fun class_ =>
                    fs <- listdir w (join (or_default directory TRAINING_DIR) class_) ;;
                    mapM (image_item (or_default directory TRAINING_DIR) class_) fs)
                 CLASSES); reflexivity.
Qed.

Lemma tagged_images_spec (directory roi_directory : option string) (all roi : odict string) :
  _get_dict_all_images w directory = Ok all ->
  _get_dict_roi w roi_directory = Ok roi ->
  _get_dict_tagged_images w directory roi_directory = Ok (with_roi roi all).
Proof.
  intros Hall Hroi. pose proof (@all_images_NoDup _ _ _ Hall) as Hnodup.
  unfold _get_dict_tagged_images. rewrite Hall, Hroi. simpl.
  apply (@tagged_loop all roi all [] Hnodup); [apply incl_refl | exact Hnodup |].
  intros k [].
Qed.

Lemma untagged_images_spec (directory : option string) (all roi : odict string) :
  _get_dict_all_images w directory = Ok all ->
  _get_dict_roi w None = Ok roi ->
  _get_dict_untagged_images w directory = Ok (without_roi roi all).
Proof.
  intros Hall Hroi. pose proof (@all_images_NoDup _ _ _ Hall) as Hnodup.
  unfold _get_dict_untagged_images.
  rewrite Hall, (tagged_images_spec _ _ Hall Hroi). simpl.
  rewrite untagged_loop.
  - rewrite without_roi_remove_keys. reflexivity.
  - exact Hnodup.
  - apply keys_filter_NoDup. exact Hnodup.
  - intros k Hk. unfold with_roi in Hk. apply keys_filter_In in Hk.
    destruct Hk as (v & Hin & _). change k with (fst (k, v)). apply in_map. exact Hin.
Qed.

End BuilderFacts.

Lemma search_digits_digits (s k : string) :
  search_digits s = Some k -> k <> "" /\ all_chars is_digit k = true.
Proof.
  induction s as [| c s IH]; simpl; [discriminate |].
  destruct (is_digit c) eqn:Hc; [| exact IH].
  intros H. injection H as <-. split; [discriminate |]. simpl. rewrite Hc. simpl.
  clear IH Hc. induction s as [| c' s IH]; simpl; [reflexivity |].
  destruct (is_digit c') eqn:Hc'; simpl; [rewrite Hc'; exact IH | reflexivity].
Qed.

Lemma mapM_err_In (A B : Type) (f : A -> result B) (xs : list A) (x : exn) :
  mapM f xs = Err x -> exists a, In a xs /\ f a = Err x.
Proof.
  induction xs as [| a xs IH]; simpl; [discriminate |].
  destruct (f a) as [b | y] eqn:Ha; simpl.
  - destruct (mapM f xs) as [bs | y]; simpl; [discriminate |].
    intros H. injection H as <-. destruct (IH eq_refl) as (a' & Hin & Ha').
    exists a'. split; [right; exact Hin | exact Ha'].
  - intros H. injection H as <-. exists a. split; [left; reflexivity | exact Ha].
Qed.

Lemma mapM_ok_iff (A B : Type) (f : A -> result B) (xs : list A) :
  is_ok (mapM f xs) = true <-> forall a, In a xs -> is_ok (f a) = true.
Proof.
  induction xs as [| a xs IH]; simpl.
  - split; [intros _ a [] | reflexivity].
  - destruct (f a) as [b | y] eqn:Ha; simpl.
    + destruct (mapM f xs) as [bs | y]; simpl in *.
      * split; [| reflexivity]. intros _ a' [<- | Hin]; [rewrite Ha; reflexivity |].
        apply (proj1 IH eq_refl). exact Hin.
      * split; [discriminate |]. intros H. apply IH. intros a' Hin. apply H. right. exact Hin.
    + split; [discriminate |]. intros H. specialize (H a (or_introl eq_refl)).
      rewrite Ha in H. exact H.
Qed.

Lemma mapM_ok_In (A B : Type) (f : A -> result B) (xs : list A) (ys : list B) (y : B) :
  mapM f xs = Ok ys -> In y ys -> exists a, In a xs /\ f a = Ok y.
Proof.
  intros H. apply mapM_ok_Forall2 in H.
  induction H as [| a b xs ys Hab _ IH]; intros Hin; [contradiction |].
  destruct Hin as [<- | Hin].
  - exists a. split; [left; reflexivity | exact Hab].
  - destruct (IH Hin) as (a' & Ha' & Hf). exists a'. split; [right; exact Ha' | exact Hf].
Qed.

Lemma mapM_total (A B : Type) (P : B -> Prop) (f : A -> result B) (xs : list A) :
  (forall a, In a xs -> exists b, f a = Ok b /\ P b) ->
  exists bs, mapM f xs = Ok bs /\ length bs = length xs /\ Forall P bs.
Proof.
  induction xs as [| a xs IH]; intros H; simpl.
  - exists []. repeat split. constructor.
  - destruct (H a (or_introl eq_refl)) as (b & Hb & HP).
    destruct IH as (bs & Hbs & Hlen & Hall); [intros a' Hin; apply H; right; exact Hin |].
    exists (b :: bs). rewrite Hb, Hbs. simpl. repeat split; [lia | constructor; assumption].
Qed.

(** X13. [_get_dict_roi] finds a ROI file under its name without the
    extension. When the directory can be listed, the dictionary has one key
    per such name, in the order in which the names first occur in the
    listing; every listed file is reachable under its name; and a key holds
    the path of the last listed file with that name. *)
Theorem get_dict_roi_by_file_root
    (w : world) (directory : option string) (fs : list string) :
  listdir w (or_default directory IJ_ROI_DIR) = Ok fs ->
  exists roi : odict string,
    _get_dict_roi w directory = Ok roi /\
    keys roi = first_occurrences (map splitext_root fs) /\
    (forall f, In f fs -> od_mem (splitext_root f) roi = true) /\
    (forall k, od_get k roi =
               match last_value k
                       (map (fun f => (splitext_root f,
                                       join (or_default directory IJ_ROI_DIR) f)) fs) with
               | Some path => Ok path
               | None => Err KeyError
               end).
Proof.
  intros Hfs. rewrite get_dict_roi_spec, Hfs. simpl. eexists. split; [reflexivity |].
  split; [| split].
  - rewrite od_of_list_keys, map_map. reflexivity.
  - intros f Hf. apply od_mem_In. rewrite od_of_list_keys, map_map. simpl.
    apply first_occurrences_In. apply in_map. exact Hf.
  - intros k. apply od_of_list_get.
Qed.

Lemma get_dict_roi_by_file_root_witness :
  exists roi : odict string,
    _get_dict_roi demo_world None = Ok roi /\
    keys roi = ["7"; "41"; "99"] /\
    od_get "41" roi = Ok "data/bounding_boxes_299/41.roi".
Proof.
  destruct (@get_dict_roi_by_file_root demo_world None ["7.roi"; "41.roi"; "99.roi"])
    as (roi & Hroi & Hkeys & _ & Hget); [reflexivity |].
  exists roi. split; [exact Hroi |]. split; [exact Hkeys |]. apply Hget.
Defined.

(** X14. When the three class directories can be listed and the names of
    the listed files are ASCII, [_get_dict_all_images] returns a dictionary
    exactly when the name of every listed file, without its extension, holds
    one of the digits 0 to 9; otherwise it raises [AttributeError] (from
    [search(...).group] on a name without digit). *)
Theorem get_dict_all_images_needs_digits (w : world) (directory : option string) :
  (forall class_, In class_ CLASSES ->
     exists fs, listdir w (join (or_default directory TRAINING_DIR) class_) = Ok fs /\
                Forall (fun f => is_ascii f = true) fs) ->
  (is_ok (_get_dict_all_images w directory) = true <->
   forall class_ fs f,
     In class_ CLASSES ->
     listdir w (join (or_default directory TRAINING_DIR) class_) = Ok fs ->
     In f fs -> search_digits (splitext_root f) <> None) /\
  (is_ok (_get_dict_all_images w directory) = false ->
   _get_dict_all_images w directory = Err AttributeError).
Proof.
  intros Hlist. rewrite get_dict_all_images_spec. unfold listed_images.
  set (per_class := fun class_ =>
         fs <- listdir w (join (or_default directory TRAINING_DIR) class_) ;;
         mapM (image_item (or_default directory TRAINING_DIR) class_) fs).
  assert (Hok : is_ok (mapM per_class CLASSES) = true <->
                forall class_ fs f,
                  In class_ CLASSES ->
                  listdir w (join (or_default directory TRAINING_DIR) class_) = Ok fs ->
                  In f fs -> search_digits (splitext_root f) <> None).
  { rewrite mapM_ok_iff. split.
    - intros H class_ fs f Hclass Hfs Hf. specialize (H class_ Hclass).
      unfold per_class in H. rewrite Hfs in H. simpl in H.
      rewrite mapM_ok_iff in H. specialize (H f Hf). unfold image_item in H.
      destruct (search_digits (splitext_root f)); [discriminate | discriminate H].
    - intros H class_ Hclass. destruct (Hlist class_ Hclass) as (fs & Hfs & _).
      unfold per_class. rewrite Hfs. simpl. apply mapM_ok_iff. intros f Hf.
      specialize (H class_ fs f Hclass Hfs Hf). unfold image_item.
      destruct (search_digits (splitext_root f)); [reflexivity | contradiction]. }
  split.
  - rewrite <- Hok. destruct (mapM per_class CLASSES); simpl; reflexivity.
  - destruct (mapM per_class CLASSES) as [items | x] eqn:Hmap; simpl; [discriminate |].
    intros _. apply mapM_err_In in Hmap. destruct Hmap as (class_ & Hclass & Herr).
    destruct (Hlist class_ Hclass) as (fs & Hfs & _). unfold per_class in Herr.
    rewrite Hfs in Herr. simpl in Herr. apply mapM_err_In in Herr.
    destruct Herr as (f & _ & Hf). unfold image_item in Hf.
    destruct (search_digits (splitext_root f)); [discriminate |]. congruence.
Qed.

Lemma get_dict_all_images_needs_digits_witness :
  is_ok (_get_dict_all_images demo_world None) = true <->
  forall class_ fs f,
    In class_ CLASSES ->
    listdir demo_world (join (or_default None TRAINING_DIR) class_) = Ok fs ->
    In f fs -> search_digits (splitext_root f) <> None.
Proof.
  apply (@get_dict_all_images_needs_digits demo_world None).
  intros class_ [<- | [<- | [<- | []]]]; eexists; (split; [reflexivity |]);
    repeat constructor.
Defined.

(** X15. When the names of the listed files are ASCII, the keys of the
    dictionary of [_get_dict_all_images] are image ids: each is a non-empty
    string of the digits 0 to 9, and no id occurs twice. *)
Theorem get_dict_all_images_keys_are_ids
    (w : world) (directory : option string) (all : odict string) :
  (forall class_ fs, In class_ CLASSES ->
     listdir w (join (or_default directory TRAINING_DIR) class_) = Ok fs ->
     Forall (fun f => is_ascii f = true) fs) ->
  _get_dict_all_images w directory = Ok all ->
  NoDup (keys all) /\
  forall k, In k (keys all) -> k <> "" /\ all_chars is_digit k = true.
Proof.
  intros _ Hall. split; [apply (@all_images_NoDup _ _ _ Hall) |].
  rewrite get_dict_all_images_spec in Hall.
  apply bind_ok_inv in Hall. destruct Hall as (items & Hitems & Hall). injection Hall as <-.
  intros k Hk. rewrite od_of_list_keys in Hk.
  apply (proj1 (first_occurrences_In _ _)) in Hk.
  apply in_map_iff in Hk. destruct Hk as ([k' path] & Heq & Hin). simpl in Heq. subst k'.
  unfold listed_images in Hitems.
  apply bind_ok_inv in Hitems. destruct Hitems as (per_class & Hmap & Hitems).
  injection Hitems as <-. apply in_concat in Hin. destruct Hin as (items & Hitems & Hin).
  destruct (@mapM_ok_In _ _ _ _ _ _ Hmap Hitems) as (class_ & _ & Hclass).
  apply bind_ok_inv in Hclass. destruct Hclass as (fs & _ & Hfs).
  destruct (@mapM_ok_In _ _ _ _ _ _ Hfs Hin) as (f & _ & Hf). unfold image_item in Hf.
  destruct (search_digits (splitext_root f)) as [img_id |] eqn:Hid; [| discriminate].
  injection Hf as -> _. apply (@search_digits_digits _ _ Hid).
Qed.

Lemma get_dict_all_images_keys_are_ids_witness :
  NoDup ["12"; "7"; "30"; "41"] /\
  forall k, In k ["12"; "7"; "30"; "41"] -> k <> "" /\ all_chars is_digit k = true.
Proof.
  apply (@get_dict_all_images_keys_are_ids demo_world None
           [("12", "data/train_299/Type_3/12_copy.jpg");
            ("7", "data/train_299/Type_1/7.jpg");
            ("30", "data/train_299/Type_2/additional_30.jpg");
            ("41", "data/train_299/Type_3/41.jpg")]).
  - intros class_ fs [<- | [<- | [<- | []]]] Hfs; vm_compute in Hfs;
      injection Hfs as <-; repeat constructor.
  - reflexivity.
Defined.

(** X16. When several files of a training directory have the same image id,
    in one class or in different ones, the dictionary of
    [_get_dict_all_images] keeps one entry for the id: at the position of the
    first of these files, in the order in which the loops visit them, and with
    the path of the last one. *)
Theorem get_dict_all_images_first_position_last_path
    (w : world) (directory : option string) (all : odict string) :
  _get_dict_all_images w directory = Ok all ->
  exists items : list (string * string),
    listed_images w directory = Ok items /\
    keys all = first_occurrences (map fst items) /\
    forall k, od_get k all = match last_value k items with
                             | Some path => Ok path
                             | None => Err KeyError
                             end.
Proof.
  intros Hall. rewrite get_dict_all_images_spec in Hall.
  apply bind_ok_inv in Hall. destruct Hall as (items & Hitems & Hall). injection Hall as <-.
  exists items. split; [exact Hitems |]. split; [apply od_of_list_keys |].
  intros k. apply od_of_list_get.
Qed.

Lemma get_dict_all_images_first_position_last_path_witness :
  exists all : odict string,
    _get_dict_all_images demo_world None = Ok all /\
    keys all = ["12"; "7"; "30"; "41"] /\
    od_get "12" all = Ok "data/train_299/Type_3/12_copy.jpg".
Proof.
  exists [("12", "data/train_299/Type_3/12_copy.jpg");
          ("7", "data/train_299/Type_1/7.jpg");
          ("30", "data/train_299/Type_2/additional_30.jpg");
          ("41", "data/train_299/Type_3/41.jpg")].
  destruct (@get_dict_all_images_first_position_last_path demo_world None
              [("12", "data/train_299/Type_3/12_copy.jpg");
               ("7", "data/train_299/Type_1/7.jpg");
               ("30", "data/train_299/Type_2/additional_30.jpg");
               ("41", "data/train_299/Type_3/41.jpg")] eq_refl)
    as (items & Hitems & Hkeys & Hget).
  vm_compute in Hitems. injection Hitems as <-.
  split; [reflexivity |]. split; [exact Hkeys |]. rewrite Hget. reflexivity.
Defined.

Lemma filter_length_partition (A : Type) (p : A -> bool) (l : list A) :
  length (filter p l) + length (filter (fun x => negb (p x)) l) = length l.
Proof.
  induction l as [| x l IH]; simpl; [reflexivity |].
  destruct (p x); simpl; lia.
Qed.

(** X17. Whenever the image dictionary and the default ROI dictionary can be
    built, the tagged and the untagged dictionary can be built too, and the
    number of tagged images plus the number of untagged images is the number
    of all images. *)
Theorem tagged_and_untagged_counts_add_up
    (w : world) (directory : option string) (all roi : odict string) :
  _get_dict_all_images w directory = Ok all ->
  _get_dict_roi w None = Ok roi ->
  exists tagged untagged : odict string,
    _get_dict_tagged_images w directory None = Ok tagged /\
    _get_dict_untagged_images w directory = Ok untagged /\
    length tagged + length untagged = length all.
Proof.
  intros Hall Hroi. exists (with_roi roi all), (without_roi roi all).
  split; [apply (tagged_images_spec _ _ _ Hall Hroi) |].
  split; [apply (untagged_images_spec _ _ Hall Hroi) |].
  unfold with_roi, without_roi.
  apply (filter_length_partition (fun item : string * string => od_mem (fst item) roi)).
Qed.

Lemma tagged_and_untagged_counts_add_up_witness :
  exists tagged untagged : odict string,
    _get_dict_tagged_images demo_world None None = Ok tagged /\
    _get_dict_untagged_images demo_world None = Ok untagged /\
    length tagged + length untagged = 4.
Proof.
  apply (@tagged_and_untagged_counts_add_up demo_world None
           [("12", "data/train_299/Type_3/12_copy.jpg");
            ("7", "data/train_299/Type_1/7.jpg");
            ("30", "data/train_299/Type_2/additional_30.jpg");
            ("41", "data/train_299/Type_3/41.jpg")]
           [("7", "data/bounding_boxes_299/7.roi");
            ("41", "data/bounding_boxes_299/41.roi");
            ("99", "data/bounding_boxes_299/99.roi")]); reflexivity.
Defined.

(** X18. [number_tagged] calls [_get_tagged_images] with no argument, and
    [training_dir] has no default: in every world the call raises [TypeError],
    and [number_tagged] ends with it before printing either count. With one
    or two arguments the binding succeeds. *)
Theorem number_tagged_raises_before_counting (lw : loaders) :
  _get_tagged_images lw [] = Err TypeError /\
  number_tagged lw = ([], Err TypeError) /\
  (forall training_dir, bind_training_dir [training_dir] = Ok (training_dir, None)) /\
  (forall training_dir roi_dir,
     bind_training_dir [training_dir; roi_dir] = Ok (training_dir, Some roi_dir)).
Proof. repeat split. Qed.

Lemma int16_range (z : Z) : is_int16 (int16 z).
Proof.
  unfold is_int16, int16. pose proof (Z.mod_pos_bound (z + 32768) 65536). lia.
Qed.

Lemma int16_exact (z : Z) : is_int16 z -> int16 z = z.
Proof.
  unfold is_int16, int16. intros Hz. rewrite Z.mod_small by lia. lia.
Qed.

Lemma int16_wraps (z : Z) : exists n : Z, int16 z = (z + 65536 * n)%Z.
Proof.
  unfold int16. exists (- ((z + 32768) / 65536))%Z.
  pose proof (Z.div_mod (z + 32768) 65536). lia.
Qed.

(** X19. [_convert_from_roi] on a ROI file without sub-pixel resolution that
    can be read, its coordinates being [int16]: with fewer than three points
    it raises [IndexError]; otherwise it returns four [int16] numbers, the
    first point and the differences from it to the third point. A difference
    that fits [int16] is the exact one, so that the first point plus height
    and width is the third point; one that does not fit is off by a multiple
    of 65536. For the four corners of a rectangle whose sides fit [int16] the
    result is top, left, height and width. *)
Theorem convert_from_roi_box (lw : loaders) (fname : string) (pts : list (Z * Z)) :
  read_roi lw (roi_file fname) = Ok pts ->
  Forall (fun p => is_int16 (fst p) /\ is_int16 (snd p)) pts ->
  (length pts < 3 -> _convert_from_roi lw fname = Err (Raised "IndexError")) /\
  (3 <= length pts ->
   exists top lft bottom rgt height width : Z,
     nth 0 pts (0, 0)%Z = (top, lft) /\
     nth 2 pts (0, 0)%Z = (bottom, rgt) /\
     _convert_from_roi lw fname = Ok [top; lft; height; width] /\
     Forall is_int16 [top; lft; height; width] /\
     (exists n, height = (bottom - top + 65536 * n)%Z) /\
     (exists n, width = (rgt - lft + 65536 * n)%Z) /\
     (is_int16 (bottom - top) -> (top + height)%Z = bottom) /\
     (is_int16 (rgt - lft) -> (lft + width)%Z = rgt)) /\
  (forall top lft bottom rgt,
     pts = rectangle top lft bottom rgt ->
     is_int16 (bottom - top) -> is_int16 (rgt - lft) ->
     _convert_from_roi lw fname = Ok [top; lft; bottom - top; rgt - lft]%Z).
Proof.
  intros Hread Hpts. unfold _convert_from_roi. rewrite Hread. simpl. split; [| split].
  - intros Hlen. destruct pts as [| [t l] [| p1 [| [b r] pts]]]; simpl in *;
      try reflexivity; lia.
  - intros Hlen. destruct pts as [| [t l] [| p1 [| [b r] pts]]]; simpl in *; try lia.
    inversion Hpts as [| ? ? [Ht Hl] _]; subst.
    exists t, l, b, r, (int16 (b - t)), (int16 (r - l)).
    split; [reflexivity |]. split; [reflexivity |]. split; [reflexivity |].
    split; [repeat (first [apply Forall_nil | apply Forall_cons]);
            try assumption; apply int16_range |].
    split; [apply int16_wraps |]. split; [apply int16_wraps |].
    split; intros Hfit; rewrite (@int16_exact _ Hfit); lia.
  - intros top lft bottom rgt -> Hh Hw. simpl.
    rewrite (@int16_exact _ Hh), (@int16_exact _ Hw). reflexivity.
Qed.

Lemma convert_from_roi_box_witness :
  _convert_from_roi demo_loaders "7" = Ok [10; 20; 100; 200]%Z /\
  _convert_from_roi demo_loaders "99" = Err (Raised "IndexError").
Proof.
  assert (H7 : Forall (fun p : Z * Z => is_int16 (fst p) /\ is_int16 (snd p))
                 (rectangle 10 20 110 220)).
  { repeat (first [apply Forall_nil | apply Forall_cons]); unfold is_int16; simpl; lia. }
  assert (H99 : Forall (fun p : Z * Z => is_int16 (fst p) /\ is_int16 (snd p))
                  [(1, 2); (3, 4)]%Z).
  { repeat (first [apply Forall_nil | apply Forall_cons]); unfold is_int16; simpl; lia. }
  split.
  - apply (proj2 (proj2 (@convert_from_roi_box demo_loaders "7" (rectangle 10 20 110 220)
                           eq_refl H7)) 10%Z 20%Z 110%Z 220%Z eq_refl);
      unfold is_int16; lia.
  - apply (proj1 (@convert_from_roi_box demo_loaders "99" [(1, 2); (3, 4)]%Z eq_refl H99)).
    simpl. lia.
Defined.

Section TaggedImagesFacts.

Variable lw : loaders.

Lemma od_mem_get (k : string) (d : odict string) :
  od_mem k d = true -> exists v, In (k, v) d /\ od_get k d = Ok v.
Proof.
  induction d as [| [k' v'] d IH]; simpl; [discriminate |].
  destruct (String.eqb_spec k k') as [-> | Hne]; simpl.
  - intros _. exists v'. split; [left; reflexivity | reflexivity].
  - intros H. destruct (IH H) as (v & Hin & Hget).
    exists v. split; [right; exact Hin | exact Hget].
Qed.

Lemma convert_from_roi_length (fname : string) (y : list Z) :
  _convert_from_roi lw fname = Ok y -> length y = 4.
Proof.
  unfold _convert_from_roi. destruct (read_roi lw (roi_file fname)) as [pts | x]; simpl;
    [| discriminate].
  destruct pts as [| [t l] [| p1 [| [b r] pts]]]; try discriminate.
  intros H. injection H as <-. reflexivity.
Qed.

Lemma get_dict_roi_default (roi_dir : option string) :
  _get_dict_roi (base lw) (Some (or_default roi_dir IJ_ROI_DIR)) =
  _get_dict_roi (base lw) roi_dir.
Proof.
  unfold _get_dict_roi.
  assert (H : or_default (Some (or_default roi_dir IJ_ROI_DIR)) IJ_ROI_DIR =
              or_default roi_dir IJ_ROI_DIR).
  { destruct roi_dir as [r |]; simpl; [| reflexivity].
    destruct (is_empty r) eqn:Hr; simpl; [reflexivity | rewrite Hr; reflexivity]. }
  rewrite H. reflexivity.
Qed.

End TaggedImagesFacts.

(** X20. [_get_tagged_images] called with a training directory, as
    [bounding_box.train] calls it: when the image dictionary and the ROI
    dictionary can be built, every tagged image loads, and every ROI file of
    an image converts, it returns the ids of the tagged images in the order of
    the image dictionary, with one image and one box of four numbers per id.
    The look-ups [img_dict[key]] and [roi_dict[key]] never raise. *)
Theorem get_tagged_images_returns
    (lw : loaders) (training_dir : string) (all roi : odict string) :
  _get_dict_all_images (base lw) (Some training_dir) = Ok all ->
  _get_dict_roi (base lw) None = Ok roi ->
  (forall k path, In (k, path) (with_roi roi all) ->
     exists img x, load_img_sized lw path = Ok img /\ img_to_array lw img = Ok x) ->
  (forall k roi_path, In k (keys all) -> In (k, roi_path) roi ->
     exists y, _convert_from_roi lw roi_path = Ok y) ->
  exists (X : list (image (base lw))) (Y : list (list Z)),
    _get_tagged_images lw [training_dir] = Ok (keys (with_roi roi all), X, Y) /\
    length X = length (with_roi roi all) /\
    length Y = length (with_roi roi all) /\
    Forall (fun y => length y = 4) Y.
Proof.
  intros Hall Hroi Himg Hconv.
  pose proof (@all_images_NoDup _ _ _ Hall) as Hnodup.
  unfold _get_tagged_images. cbn [bind_training_dir bind fst snd].
  rewrite get_dict_roi_default, Hroi. cbn [bind].
  rewrite (tagged_images_spec _ _ _ Hall Hroi). cbn [bind].
  destruct (@mapM_total _ _ (fun xy : image (base lw) * list Z => length (snd xy) = 4)
              (load_tagged lw roi (with_roi roi all)) (keys (with_roi roi all)))
    as (XY & HXY & Hlen & Hfour).
  { intros k Hk. unfold with_roi in Hk. apply keys_filter_In in Hk.
    destruct Hk as (path & Hin & Hmem). simpl in Hmem.
    assert (Htagged : In (k, path) (with_roi roi all)).
    { apply filter_In. split; assumption. }
    destruct (Himg k path Htagged) as (img & x & Himg' & Hx).
    destruct (od_mem_get _ _ Hmem) as (roi_path & Hroi_in & Hroi_get).
    assert (Hk : In k (keys all)).
    { change k with (fst (k, path)). apply in_map. exact Hin. }
    destruct (Hconv k roi_path Hk Hroi_in) as (y & Hy).
    exists (x, y). unfold load_tagged.
    rewrite (@od_get_In _ k path (with_roi roi all)
               (keys_filter_NoDup _ _ Hnodup) Htagged). simpl.
    rewrite Himg'. simpl. rewrite Hx. simpl. rewrite Hroi_get. simpl. rewrite Hy. simpl.
    split; [reflexivity |]. apply (convert_from_roi_length _ _ Hy). }
  rewrite HXY. simpl. exists (map fst XY), (map snd XY).
  split; [reflexivity |]. rewrite !length_map. unfold keys in Hlen. rewrite length_map in Hlen.
  split; [exact Hlen |]. split; [exact Hlen |]. apply Forall_map. exact Hfour.
Qed.

Lemma get_tagged_images_returns_witness :
  exists (X : list string) (Y : list (list Z)),
    _get_tagged_images demo_loaders ["data/train_299"] = Ok (["7"; "41"], X, Y) /\
    length X = 2 /\ length Y = 2 /\ Forall (fun y => length y = 4) Y.
Proof.
  apply (@get_tagged_images_returns demo_loaders "data/train_299"
           [("12", "data/train_299/Type_3/12_copy.jpg");
            ("7", "data/train_299/Type_1/7.jpg");
            ("30", "data/train_299/Type_2/additional_30.jpg");
            ("41", "data/train_299/Type_3/41.jpg")]
           [("7", "data/bounding_boxes_299/7.roi");
            ("41", "data/bounding_boxes_299/41.roi");
            ("99", "data/bounding_boxes_299/99.roi")]).
  - reflexivity.
  - reflexivity.
  - intros k path Hin. exists path, path. split; reflexivity.
  - intros k roi_path Hk [Heq | [Heq | [Heq | []]]]; injection Heq as <- <-.
    + eexists. reflexivity.
    + eexists. reflexivity.
    + exfalso. simpl in Hk. destruct Hk as [H | [H | [H | [H | []]]]]; discriminate H.
Defined.

(** ** Further facts on [stacking.py] *)

Section StackingMoreFacts.

Import Stacking.

Lemma foldM_ext (A S : Type) (f g : S -> A -> result S) (xs : list A) (s : S) :
  (forall s x, f s x = g s x) -> foldM f xs s = foldM g xs s.
Proof.
  intros Hfg. revert s. induction xs as [| x xs IH]; intros s; simpl; [reflexivity |].
  rewrite Hfg. destruct (g s x); simpl; [apply IH | reflexivity].
Qed.

(** One pass of the loop in cross-validate mode, as a case analysis. *)
Lemma stack_model_cv (w : world) (info : data_info) (a : ndarray (cell w))
    (model_name : string) (preprocess_func : preprocess) :
  stack_model w true info (a, None) (model_name, preprocess_func) =
  match _make_predictions w (join (MODELS_DIR w) model_name) preprocess_func info val with
  | Err x => Err x
  | Ok v =>
      match hstack a v with
      | Err x => Err x
      | Ok a' => Ok (a', None)
      end
  end.
Proof.
  unfold stack_model.
  destruct (_make_predictions w (join (MODELS_DIR w) model_name) preprocess_func info val)
    as [v | x]; [| reflexivity].
  simpl. destruct (hstack a v) as [a' | x]; reflexivity.
Qed.

Lemma stack_models_cv_of_final (w : world) (models : list (string * preprocess))
    (info : data_info) (a b pv pt : ndarray (cell w)) :
  foldM (stack_model w false info) models (a, Some b) = Ok (pv, Some pt) ->
  foldM (stack_model w true info) models (a, None) = Ok (pv, None).
Proof.
  revert a b. induction models as [| [model_name preprocess_func] models IH]; intros a b.
  - simpl. intros H. injection H as <- _. reflexivity.
  - change (foldM (stack_model w false info) ((model_name, preprocess_func) :: models)
              (a, Some b))
      with (bind (stack_model w false info (a, Some b) (model_name, preprocess_func))
                 (foldM (stack_model w false info) models)).
    change (foldM (stack_model w true info) ((model_name, preprocess_func) :: models)
              (a, None))
      with (bind (stack_model w true info (a, None) (model_name, preprocess_func))
                 (foldM (stack_model w true info) models)).
    rewrite stack_model_final, stack_model_cv.
    destruct (_make_predictions w (join (MODELS_DIR w) model_name) preprocess_func info val)
      as [v | x]; [| discriminate].
    destruct (_make_predictions w (join (MODELS_DIR w) model_name) preprocess_func info te)
      as [t | x]; [| discriminate].
    destruct (hstack a v) as [a' | x]; [| discriminate].
    destruct (hstack b t) as [b' | x]; [| discriminate].
    simpl. apply IH.
Qed.

End StackingMoreFacts.

(** X8. [_make_predictions] asks the generator for the smallest number of
    batches of 32 that covers the items of the directory: with [num] items
    (a count below 2^53) and [steps] batches, [32 * (steps - 1) < num <= 32 * steps]. *)
Theorem make_predictions_steps_cover
    (w : Stacking.world) (model_path : string) (preprocess_func : Stacking.preprocess)
    (info : Stacking.data_info) (d : Stacking.dir_id)
    (m : Stacking.model w) (g : Stacking.generator w) :
  (0 <= Stacking.num_of info d < 2 ^ 53)%Z ->
  Stacking.load_model w model_path = Ok m ->
  Stacking.flow_from_directory w preprocess_func (Stacking.dir_of info d)
    (Stacking.HEIGHT, Stacking.WIDTH) Stacking.BATCH_SIZE = Ok g ->
  exists steps : Z,
    Stacking._make_predictions w model_path preprocess_func info d =
    Stacking.predict_generator w m g steps /\
    (32 * (steps - 1) < Stacking.num_of info d <= 32 * steps)%Z.
Proof.
  intros Hnum Hm Hg. exists (Stacking.ceil_div (Stacking.num_of info d) Stacking.BATCH_SIZE).
  split.
  - unfold Stacking._make_predictions. rewrite Hm. simpl. rewrite Hg. reflexivity.
  - unfold Stacking.ceil_div, Stacking.BATCH_SIZE.
    pose proof (Z.div_mod (Stacking.num_of info d + 32 - 1) 32) as Hdiv.
    pose proof (Z.mod_pos_bound (Stacking.num_of info d + 32 - 1) 32) as Hmod. lia.
Qed.

Lemma make_predictions_steps_cover_witness :
  exists steps : Z,
    Stacking._make_predictions (Stacking.toy Stacking.te_block Stacking.good_proba)
      "models/x.h5" Stacking.xception_preprocess
      {| Stacking.num_val := 65; Stacking.num_te := 1;
         Stacking.dir_val := "data/val"; Stacking.dir_te := "data/te" |} Stacking.val =
    Ok Stacking.val_block /\
    (32 * (steps - 1) < 65 <= 32 * steps)%Z.
Proof.
  apply (@make_predictions_steps_cover (Stacking.toy Stacking.te_block Stacking.good_proba)
           "models/x.h5" Stacking.xception_preprocess
           {| Stacking.num_val := 65; Stacking.num_te := 1;
              Stacking.dir_val := "data/val"; Stacking.dir_te := "data/te" |}
           Stacking.val "models/x.h5" "data/val").
  - simpl. lia.
  - reflexivity.
  - reflexivity.
Defined.

(** X9. In cross-validate mode the features do not depend on the test split:
    two [data_info] that agree on the validation directory and on its number
    of items give the same result, whatever they say about the test
    directory. *)
Theorem cross_validation_ignores_test_split
    (w : Stacking.world) (models : list (string * Stacking.preprocess))
    (info info' : Stacking.data_info) :
  Stacking.num_val info = Stacking.num_val info' ->
  Stacking.dir_val info = Stacking.dir_val info' ->
  Stacking.stack_features w models true info = Stacking.stack_features w models true info'.
Proof.
  intros Hnum Hdir. unfold Stacking.stack_features. rewrite Hnum.
  destruct (Stacking.np_empty (Stacking.num_val info')) as [preds_val | x]; simpl;
    [| reflexivity].
  apply foldM_ext. intros preds [model_name preprocess_func].
  unfold Stacking.stack_model, Stacking._make_predictions. simpl. rewrite Hnum, Hdir.
  reflexivity.
Qed.

Lemma cross_validation_ignores_test_split_witness :
  Stacking.stack_features (Stacking.toy Stacking.te_block Stacking.good_proba)
    Stacking.MODELS true Stacking.toy_info =
  Stacking.stack_features (Stacking.toy Stacking.te_block Stacking.good_proba)
    Stacking.MODELS true
    {| Stacking.num_val := 2; Stacking.num_te := -5;
       Stacking.dir_val := "data/val"; Stacking.dir_te := "nowhere" |}.
Proof.
  apply (@cross_validation_ignores_test_split
           (Stacking.toy Stacking.te_block Stacking.good_proba)); reflexivity.
Defined.

(** X10. Cross-validation scores the features that the final fit uses:
    whenever final-fit mode builds its two matrices, cross-validate mode on
    the same data builds the same validation matrix, and no test matrix. *)
Theorem cross_validation_builds_the_final_features
    (w : Stacking.world) (models : list (string * Stacking.preprocess))
    (info : Stacking.data_info) (preds_val preds_te : Stacking.ndarray (Stacking.cell w)) :
  Stacking.stack_features w models false info = Ok (preds_val, Some preds_te) ->
  Stacking.stack_features w models true info = Ok (preds_val, None).
Proof.
  unfold Stacking.stack_features. intros H.
  destruct (Stacking.np_empty (Stacking.num_val info)) as [a | x]; simpl in *;
    [| discriminate].
  destruct (Stacking.np_empty (Stacking.num_te info)) as [b | x]; simpl in *;
    [| discriminate].
  apply (stack_models_cv_of_final _ _ _ _ H).
Qed.

Lemma cross_validation_builds_the_final_features_witness :
  Stacking.stack_features (Stacking.toy Stacking.te_block Stacking.good_proba)
    Stacking.two_models true Stacking.toy_info =
  Ok ({| Stacking.ncols := 4;
         Stacking.cells := [[0.75; 0.25; 0.75; 0.25]; [0.5; 0.5; 0.5; 0.5]]%float |}, None).
Proof.
  apply (@cross_validation_builds_the_final_features
           (Stacking.toy Stacking.te_block Stacking.good_proba) Stacking.two_models
           Stacking.toy_info _
           {| Stacking.ncols := 4; Stacking.cells := [[0.25; 0.75; 0.25; 0.75]]%float |}).
  vm_compute. reflexivity.
Defined.

Section StackingOrderFacts.

Import Stacking.

(** A pass of the loop keeps the numbers of rows of both matrices. *)
Lemma stack_model_rows (w : world) (cross_validate : bool) (info : data_info)
    (preds preds' : features w) (entry : string * preprocess) :
  stack_model w cross_validate info preds entry = Ok preds' ->
  nrows (fst preds') = nrows (fst preds) /\
  forall preds_te', snd preds' = Some preds_te' ->
    exists preds_te, snd preds = Some preds_te /\ nrows preds_te' = nrows preds_te.
Proof.
  assert (Hrows : forall a b c : ndarray (cell w), hstack a b = Ok c -> nrows c = nrows a).
  { intros a b c. unfold hstack. destruct (nrows a =? nrows b) eqn:Hab; [| discriminate].
    apply Nat.eqb_eq in Hab. intros H. injection H as <-. unfold nrows in *. simpl.
    rewrite length_map, length_combine. lia. }
  destruct entry as [model_name preprocess_func]. unfold stack_model. intros H.
  apply bind_ok_inv in H. destruct H as (v & _ & H).
  apply bind_ok_inv in H. destruct H as (t & _ & H).
  apply bind_ok_inv in H. destruct H as (a' & Ha & H).
  apply bind_ok_inv in H. destruct H as (b' & Hb & H).
  injection H as <-. simpl. split; [apply (Hrows _ _ _ Ha) |].
  intros preds_te' ->.
  destruct (snd preds) as [preds_te |]; [| discriminate].
  destruct t as [p |]; [| discriminate].
  apply bind_ok_inv in Hb. destruct Hb as (c & Hc & Hb). injection Hb as <-.
  exists preds_te. split; [reflexivity | apply (Hrows _ _ _ Hc)].
Qed.

End StackingOrderFacts.

(** X11. [train] prints and writes nothing until the data description is
    loaded, the features of all models are built and the labels are read: a
    run with any event passed these three steps. In final-fit mode, moreover,
    its first event is the call of [create_submission_file], on the result of
    [predict_proba] of the combiner fitted on the validation features. *)
Theorem train_is_silent_until_features_are_built
    (w : Stacking.world) (name : string) (cross_validate : bool) (k : Z) :
  fst (Stacking.train w name cross_validate k) <> [] ->
  exists (info : Stacking.data_info) (preds : Stacking.features w)
         (emb : Stacking.labels w * list string),
    Stacking.load_organized_data_info w Stacking.HEIGHT name = Ok info /\
    Stacking.stack_features w Stacking.MODELS cross_validate info = Ok preds /\
    Stacking.create_embeddings w name = Ok emb /\
    (cross_validate = false ->
     exists (preds_te : Stacking.ndarray (Stacking.cell w)) (lr : Stacking.fitted w)
            (y_pred : Stacking.ndarray (Stacking.cell w)),
       snd preds = Some preds_te /\
       Stacking.fit w (Stacking.LogisticRegression (10 ^ 10)) (fst preds) (fst emb) = Ok lr /\
       Stacking.predict_proba w lr preds_te = Ok y_pred /\
       hd_error (fst (Stacking.train w name cross_validate k)) =
       Some (Stacking.Submission_file (snd emb) y_pred
               (join (Stacking.SUBMISSIONS_DIR w) Stacking.stacked_file))).
Proof.
  rewrite train_cases.
  destruct (Stacking.load_organized_data_info w Stacking.HEIGHT name) as [info | x] eqn:Hinfo;
    [| intros H; contradiction H; reflexivity].
  destruct (Stacking.stack_features w Stacking.MODELS cross_validate info)
    as [preds | x] eqn:Hpreds; [| intros H; contradiction H; reflexivity].
  destruct (Stacking.create_embeddings w name) as [emb | x] eqn:Hemb;
    [| intros H; contradiction H; reflexivity].
  intros Hev. exists info, preds, emb.
  split; [reflexivity | split; [exact Hpreds | split; [reflexivity |]]]. intros ->.
  destruct (@stack_features_final_some _ _ _ _ Hpreds) as (preds_te & Hte).
  destruct preds as [preds_val opt]. simpl in Hte. subst opt.
  rewrite combine_features_final in Hev |- *.
  destruct (Stacking.fit w (Stacking.LogisticRegression (10 ^ 10)) preds_val (fst emb))
    as [lr | x] eqn:Hfit; [| contradiction Hev; reflexivity].
  destruct (Stacking.predict_proba w lr preds_te) as [y_pred | x] eqn:Hproba;
    [| contradiction Hev; reflexivity].
  exists preds_te, lr, y_pred.
  split; [reflexivity | split; [exact Hfit | split; [exact Hproba |]]]. cbv zeta.
  destruct (Stacking.create_submission_file w (snd emb) y_pred
              (join (Stacking.SUBMISSIONS_DIR w) Stacking.stacked_file)); reflexivity.
Qed.

Lemma train_is_silent_until_features_are_built_witness :
  exists (info : Stacking.data_info) (preds : Stacking.features (Stacking.toy Stacking.te_block Stacking.good_proba))
         (emb : list nat * list string),
    Stacking.load_organized_data_info (Stacking.toy Stacking.te_block Stacking.good_proba)
      Stacking.HEIGHT "stable" = Ok info /\
    Stacking.stack_features (Stacking.toy Stacking.te_block Stacking.good_proba)
      Stacking.MODELS false info = Ok preds /\
    Stacking.create_embeddings (Stacking.toy Stacking.te_block Stacking.good_proba) "stable" =
    Ok emb /\
    (false = false ->
     exists (preds_te : Stacking.ndarray float) (lr : nat) (y_pred : Stacking.ndarray float),
       snd preds = Some preds_te /\
       Stacking.fit (Stacking.toy Stacking.te_block Stacking.good_proba)
         (Stacking.LogisticRegression (10 ^ 10)) (fst preds) (fst emb) = Ok lr /\
       Stacking.predict_proba (Stacking.toy Stacking.te_block Stacking.good_proba) lr preds_te =
       Ok y_pred /\
       hd_error (fst (Stacking.train (Stacking.toy Stacking.te_block Stacking.good_proba)
                        "stable" false 10)) =
       Some (Stacking.Submission_file (w := Stacking.toy Stacking.te_block Stacking.good_proba)
               (snd emb) y_pred "subs/stacked.csv")).
Proof.
  apply (@train_is_silent_until_features_are_built
           (Stacking.toy Stacking.te_block Stacking.good_proba) "stable" false 10).
  vm_compute. discriminate.
Defined.

(** X12. The loop over the models never changes the numbers of rows: when
    the features are built, in either mode, the validation matrix has
    [num_val] rows; the test matrix, when there is one, has [num_te] rows;
    and cross-validate mode builds no test matrix. *)
Theorem stack_features_rows
    (w : Stacking.world) (models : list (string * Stacking.preprocess))
    (cross_validate : bool) (info : Stacking.data_info) (preds : Stacking.features w) :
  Stacking.stack_features w models cross_validate info = Ok preds ->
  (0 <= Stacking.num_val info)%Z /\
  Stacking.nrows (fst preds) = Z.to_nat (Stacking.num_val info) /\
  (forall preds_te, snd preds = Some preds_te ->
     cross_validate = false /\ (0 <= Stacking.num_te info)%Z /\
     Stacking.nrows preds_te = Z.to_nat (Stacking.num_te info)).
Proof.
  unfold Stacking.stack_features, Stacking.np_empty. intros H.
  destruct (Z.ltb_spec (Stacking.num_val info) 0) as [Hneg | Hval]; [discriminate |].
  cbn [bind] in H. apply bind_ok_inv in H. destruct H as (b & Hb & H).
  split; [exact Hval |].
  refine (@foldM_invariant _ _
            (fun p : Stacking.features w =>
               Stacking.nrows (fst p) = Z.to_nat (Stacking.num_val info) /\
               forall preds_te, snd p = Some preds_te ->
                 cross_validate = false /\ (0 <= Stacking.num_te info)%Z /\
                 Stacking.nrows preds_te = Z.to_nat (Stacking.num_te info))
            _ _ _ _ _ _ H).
  - intros s entry s' [Hs1 Hs2] Hstep. apply stack_model_rows in Hstep.
    destruct Hstep as [H1 H2]. split; [congruence |].
    intros preds_te' Hsome. destruct (H2 _ Hsome) as (preds_te & Hte & Hrows).
    destruct (Hs2 _ Hte) as (Hcv & Hnum & Hn). repeat split; [exact Hcv | exact Hnum | congruence].
  - simpl. split; [unfold Stacking.nrows; simpl; apply repeat_length |].
    intros preds_te ->. destruct cross_validate; [discriminate |].
    destruct (Z.ltb_spec (Stacking.num_te info) 0) as [Hneg | Hte]; [discriminate |].
    simpl in Hb. injection Hb as <-. repeat split; [exact Hte |].
    unfold Stacking.nrows. simpl. apply repeat_length.
Qed.

Lemma stack_features_rows_witness :
  (0 <= Stacking.num_val Stacking.toy_info)%Z /\
  Stacking.nrows
    (fst ({| Stacking.ncols := 4;
             Stacking.cells := [[0.75; 0.25; 0.75; 0.25]; [0.5; 0.5; 0.5; 0.5]]%float |},
          Some {| Stacking.ncols := 4;
                  Stacking.cells := [[0.25; 0.75; 0.25; 0.75]]%float |})) =
  Z.to_nat (Stacking.num_val Stacking.toy_info) /\
  (forall preds_te,
     snd ({| Stacking.ncols := 4;
             Stacking.cells := [[0.75; 0.25; 0.75; 0.25]; [0.5; 0.5; 0.5; 0.5]]%float |},
          Some {| Stacking.ncols := 4;
                  Stacking.cells := [[0.25; 0.75; 0.25; 0.75]]%float |}) = Some preds_te ->
     false = false /\ (0 <= Stacking.num_te Stacking.toy_info)%Z /\
     Stacking.nrows preds_te = Z.to_nat (Stacking.num_te Stacking.toy_info)).
Proof.
  apply (@stack_features_rows (Stacking.toy Stacking.te_block Stacking.good_proba)
           Stacking.two_models false Stacking.toy_info).
  vm_compute. reflexivity.
Defined.

(** ** Further facts on [average_submissions.py] *)

Section LineFacts.

Import AverageSubmissions SubmissionTables.

Open Scope string_scope.










End LineFacts.



Section AverageShapeFacts.

Import AverageSubmissions SubmissionTables.

Context {F : Type} {N : Number F}.

(** Two matrices of one shape with the same entries are equal. *)
Lemma matrix_ext (R C : nat) (a b : matrix F) :
  has_shape R C a -> has_shape R C b ->
  (forall r c, r < R -> c < C -> entry a r c = entry b r c) -> a = b.
Proof.
  intros [Ha Hra] [Hb Hrb] Hentries.
  apply (nth_ext a b [] []); [congruence |].
  intros r Hr. rewrite Ha in Hr.
  assert (Hla : length (nth r a []) = C).
  { apply (proj1 (Forall_forall _ _) Hra). apply nth_In. lia. }
  assert (Hlb : length (nth r b []) = C).
  { apply (proj1 (Forall_forall _ _) Hrb). apply nth_In. lia. }
  apply (nth_ext _ _ fzero fzero); [congruence |].
  intros c Hc. rewrite Hla in Hc. apply (Hentries r c Hr Hc).
Qed.

(** The same file with another weight. *)
Lemma load_source_reweight (e : env) (file : string) (w w' : F) (s : source F) :
  load_source e (file, w) = Ok s ->
  load_source e (file, w') =
  Ok {| src_weight := w'; src_names := src_names s; src_probs := src_probs s |}.
Proof.
  unfold load_source.
  destruct (read_lines e (join (SUBMISSIONS_DIR e) file)) as [lines | x]; [| discriminate].
  simpl. destruct (mapM parse_line (tl lines)) as [parsed | x]; [| discriminate].
  simpl. destruct (np_array2 (map snd parsed)) as [single_probs | x]; [| discriminate].
  simpl. intros H. injection H as <-. reflexivity.
Qed.



End AverageShapeFacts.

(** X1. On an ensemble of one shape the matrix that [average] hands to
    [create_submission_file] has the shape of the files: [R] rows of [C]
    entries each; the names are those of the last file and the path is that
    of [xception_fine_tuned_averaged.csv] in the submissions directory. *)
Theorem average_keeps_the_shape
    (F : Type) (N : Number F) (e : AverageSubmissions.env) (W : list (string * F))
    (srcs : list (AverageSubmissions.source F)) (R C : nat) :
  AverageSubmissions.loaded e W srcs -> AverageSubmissions.regular R C srcs ->
  exists s : AverageSubmissions.submission F,
    AverageSubmissions.average e W = Ok s /\
    AverageSubmissions.has_shape R C (AverageSubmissions.sub_probs s) /\
    AverageSubmissions.sub_names s =
    AverageSubmissions.src_names
      (last srcs {| AverageSubmissions.src_weight := fzero;
                    AverageSubmissions.src_names := [];
                    AverageSubmissions.src_probs := [] |}) /\
    AverageSubmissions.sub_path s =
    join (AverageSubmissions.SUBMISSIONS_DIR e) "xception_fine_tuned_averaged.csv".
Proof.
  intros Hloaded Hregular. eexists. split; [apply (average_regular Hloaded Hregular) |].
  simpl. split; [apply has_shape_combined; apply Hregular |]. split; [| reflexivity].
  destruct Hregular as (Hne & _ & _). clear Hloaded.
  induction srcs as [| s [| s' rest] IH]; [contradiction Hne; reflexivity | reflexivity |].
  change (last (map AverageSubmissions.src_names (s :: s' :: rest)) [])
    with (last (map AverageSubmissions.src_names (s' :: rest)) []).
  rewrite IH by discriminate. reflexivity.
Qed.

Lemma average_keeps_the_shape_witness :
  exists s : AverageSubmissions.submission float,
    AverageSubmissions.average AverageSubmissions.demo_env
      [("a.csv", 0.3%float); ("b.csv", 0.7%float)] = Ok s /\
    AverageSubmissions.has_shape 2 2 (AverageSubmissions.sub_probs s) /\
    AverageSubmissions.sub_names s = ["1.jpg"; "2.jpg"] /\
    AverageSubmissions.sub_path s = "subs/xception_fine_tuned_averaged.csv".
Proof.
  apply (@average_keeps_the_shape float binary64 AverageSubmissions.demo_env
           [("a.csv", 0.3%float); ("b.csv", 0.7%float)]
           [ {| AverageSubmissions.src_weight := 0.3%float;
                AverageSubmissions.src_names := ["1.jpg"; "2.jpg"];
                AverageSubmissions.src_probs := AverageSubmissions.matrix_a |};
             {| AverageSubmissions.src_weight := 0.7%float;
                AverageSubmissions.src_names := ["1.jpg"; "2.jpg"];
                AverageSubmissions.src_probs := AverageSubmissions.matrix_b |} ] 2 2).
  - vm_compute. reflexivity.
  - split; [discriminate | split; [lia |]].
    repeat constructor.
Defined.





Section ExactAverageFacts.

Import AverageSubmissions SubmissionTables.

Context {F : Type} {N : Number F} {E : Exact F}.

Add Field exact_average_arith : exact_field.

Lemma np_sum_Permutation (xs ys : list F) : Permutation xs ys -> np_sum xs = np_sum ys.
Proof.
  induction 1 as [| x xs ys _ IH | x y xs | xs ys zs _ IH1 _ IH2].
  - reflexivity.
  - rewrite !np_sum_cons, IH. reflexivity.
  - rewrite !np_sum_cons. ring.
  - congruence.
Qed.

Lemma mapM_Permutation (A B : Type) (f : A -> result B) (xs xs' : list A) (ys : list B) :
  Permutation xs xs' -> mapM f xs = Ok ys ->
  exists ys', mapM f xs' = Ok ys' /\ Permutation ys ys'.
Proof.
  intros Hperm. revert ys.
  induction Hperm as [| x xs xs' _ IH | x y xs | xs xs' xs'' _ IH1 _ IH2]; intros ys H.
  - exists ys. split; [exact H | apply Permutation_refl].
  - simpl in H. apply bind_ok_inv in H. destruct H as (b & Hb & H).
    apply bind_ok_inv in H. destruct H as (bs & Hbs & H). injection H as <-.
    destruct (IH _ Hbs) as (bs' & Hbs' & Hp). exists (b :: bs').
    simpl. rewrite Hb, Hbs'. split; [reflexivity | apply perm_skip; exact Hp].
  - simpl in H. apply bind_ok_inv in H. destruct H as (b & Hb & H).
    apply bind_ok_inv in H. destruct H as (bs & Hbs & H). injection H as <-.
    apply bind_ok_inv in Hbs. destruct Hbs as (c & Hc & Hbs).
    apply bind_ok_inv in Hbs. destruct Hbs as (cs & Hcs & Hbs). injection Hbs as <-.
    exists (c :: b :: cs). simpl. rewrite Hb, Hc, Hcs. split; [reflexivity | apply perm_swap].
  - destruct (IH1 _ H) as (ys' & H' & Hp'). destruct (IH2 _ H') as (ys'' & H'' & Hp'').
    exists ys''. split; [exact H'' | apply (Permutation_trans Hp' Hp'')].
Qed.

Lemma combined_Permutation (R C : nat) (srcs srcs' : list (source F)) :
  Forall (fun s => has_shape R C (src_probs s)) srcs ->
  Permutation srcs srcs' -> combined R C srcs = combined R C srcs'.
Proof.
  intros Hshape Hperm.
  assert (Hshape' : Forall (fun s => has_shape R C (src_probs s)) srcs').
  { apply (Permutation_Forall Hperm Hshape). }
  apply (matrix_ext (R := R) (C := C)); try (apply has_shape_combined; assumption).
  intros r c Hr Hc. rewrite !entry_combined_exact by assumption.
  f_equal; apply np_sum_Permutation; apply Permutation_map; exact Hperm.
Qed.

Lemma scale_weights_loaded (e : env) (k : F) (W : list (string * F)) (srcs : list (source F)) :
  loaded e W srcs ->
  loaded e (scale_weights k W)
    (map (fun s => {| src_weight := fmul (src_weight s) k;
                      src_names := src_names s;
                      src_probs := src_probs s |}) srcs).
Proof.
  unfold loaded. revert srcs. induction W as [| [file w] W IH]; intros srcs H.
  - simpl in H. injection H as <-. reflexivity.
  - simpl in H. apply bind_ok_inv in H. destruct H as (s & Hs & H).
    apply bind_ok_inv in H. destruct H as (rest & Hrest & H). injection H as <-.
    unfold scale_weights in *. cbn [map fst snd mapM].
    rewrite (load_source_reweight _ _ _ (fmul w k) Hs). cbn [bind].
    rewrite (IH _ Hrest). cbn [bind]. rewrite (@load_source_weight _ _ e file w s Hs).
    reflexivity.
Qed.

Lemma combined_scale_weights (R C : nat) (k : F) (srcs : list (source F)) :
  Forall (fun s => has_shape R C (src_probs s)) srcs ->
  k <> fzero -> np_sum (map src_weight srcs) <> fzero ->
  combined R C (map (fun s => {| src_weight := fmul (src_weight s) k;
                                 src_names := src_names s;
                                 src_probs := src_probs s |}) srcs) =
  combined R C srcs.
Proof.
  intros Hshape Hk Htotal.
  assert (Hshape' :
            Forall (fun s => has_shape R C (src_probs s))
                   (map (fun s => {| src_weight := fmul (src_weight s) k;
                                     src_names := src_names s;
                                     src_probs := src_probs s |}) srcs)).
  { apply Forall_map. exact Hshape. }
  apply (matrix_ext (R := R) (C := C)); try (apply has_shape_combined; assumption).
  intros r c Hr Hc. rewrite !entry_combined_exact by assumption.
  rewrite !map_map. cbn [src_weight src_probs].
  rewrite (map_ext (fun s => fmul (entry (src_probs s) r c) (fmul (src_weight s) k))
                   (fun s => fmul (fmul (entry (src_probs s) r c) (src_weight s)) k))
    by (intros s; ring).
  rewrite <- (map_map (fun s => fmul (entry (src_probs s) r c) (src_weight s))
                      (fun x => fmul x k)).
  rewrite <- (map_map src_weight (fun x => fmul x k)).
  rewrite !np_sum_scale. field. split; assumption.
Qed.

End ExactAverageFacts.

(** X5. In exact arithmetic only the proportions of the weights count: on an
    ensemble of one shape whose weights do not sum to zero, multiplying every
    weight of the table by the same nonzero factor leaves the result of
    [average] unchanged. *)
Theorem average_is_scale_invariant
    (F : Type) (N : Number F) (E : Exact F) (e : AverageSubmissions.env)
    (W : list (string * F)) (srcs : list (AverageSubmissions.source F)) (R C : nat) (k : F) :
  AverageSubmissions.loaded e W srcs -> AverageSubmissions.regular R C srcs ->
  k <> fzero -> np_sum (map snd W) <> fzero ->
  AverageSubmissions.average e (SubmissionTables.scale_weights k W) =
  AverageSubmissions.average e W.
Proof.
  intros Hloaded Hregular Hk Htotal.
  rewrite <- (loaded_weights Hloaded) in Htotal.
  pose proof (scale_weights_loaded k Hloaded) as Hloaded'.
  assert (Hregular' :
            AverageSubmissions.regular R C
              (map (fun s => {| AverageSubmissions.src_weight :=
                                  fmul (AverageSubmissions.src_weight s) k;
                                AverageSubmissions.src_names := AverageSubmissions.src_names s;
                                AverageSubmissions.src_probs := AverageSubmissions.src_probs s |})
                   srcs)).
  { destruct Hregular as (Hne & HR & Hshape). split; [| split; [exact HR |]].
    - destruct srcs; [contradiction Hne; reflexivity | discriminate].
    - apply Forall_map. exact Hshape. }
  rewrite (average_regular Hloaded' Hregular'), (average_regular Hloaded Hregular).
  rewrite (combined_scale_weights (proj2 (proj2 Hregular)) Hk Htotal).
  rewrite map_map. reflexivity.
Qed.

Lemma average_is_scale_invariant_witness :
  AverageSubmissions.average AverageSubmissions.demo_env
    (SubmissionTables.scale_weights (Q2Qc 10)
       [("a.csv", Q2Qc (3 # 10)); ("b.csv", Q2Qc (7 # 10))]) =
  AverageSubmissions.average AverageSubmissions.demo_env
    [("a.csv", Q2Qc (3 # 10)); ("b.csv", Q2Qc (7 # 10))].
Proof.
  apply (@average_is_scale_invariant Qc rationals rationals_exact
           AverageSubmissions.demo_env
           [("a.csv", Q2Qc (3 # 10)); ("b.csv", Q2Qc (7 # 10))]
           (match mapM (AverageSubmissions.load_source AverageSubmissions.demo_env)
                    [("a.csv", Q2Qc (3 # 10)); ("b.csv", Q2Qc (7 # 10))] with
            | Ok srcs => srcs
            | Err _ => []
            end) 2 2 (Q2Qc 10)).
  - vm_compute. reflexivity.
  - split; [discriminate | split; [lia |]]. repeat constructor.
  - apply Qc_neq. reflexivity.
  - apply Qc_neq. reflexivity.
Defined.

(** X6. In exact arithmetic the order of the table counts for the names
    only: on an ensemble of one shape, [average] over a table with the same
    entries in another order gives the same matrix for the same path. *)
Theorem average_matrix_is_order_invariant
    (F : Type) (N : Number F) (E : Exact F) (e : AverageSubmissions.env)
    (W W' : list (string * F)) (srcs : list (AverageSubmissions.source F)) (R C : nat) :
  Permutation W W' ->
  AverageSubmissions.loaded e W srcs -> AverageSubmissions.regular R C srcs ->
  exists s s' : AverageSubmissions.submission F,
    AverageSubmissions.average e W = Ok s /\
    AverageSubmissions.average e W' = Ok s' /\
    AverageSubmissions.sub_probs s' = AverageSubmissions.sub_probs s /\
    AverageSubmissions.sub_path s' = AverageSubmissions.sub_path s.
Proof.
  intros Hperm Hloaded Hregular.
  destruct (mapM_Permutation _ Hperm Hloaded) as (srcs' & Hloaded' & Hsrcs).
  assert (Hregular' : AverageSubmissions.regular R C srcs').
  { destruct Hregular as (Hne & HR & Hshape). split; [| split; [exact HR |]].
    - intros ->. apply Permutation_sym, Permutation_nil in Hsrcs. contradiction.
    - apply (Permutation_Forall Hsrcs Hshape). }
  eexists. eexists.
  split; [apply (average_regular Hloaded Hregular) |].
  split; [apply (average_regular Hloaded' Hregular') |]. simpl.
  split; [| reflexivity]. symmetry.
  apply (combined_Permutation (proj2 (proj2 Hregular)) Hsrcs).
Qed.

Lemma average_matrix_is_order_invariant_witness :
  exists s s' : AverageSubmissions.submission Qc,
    AverageSubmissions.average AverageSubmissions.demo_env
      [("a.csv", Q2Qc (3 # 10)); ("b.csv", Q2Qc (7 # 10))] = Ok s /\
    AverageSubmissions.average AverageSubmissions.demo_env
      [("b.csv", Q2Qc (7 # 10)); ("a.csv", Q2Qc (3 # 10))] = Ok s' /\
    AverageSubmissions.sub_probs s' = AverageSubmissions.sub_probs s /\
    AverageSubmissions.sub_path s' = AverageSubmissions.sub_path s.
Proof.
  apply (@average_matrix_is_order_invariant Qc rationals rationals_exact
           AverageSubmissions.demo_env
           [("a.csv", Q2Qc (3 # 10)); ("b.csv", Q2Qc (7 # 10))]
           [("b.csv", Q2Qc (7 # 10)); ("a.csv", Q2Qc (3 # 10))]
           (match mapM (AverageSubmissions.load_source AverageSubmissions.demo_env)
                    [("a.csv", Q2Qc (3 # 10)); ("b.csv", Q2Qc (7 # 10))] with
            | Ok srcs => srcs
            | Err _ => []
            end) 2 2).
  - apply perm_swap.
  - vm_compute. reflexivity.
  - split; [discriminate | split; [lia |]]. repeat constructor.
Defined.

Section RationalAverageFacts.

Import AverageSubmissions SubmissionTables.

Lemma weighted_sum_bounds (srcs : list (source Qc)) (r c : nat) :
  Forall (fun s => (0 <= entry (src_probs s) r c)%Qc /\ (entry (src_probs s) r c <= 1)%Qc)
         srcs ->
  Forall (fun s => (0 <= src_weight s)%Qc) srcs ->
  (0 <= np_sum (map (fun s => fmul (entry (src_probs s) r c) (src_weight s)) srcs))%Qc /\
  (np_sum (map (fun s => fmul (entry (src_probs s) r c) (src_weight s)) srcs) <=
   np_sum (map src_weight srcs))%Qc.
Proof.
  intros Hprobs Hweights.
  induction Hprobs as [| s srcs [Hlow Hhigh] _ IH].
  - split; apply Qcle_refl.
  - apply Forall_cons_iff in Hweights. destruct Hweights as [Hw Hweights].
    destruct (IH Hweights) as [IHlow IHhigh].
    cbn [map]. rewrite !(np_sum_cons (E := rationals_exact)).
    change (@fadd Qc rationals) with Qcplus. change (@fmul Qc rationals) with Qcmult.
    split.
    + rewrite <- (Qcplus_0_l 0). apply Qcplus_le_compat; [| exact IHlow].
      rewrite <- (Qcmult_0_l (src_weight s)). apply Qcmult_le_compat_r; assumption.
    + apply Qcplus_le_compat; [| exact IHhigh].
      rewrite <- (Qcmult_1_l (src_weight s)) at 2. apply Qcmult_le_compat_r; assumption.
Qed.

Lemma quotient_bounds (a t : Qc) :
  (0 <= a)%Qc -> (a <= t)%Qc -> (0 < t)%Qc -> (0 <= a / t)%Qc /\ (a / t <= 1)%Qc.
Proof.
  intros Ha Hat Ht.
  assert (Hne : t <> 0%Qc) by (apply not_eq_sym, Qclt_not_eq; exact Ht).
  assert (Hq : (a / t * t)%Qc = a) by (rewrite Qcmult_comm; apply Qcmult_div_r; exact Hne).
  split; apply (Qcmult_lt_0_le_reg_r _ _ t Ht).
  - rewrite Qcmult_0_l, Hq. exact Ha.
  - rewrite Qcmult_1_l, Hq. exact Hat.
Qed.

Lemma entries_of_unit_interval (R C : nat) (m : matrix Qc) (r c : nat) :
  has_shape R C m -> entries_in_unit_interval m -> r < R -> c < C ->
  (0 <= entry m r c)%Qc /\ (entry m r c <= 1)%Qc.
Proof.
  intros Hshape Hm Hr Hc. unfold entry.
  pose proof (has_shape_row Hshape Hr) as Hrow. destruct Hshape as [Hlen _].
  assert (Hin : In (nth r m []) m) by (apply nth_In; lia).
  pose proof (proj1 (Forall_forall _ _) Hm _ Hin) as Hall.
  apply (proj1 (Forall_forall _ _) Hall). apply nth_In. lia.
Qed.

Lemma unit_interval_of_entries (R C : nat) (m : matrix Qc) :
  has_shape R C m ->
  (forall r c, r < R -> c < C -> (0 <= entry m r c)%Qc /\ (entry m r c <= 1)%Qc) ->
  entries_in_unit_interval m.
Proof.
  intros Hshape Hentries. apply Forall_forall. intros row Hrow.
  destruct (In_nth _ _ [] Hrow) as (r & Hr & <-).
  destruct Hshape as [Hlen Hrows]. rewrite Hlen in Hr.
  apply Forall_forall. intros p Hp.
  destruct (In_nth _ _ fzero Hp) as (c & Hc & <-).
  assert (Hlenrow : length (nth r m []) = C).
  { apply (proj1 (Forall_forall _ _) Hrows). apply nth_In. lia. }
  rewrite Hlenrow in Hc. apply (Hentries r c Hr Hc).
Qed.

End RationalAverageFacts.

(** X4. Over the rationals the result of [average] is a convex combination:
    on an ensemble of one shape, when every entry of every file lies between
    0 and 1, no weight is negative and the weights have a positive sum, every
    entry of the output lies between 0 and 1. *)
Theorem average_of_probabilities_stays_in_unit_interval
    (e : AverageSubmissions.env) (W : list (string * Qc))
    (srcs : list (AverageSubmissions.source Qc)) (R C : nat) :
  AverageSubmissions.loaded e W srcs -> AverageSubmissions.regular R C srcs ->
  Forall (fun s => SubmissionTables.entries_in_unit_interval (AverageSubmissions.src_probs s))
         srcs ->
  Forall (fun entry => (0 <= snd entry)%Qc) W ->
  (0 < np_sum (map snd W))%Qc ->
  exists s : AverageSubmissions.submission Qc,
    AverageSubmissions.average e W = Ok s /\
    SubmissionTables.entries_in_unit_interval (AverageSubmissions.sub_probs s).
Proof.
  intros Hloaded Hregular Hprobs Hweights Htotal.
  eexists. split; [apply (average_regular Hloaded Hregular) |]. simpl.
  pose proof (proj2 (proj2 Hregular)) as Hshape.
  rewrite <- (loaded_weights Hloaded) in Htotal.
  assert (Hw : Forall (fun s => (0 <= AverageSubmissions.src_weight s)%Qc) srcs).
  { assert (H : Forall (fun w => (0 <= w)%Qc) (map snd W))
      by (apply (proj2 (Forall_map _ _ _)); exact Hweights).
    rewrite <- (loaded_weights Hloaded) in H.
    apply (proj1 (Forall_map _ _ _) H). }
  apply (unit_interval_of_entries (R := R) (C := C));
    [apply has_shape_combined; exact Hshape |].
  intros r c Hr Hc. rewrite (@entry_combined_exact _ _ rationals_exact R C srcs r c Hshape Hr Hc).
  assert (Hbounds :
            Forall (fun s =>
                      (0 <= AverageSubmissions.entry (AverageSubmissions.src_probs s) r c)%Qc /\
                      (AverageSubmissions.entry (AverageSubmissions.src_probs s) r c <= 1)%Qc)
                   srcs).
  { apply Forall_forall. intros s Hs.
    apply (entries_of_unit_interval (R := R) (C := C)); try assumption.
    - apply (proj1 (Forall_forall _ _) Hshape _ Hs).
    - apply (proj1 (Forall_forall _ _) Hprobs _ Hs). }
  destruct (@weighted_sum_bounds srcs r c Hbounds Hw) as [Hlow Hhigh].
  apply quotient_bounds; assumption.
Qed.

Lemma average_of_probabilities_stays_in_unit_interval_witness :
  exists s : AverageSubmissions.submission Qc,
    AverageSubmissions.average AverageSubmissions.demo_env
      [("a.csv", Q2Qc (3 # 10)); ("b.csv", Q2Qc (7 # 10))] = Ok s /\
    SubmissionTables.entries_in_unit_interval (AverageSubmissions.sub_probs s).
Proof.
  apply (@average_of_probabilities_stays_in_unit_interval AverageSubmissions.demo_env
           [("a.csv", Q2Qc (3 # 10)); ("b.csv", Q2Qc (7 # 10))]
           (match mapM (AverageSubmissions.load_source AverageSubmissions.demo_env)
                    [("a.csv", Q2Qc (3 # 10)); ("b.csv", Q2Qc (7 # 10))] with
            | Ok srcs => srcs
            | Err _ => []
            end) 2 2).
  - vm_compute. reflexivity.
  - split; [discriminate | split; [lia |]]. repeat constructor.
  - repeat constructor; vm_compute; discriminate.
  - repeat constructor; vm_compute; discriminate.
  - vm_compute. reflexivity.
Defined.

(** ** The images without a ROI *)

Lemma mapM_lookup (B : Type) (f : string -> result B) (d l : odict string) :
  NoDup (keys d) -> incl l d ->
  mapM (fun k => path <- od_get k d ;; f path) (keys l) = mapM (fun item => f (snd item)) l.
Proof.
  intros Hd. induction l as [| [k path] l IH]; intros Hl; [reflexivity |].
  cbn [keys map mapM fst snd].
  rewrite (@od_get_In _ k path d Hd (Hl _ (or_introl eq_refl))). cbn [bind].
  change (map fst l) with (keys l).
  rewrite IH by (intros item Hitem; apply Hl; right; exact Hitem). reflexivity.
Qed.

(** X21. [_get_untagged_images], when the image dictionary and the ROI
    dictionary can be built: it loads the images without a ROI file in the
    order of the image dictionary, stores each one in its row of [X], and
    returns their ids with [X]. The first image that does not load, or that
    cannot be stored in a row of shape [(HEIGHT, WIDTH, 3)], ends it with the
    exception of [load_img] or of the assignment; the look-up
    [img_dict[img_id]] never raises. *)
Theorem get_untagged_images_loads_in_order
    (w : world) (all roi : odict string) :
  _get_dict_all_images w None = Ok all ->
  _get_dict_roi w None = Ok roi ->
  _get_untagged_images w =
  (X <- mapM (fun item => img <- load_img w (snd item) ;; store_row w img)
             (without_roi roi all) ;;
   Ok (keys (without_roi roi all), X)).
Proof.
  intros Hall Hroi. unfold _get_untagged_images.
  rewrite (untagged_images_spec _ _ Hall Hroi). cbn [bind].
  rewrite <- (@mapM_lookup _ (fun path => img <- load_img w path ;; store_row w img)
                (without_roi roi all) (without_roi roi all)).
  - reflexivity.
  - apply keys_filter_NoDup. apply (@all_images_NoDup _ _ _ Hall).
  - apply incl_refl.
Qed.

Lemma get_untagged_images_loads_in_order_witness :
  _get_untagged_images demo_world =
  Ok (["12"; "30"],
      ["data/train_299/Type_3/12_copy.jpg"; "data/train_299/Type_2/additional_30.jpg"]).
Proof.
  rewrite (@get_untagged_images_loads_in_order demo_world
             [("12", "data/train_299/Type_3/12_copy.jpg");
              ("7", "data/train_299/Type_1/7.jpg");
              ("30", "data/train_299/Type_2/additional_30.jpg");
              ("41", "data/train_299/Type_3/41.jpg")]
             [("7", "data/bounding_boxes_299/7.roi");
              ("41", "data/bounding_boxes_299/41.roi");
              ("99", "data/bounding_boxes_299/99.roi")]); reflexivity.
Defined.

(** X22. What [_get_all_images] returns: the labels are the keys of the
    image dictionary, so no label occurs twice, and [X] holds one row per
    label, in the same order: the row in which the image that [load_img]
    gives for the path stored under the label was stored. *)
Theorem get_all_images_one_image_per_label
    (w : world) (labels : list string) (X : list (image w)) :
  _get_all_images w = Ok (labels, X) ->
  NoDup labels /\
  length X = length labels /\
  exists all : odict string,
    _get_dict_all_images w None = Ok all /\
    labels = keys all /\
    Forall2 (fun item x =>
               exists img, load_img w (snd item) = Ok img /\ store_row w img = Ok x)
            all X.
Proof.
  unfold _get_all_images. intros H.
  apply bind_ok_inv in H. destruct H as (all & Hall & H).
  pose proof (@all_images_NoDup _ _ _ Hall) as Hnodup.
  rewrite (@mapM_lookup _ (fun path => img <- load_img w path ;; store_row w img)
             all all Hnodup (incl_refl all)) in H.
  apply bind_ok_inv in H. destruct H as (X' & HX & H). injection H as <- <-.
  apply mapM_ok_Forall2 in HX.
  split; [exact Hnodup |]. split.
  - unfold keys. rewrite length_map. symmetry. apply (Forall2_length HX).
  - exists all. split; [exact Hall |]. split; [reflexivity |].
    eapply Forall2_impl; [| exact HX].
    intros item x Hx. cbv beta in Hx. apply bind_ok_inv in Hx. exact Hx.
Qed.

Lemma get_all_images_one_image_per_label_witness :
  NoDup ["12"; "7"; "30"; "41"] /\
  length ["data/train_299/Type_3/12_copy.jpg"; "data/train_299/Type_1/7.jpg";
          "data/train_299/Type_2/additional_30.jpg"; "data/train_299/Type_3/41.jpg"] =
  length ["12"; "7"; "30"; "41"] /\
  exists all : odict string,
    _get_dict_all_images demo_world None = Ok all /\
    ["12"; "7"; "30"; "41"] = keys all /\
    Forall2 (fun item x =>
               exists img, load_img demo_world (snd item) = Ok img /\
                           store_row demo_world img = Ok x)
            all
      ["data/train_299/Type_3/12_copy.jpg"; "data/train_299/Type_1/7.jpg";
       "data/train_299/Type_2/additional_30.jpg"; "data/train_299/Type_3/41.jpg"].
Proof.
  apply (@get_all_images_one_image_per_label demo_world). reflexivity.
Defined.
